(** * molior: project-version dependency graph and backend worker

    A shallow embedding of
    - [src/molior/api/projectversion.py]: the dependency walk
      [get_projectversion_deps_manually] and the handlers that create, lock,
      mark-delete a projectversion and add or delete a dependency;
    - [src/molior/molior/worker_backend.py]: [BackendWorker.startup_scheduling]
      and the [_failed] handler.

    SQLAlchemy objects are rows of a table, referred to by their primary key:
    the session's identity map keeps one object per row, so object identity
    is identity of keys.  A relationship such as [projectv.dependencies] is
    the list of the keys it points to. *)

From Stdlib Require Import ZArith List String Ascii DecimalString Bool Lia Relations.
Import ListNotations.

Local Open Scope string_scope.
Local Open Scope list_scope.
Local Open Scope Z_scope.

(** String concatenation, as in [a + b] and ["{}{}".format(a, b)]. *)
Infix "+++" := String.append (at level 60, right associativity).

(** ** Outcomes of the embedded Python functions *)

Inductive exn : Type :=
| AttributeError          (* attribute access on None *)
| ValueError              (* tuple unpacking of the wrong size, list.remove of an absent element *)
| UnmappedInstanceError.  (* session.delete(None) *)

(** [Diverges] is the outcome of a recursion that needs more stack frames than
    the depth budget it was given. *)
Inductive outcome (A : Type) : Type :=
| Ok (a : A)
| Raised (e : exn)
| Diverges.

Arguments Ok {A} a.
Arguments Raised {A} e.
Arguments Diverges {A}.

Definition bind {A B : Type} (m : outcome A) (k : A -> outcome B) : outcome B :=
  match m with
  | Ok a => k a
  | Raised e => Raised e
  | Diverges => Diverges
  end.

Notation "x <- m ;; k" := (bind m (fun x => k))
  (at level 61, m at next level, right associativity).

(** The outcome of a call that returns or raises and does not recurse. *)
Definition call {A : Type} (r : exn + A) : outcome A :=
  match r with
  | inl e => Raised e
  | inr a => Ok a
  end.

(** A [for] loop whose body may raise: the loop variable runs over [l], the
    loop state is threaded through. *)
Fixpoint for_each {A S : Type} (body : S -> A -> outcome S) (l : list A) (s : S)
  : outcome S :=
  match l with
  | [] => Ok s
  | a :: l' => s' <- body s a ;; for_each body l' s'
  end.

(** ** The store *)

Record Project : Type := mkProject {
  p_id : Z;
  p_name : string;
  p_description : string;
  p_is_basemirror : bool
}.

Record ProjectVersion : Type := mkProjectVersion {
  pv_id : Z;
  pv_name : string;
  pv_project : Z;                 (* projectversion.project, a Project key *)
  pv_basemirror : option Z;       (* projectversion.basemirror, optional *)
  pv_architectures : list string;
  pv_dependencies : list Z;       (* projectversion.dependencies *)
  pv_is_locked : bool;
  pv_is_deleted : bool;
  pv_ci_builds_enabled : bool
}.

Record Store : Type := mkStore {
  projects : list Project;
  projectversions : list ProjectVersion
}.

(** [session.query(ProjectVersion).filter(ProjectVersion.id == i).first()] *)
Definition find_pv (st : Store) (i : Z) : option ProjectVersion :=
  find (fun pv => pv_id pv =? i) (projectversions st).

(** [session.query(Project).filter(Project.id == i).first()] *)
Definition find_project (st : Store) (i : Z) : option Project :=
  find (fun p => p_id p =? i) (projects st).

(** ** The dependency walk *)

Section DependencyWalk.

(** [projectversion_to_dict] reads [get_apt_repo], [basemirror.fullname] and
    [mirror_architectures] of the model class, which are not part of the
    sources at hand.  The dict it builds is kept abstract; what the walk
    relies on is that dicts are compared by value and that a dict records
    ["id": projectversion.id]. *)
Variable Dict : Type.
Variable dict_eqb : Dict -> Dict -> bool.
Variable dict_id : Dict -> Z.
Variable projectversion_to_dict : Store -> ProjectVersion -> exn + Dict.

(** An element of the list [deps]: the projectversion itself
    ([to_dict=False]) or its dict. *)
Inductive entry : Type :=
| Obj (ref : Z)
| AsDict (d : Dict).

(** Python's [==] on the elements: two model objects are equal when they are
    the same object, two dicts when they have the same content, an object
    and a dict never. *)
Definition entry_eqb (a b : entry) : bool :=
  match a, b with
  | Obj x, Obj y => x =? y
  | AsDict d, AsDict d' => dict_eqb d d'
  | _, _ => false
  end.

(** [x in l] *)
Definition py_in (x : entry) (l : list entry) : bool := existsb (entry_eqb x) l.

Definition entry_id (e : entry) : Z :=
  match e with
  | Obj x => x
  | AsDict d => dict_id d
  end.

Variable st : Store.
Variable projectversion : Z.    (* the projectversion the walk starts from *)
Variable to_dict : bool.

(** The inner function [get_deps]; [deps] is the list of the enclosing
    function, [fuel] bounds the depth of the recursion. *)
Fixpoint get_deps (fuel : nat) (deps : list entry) (projectv : Z) {struct fuel}
  : outcome (list entry) :=
  match fuel with
  | O => Diverges
  | S fuel' =>
      match find_pv st projectv with
      | None => Ok deps                                   (* if not projectv: return *)
      | Some pv =>
          deps1 <-
            (if negb (py_in (Obj projectv) deps) && negb (projectversion =? pv_id pv)
             then
               dep <- (if to_dict
                       then d <- call (projectversion_to_dict st pv) ;; Ok (AsDict d)
                       else Ok (Obj projectv)) ;;
               Ok (if negb (py_in dep deps) then deps ++ [dep] else deps)
             else Ok deps) ;;
          for_each (get_deps fuel') (pv_dependencies pv) deps1
      end
  end.

Definition get_projectversion_deps_manually (fuel : nat) : outcome (list entry) :=
  get_deps fuel [] projectversion.

End DependencyWalk.

Arguments Obj {Dict} ref.
Arguments AsDict {Dict} d.

(** ** The dependency graph of a store *)

Section Graph.

Variable st : Store.

Definition node (x : Z) : Prop := find_pv st x <> None.

(** [x] has the dependency edge [x -> y]. *)
Definition edge (x y : Z) : Prop :=
  exists pv, find_pv st x = Some pv /\ In y (pv_dependencies pv) /\ node y.

(** [y] is reachable from [x] along one dependency edge or more. *)
Definition depends_on (x y : Z) : Prop := clos_trans Z edge x y.

(** No dependency cycle can be reached from [x]. *)
Definition acyclic_from (x : Z) : Prop :=
  forall y, clos_refl_trans Z edge x y -> ~ depends_on y y.

(** The dependency edges of the store form no cycle. *)
Definition acyclic : Prop := forall x, ~ depends_on x x.

(** [x] is in the store and [y] is [x] or a projectversion it depends on. *)
Definition reach (x y : Z) : Prop := node x /\ clos_refl_trans_1n Z edge x y.

(** A sequence of projectversions linked by dependency edges. *)
Fixpoint chain (x : Z) (l : list Z) : Prop :=
  match l with
  | [] => node x
  | y :: l' => edge x y /\ chain y l'
  end.

(** The walk started at [x] fits into [fuel] nested calls. *)
Fixpoint fits (fuel : nat) (x : Z) : bool :=
  match fuel with
  | O => false
  | S fuel' =>
      match find_pv st x with
      | None => true
      | Some pv => forallb (fits fuel') (pv_dependencies pv)
      end
  end.

End Graph.

(** ** What the list [deps] looks like during a walk *)

Section WalkInvariant.

Variable Dict : Type.
Variable dict_id : Dict -> Z.
Variable projectversion_to_dict : Store -> ProjectVersion -> exn + Dict.
Variable st : Store.
Variable to_dict : bool.

(** The projectversions a list of entries stands for. *)
Definition ids (l : list (entry Dict)) : list Z := map (entry_id Dict dict_id) l.

(** With [to_dict] an entry is the dict of a projectversion of the store,
    without it the projectversion itself. *)
Definition entry_ok (e : entry Dict) : Prop :=
  if to_dict
  then exists pv d, find_pv st (entry_id Dict dict_id e) = Some pv /\
                    projectversion_to_dict st pv = inr d /\ e = AsDict d
  else e = Obj (entry_id Dict dict_id e).

(** [l'] extends [l] by the projectversions in [R], none of them twice. *)
Definition grows_by (R : Z -> Prop) (l l' : list (entry Dict)) : Prop :=
  Forall entry_ok l' /\
  (NoDup (ids l) -> NoDup (ids l')) /\
  (forall y, In y (ids l') <-> In y (ids l) \/ R y).

End WalkInvariant.

(** ** The handlers of the projectversion API *)

(** [aptly_queue]: the tasks put on it, oldest first. *)
Inductive aptly_task : Type :=
| init_repository (projectversion_id : Z)
                  (basemirror_name basemirror_version project_name project_version : string)
                  (architectures : list string)
| drop_publish (base_mirror_name base_mirror_version project_name project_version channel : string).

Inductive response : Type :=
| ErrorResponse (status : Z) (msg : string)
| Response (status : Z) (text : string)         (* web.Response(text=..., status=...) *)
| JsonIdName (id : Z) (name : string).           (* web.json_response({"id": ..., "name": ...}) *)

(** [request.cirrina]: the database session and the queue to aptly. *)
Record App : Type := mkApp {
  db : Store;
  aptly_queue : list aptly_task
}.

Definition string_of_Z (z : Z) : string := NilZero.string_of_int (Z.to_int z).

(** The line feed that ends a log line. *)
Definition newline : string := String (ascii_of_nat 10) EmptyString.

(** [not x] for the result of [parse_int]: [None] and [0] are falsy. *)
Definition falsy (x : option Z) : bool :=
  match x with
  | None => true
  | Some z => z =? 0
  end.

(** The integer behind a result of [parse_int] that is not [None]. *)
Definition the_int (x : option Z) : Z :=
  match x with
  | Some z => z
  | None => 0
  end.

Definition set_dependencies (l : list Z) (pv : ProjectVersion) : ProjectVersion :=
  mkProjectVersion (pv_id pv) (pv_name pv) (pv_project pv) (pv_basemirror pv)
    (pv_architectures pv) l (pv_is_locked pv) (pv_is_deleted pv) (pv_ci_builds_enabled pv).

(** [is_locked = True; ci_builds_enabled = False] *)
Definition set_locked (pv : ProjectVersion) : ProjectVersion :=
  mkProjectVersion (pv_id pv) (pv_name pv) (pv_project pv) (pv_basemirror pv)
    (pv_architectures pv) (pv_dependencies pv) true (pv_is_deleted pv) false.

(** [is_deleted = True; is_locked = True; ci_builds_enabled = False] *)
Definition set_deleted (pv : ProjectVersion) : ProjectVersion :=
  mkProjectVersion (pv_id pv) (pv_name pv) (pv_project pv) (pv_basemirror pv)
    (pv_architectures pv) (pv_dependencies pv) true true false.

(** Attribute assignments on the object of key [i], committed. *)
Definition update_pv (st : Store) (i : Z) (f : ProjectVersion -> ProjectVersion) : Store :=
  mkStore (projects st)
          (map (fun pv => if pv_id pv =? i then f pv else pv) (projectversions st)).

(** No dict is built when [to_dict] is [False]: the type of dicts is empty
    on that path. *)
Definition no_dict (st : Store) (pv : ProjectVersion) : exn + Empty_set := inl AttributeError.

Definition no_dict_eqb (d d' : Empty_set) : bool := true.

Definition no_dict_id (d : Empty_set) : Z := match d with end.

(** [get_projectversion_deps_manually(projectversion, to_dict=False)], the
    list of projectversions read as their keys. *)
Definition deps_objects (fuel : nat) (st : Store) (projectversion : Z) : outcome (list Z) :=
  L <- get_projectversion_deps_manually Empty_set no_dict_eqb no_dict st projectversion false fuel ;;
  Ok (ids Empty_set no_dict_id L).

(** Modelled from the spec: [get_projectversion_deps] of
    molior.model.projectversion is not among the sources.  Section 4.1,
    wouldCreateCycle: "compute transitiveDependencies(candidateDependency);
    return true if targetId appears in that set"; the ids it returns are
    those of the transitive dependencies of [projectversion_id]. *)
Definition get_projectversion_deps (fuel : nat) (projectversion_id : Z) (session : Store)
  : outcome (list Z) :=
  deps_objects fuel session projectversion_id.

(** [dep.is_locked] for an element of [deps]. *)
Definition ref_is_locked (st : Store) (dep : Z) : bool :=
  match find_pv st dep with
  | Some pv => pv_is_locked pv
  | None => false
  end.

(** [x.project.name] *)
Definition project_name (st : Store) (pv : ProjectVersion) : exn + string :=
  match find_project st (pv_project pv) with
  | Some p => inr (p_name p)
  | None => inl AttributeError
  end.

(** ["{}/{}".format(x.project.name, x.name)] *)
Definition slash_name (st : Store) (pv : ProjectVersion) : exn + string :=
  match project_name st pv with
  | inr n => inr (n +++ "/" +++ pv_name pv)
  | inl e => inl e
  end.

(** POST /api/projectversions/{projectversion_id}/dependency;
    [projectversion_id] and [dependency_id] are the results of [parse_int]. *)
Definition post_projectversion_dependency (fuel : nat) (app : App)
    (projectversion_id dependency_id : option Z) : outcome response * App :=
  if falsy projectversion_id
  then (Ok (ErrorResponse 400 "Incorrect value for projectversion_id"), app)
  else if falsy dependency_id
  then (Ok (ErrorResponse 400 "Incorrect value for dependency_id"), app)
  else
    let pvid := the_int projectversion_id in
    let depid := the_int dependency_id in
    match find_pv (db app) pvid with
    | None => (Ok (ErrorResponse 400 "Invalid data received."), app)
    | Some projectversion =>
        if pv_is_locked projectversion
        then (Ok (ErrorResponse 400
                    "You can not add dependencies on a locked projectversion!"), app)
        else if depid =? pvid
        then (Ok (ErrorResponse 400
                    "You can not add a dependency of the same projectversion to itself!"), app)
        else
          (* check for dependency loops *)
          match get_projectversion_deps fuel depid (db app) with
          | Raised e => (Raised e, app)
          | Diverges => (Diverges, app)
          | Ok dep_ids =>
              if existsb (Z.eqb pvid) dep_ids
              then (Ok (ErrorResponse 400
                          "You can not add a dependency of a projectversion depending itself on this projectversion!"), app)
              else
                match find_pv (db app) depid with
                | None => (Ok (ErrorResponse 400 "Invalid data received."), app)
                | Some dependency =>
                    (* projectversion.dependencies.append(dependency); commit *)
                    (Ok (Response 200 "Dependency added"),
                     mkApp (update_pv (db app) pvid
                              (fun pv => set_dependencies (pv_dependencies pv ++ [depid]) pv))
                           (aptly_queue app))
                end
          end
    end.

(** [l.remove(x)]: the first occurrence goes, [ValueError] if there is none. *)
Fixpoint list_remove (x : Z) (l : list Z) : exn + list Z :=
  match l with
  | [] => inl ValueError
  | y :: l' => if y =? x then inr l'
               else match list_remove x l' with
                    | inr r => inr (y :: r)
                    | inl e => inl e
                    end
  end.

(** DELETE /api/projectversions/{projectversion_id}/dependency *)
Definition delete_projectversion_dependency (app : App)
    (projectversion_id dependency_id : option Z) : outcome response * App :=
  if falsy projectversion_id
  then (Ok (ErrorResponse 400 "Incorrect value for projectversion_id"), app)
  else if falsy dependency_id
  then (Ok (ErrorResponse 400 "Incorrect value for dependency_id"), app)
  else
    let pvid := the_int projectversion_id in
    let depid := the_int dependency_id in
    match find_pv (db app) pvid with
    | None => (Ok (ErrorResponse 400
                     ("Could not find projectversion with id: " +++ string_of_Z pvid)), app)
    | Some projectversion =>
        if pv_is_locked projectversion
        then (Ok (ErrorResponse 400
                    "You can not delete dependencies on a locked projectversion!"), app)
        else
          match find_pv (db app) depid with
          | None => (Ok (ErrorResponse 400
                           ("Could not find projectversion dependency with id: "
                            +++ string_of_Z depid)), app)
          | Some dependency =>
              match list_remove depid (pv_dependencies projectversion),
                    slash_name (db app) projectversion,
                    slash_name (db app) dependency with
              | inr remaining, inr pv_fullname, inr dep_fullname =>
                  (Ok (Response 200 ("Deleted dependency from " +++ pv_fullname
                                     +++ " to " +++ dep_fullname)),
                   mkApp (update_pv (db app) pvid (set_dependencies remaining))
                         (aptly_queue app))
              | inl e, _, _ => (Raised e, app)
              | _, inl e, _ => (Raised e, app)
              | _, _, inl e => (Raised e, app)
              end
          end
    end.

(** POST /api/projectversions/{projectversion_id}/lock; [projectversion_id]
    is [None] when [int(...)] raised.  The lock is committed before
    [logger.info] reads [projectversion.project.name]. *)
Definition post_projectversion_lock (fuel : nat) (app : App)
    (projectversion_id : option Z) : outcome response * App :=
  match projectversion_id with
  | None => (Ok (ErrorResponse 400 "Incorrect value for projectversion_id"), app)
  | Some pvid =>
      match find_pv (db app) pvid with
      | None => (Ok (ErrorResponse 400
                       ("Projectversion#" +++ string_of_Z pvid +++ " not found")), app)
      | Some projectversion =>
          match deps_objects fuel (db app) pvid with
          | Raised e => (Raised e, app)
          | Diverges => (Diverges, app)
          | Ok deps =>
              if existsb (fun dep => negb (ref_is_locked (db app) dep)) deps
              then (Ok (ErrorResponse 400
                          "Dependencies of given projectversion must be locked"), app)
              else
                let app' := mkApp (update_pv (db app) pvid set_locked) (aptly_queue app) in
                match project_name (db app) projectversion with
                | inl e => (Raised e, app')
                | inr _ => (Ok (Response 200 "Locked Project Version"), app')
                end
          end
      end
  end.

(** Modelled from the spec: the relationship [dependents] is declared in the
    model class, which is not among the sources.  Section 3: "set of incoming
    edges (dependents, derived)"; section 4.1: "dependents (incoming-edge
    sources)". *)
Definition dependents (st : Store) (i : Z) : list ProjectVersion :=
  filter (fun d => existsb (Z.eqb i) (pv_dependencies d)) (projectversions st).

(** The loop that fills [blocking_dependants]. *)
Definition blocking_names (st : Store) (ds : list ProjectVersion) : outcome (list string) :=
  for_each (fun blocking_dependants d =>
              if negb (pv_is_deleted d)
              then n <- call (slash_name st d) ;; Ok (blocking_dependants ++ [n])
              else Ok blocking_dependants)
           ds [].

(** [x.basemirror], [None] when there is none. *)
Definition basemirror_of (st : Store) (pv : ProjectVersion) : exn + ProjectVersion :=
  match pv_basemirror pv with
  | None => inl AttributeError
  | Some b => match find_pv st b with
              | Some bm => inr bm
              | None => inl AttributeError
              end
  end.

(** PUT /api/projectversions/{projectversion_id}/mark-delete *)
Definition mark_delete_projectversion (app : App) (projectversion_id : option Z)
  : outcome response * App :=
  match projectversion_id with
  | None => (Ok (ErrorResponse 400 "invalid projectversion_id"), app)
  | Some pvid =>
      match find_pv (db app) pvid with
      | None => (Ok (ErrorResponse 400
                       ("Projectversion#" +++ string_of_Z pvid +++ " not found")), app)
      | Some projectversion =>
          match (match dependents (db app) pvid with     (* if projectversion.dependents: *)
                 | [] => Ok []
                 | _ :: _ => blocking_names (db app) (dependents (db app) pvid)
                 end) with
          | Raised e => (Raised e, app)
          | Diverges => (Diverges, app)
          | Ok (n :: ns) =>
              (Ok (ErrorResponse 400
                     ("Projectversions '" +++ String.concat ", " (n :: ns)
                      +++ "' are still depending on this version, you can not delete it!")),
               app)
          | Ok [] =>
              match basemirror_of (db app) projectversion with
              | inl e => (Raised e, app)
              | inr bm =>
                  match project_name (db app) bm, project_name (db app) projectversion with
                  | inr base_mirror_name, inr pname =>
                      let base_mirror_version := pv_name bm in
                      (Ok (Response 200 "Deleted Project Version"),
                       mkApp (update_pv (db app) pvid set_deleted)
                             (aptly_queue app ++
                              [drop_publish base_mirror_name base_mirror_version
                                            pname (pv_name projectversion) "stable";
                               drop_publish base_mirror_name base_mirror_version
                                            pname (pv_name projectversion) "unstable"]))
                  | inl e, _ => (Raised e, app)
                  | _, inl e => (Raised e, app)
                  end
              end
          end
      end
  end.

(** [s.split(sep)] for a separator of one character *)
Fixpoint split_on (sep : ascii) (s : string) : list string :=
  match s with
  | EmptyString => [EmptyString]
  | String c s' =>
      if Ascii.eqb c sep then EmptyString :: split_on sep s'
      else match split_on sep s' with
           | w :: ws => String c w :: ws
           | [] => [String c EmptyString]
           end
  end.

(** [c in s] for a character [c] *)
Fixpoint contains (c : ascii) (s : string) : bool :=
  match s with
  | EmptyString => false
  | String c' s' => Ascii.eqb c' c || contains c s'
  end.

(** [not s] for a string that may be [None] *)
Definition str_falsy (s : option string) : bool :=
  match s with
  | None => true
  | Some EmptyString => true
  | Some _ => false
  end.

(** The body of the request: [params.get("name")],
    [params.get("architectures", [])], [params.get("basemirror")]. *)
Record create_params : Type := mkParams {
  param_name : option string;
  param_architectures : list string;
  param_basemirror : option string
}.

(** The key the database gives a row that is added: one not in use, here one
    past the largest. *)
Definition fresh_id (st : Store) : Z :=
  1 + fold_right Z.max 0 (map pv_id (projectversions st)).

Section Create.

(** Of molior.tools, not among the sources. *)
Variable is_name_valid : string -> bool.

(** How the database compares the integer column [Project.id] with the text
    taken from the URL. *)
Variable sql_int_eq_text : Z -> string -> bool.

(** The two queries for the project: by name, then by id. *)
Definition lookup_project (st : Store) (project_id : string) : option Project :=
  match find (fun p => p_name p =? project_id)%string (projects st) with
  | Some project => Some project
  | None => find (fun p => sql_int_eq_text (p_id p) project_id) (projects st)
  end.

(** [query(ProjectVersion).filter(ProjectVersion.name == name,
    Project.id == project.id).first()]: the query names two tables and
    joins them by no condition, so a projectversion is selected when its
    name is [name] and some row of [Project] has the id of [project]. *)
Definition query_name_and_project (st : Store) (name : string) (project : Project)
  : option ProjectVersion :=
  find (fun pv => (pv_name pv =? name)%string
                  && existsb (fun p => p_id p =? p_id project) (projects st))
       (projectversions st).

(** [query(ProjectVersion).filter(ProjectVersion.parent.name == basemirror_name,
    ProjectVersion.name == basemirror_version).first()].  [parent] is
    declared in the model class, which is not among the sources: which
    projectversion the query selects for the two names, and whether building
    its filter raises, is left open. *)
Variable query_basemirror : Store -> string -> string -> exn + option ProjectVersion.

(** POST /api/projects/{project_id}/versions *)
Definition create_projectversions (app : App) (project_id : string) (params : create_params)
  : outcome response * App :=
  let architectures := param_architectures params in
  if (project_id =? "")%string
  then (Ok (ErrorResponse 400 "No valid project id received"), app)
  else if str_falsy (param_name params)
  then (Ok (ErrorResponse 400 "No valid name for the projectversion recieived"), app)
  else if str_falsy (param_basemirror params)
          || negb (contains "/" (match param_basemirror params with Some b => b | None => "" end))
  then (Ok (ErrorResponse 400 "No valid basemirror received (format: 'name/version')"), app)
  else if match architectures with [] => true | _ => false end
  then (Ok (ErrorResponse 400 "No valid architecture received"), app)
  else
    match param_name params, param_basemirror params with
    | Some name, Some basemirror =>
        if negb (is_name_valid name)
        then (Ok (ErrorResponse 400 "Invalid project name!"), app)
        else
          match split_on "/" basemirror with
          | [basemirror_name; basemirror_version] =>
              match lookup_project (db app) project_id with
              | None => (Ok (ErrorResponse 400
                               ("Project '" +++ project_id +++ "' could not be found")), app)
              | Some project =>
                  match query_name_and_project (db app) name project with
                  | Some projectversion =>
                      (Ok (ErrorResponse 400
                             ("Projectversion already exists. "
                              +++ (if pv_is_deleted projectversion
                                   then "And is marked as deleted!" else ""))), app)
                  | None =>
                      match query_basemirror (db app) basemirror_name basemirror_version with
                      | inl e => (Raised e, app)
                      | inr None =>
                          (Ok (ErrorResponse 400
                                 ("Base mirror not found: " +++ basemirror_name
                                  +++ "/" +++ basemirror_version)), app)
                      | inr (Some basemirror) =>
                          (* ProjectVersion(name=name, project=project,
                             architectures=architectures, basemirror=basemirror); what
                             the constructor is not given is empty or off *)
                          let projectversion :=
                            mkProjectVersion (fresh_id (db app)) name (p_id project)
                              (Some (pv_id basemirror)) architectures [] false false false in
                          (Ok (JsonIdName (pv_id projectversion) (pv_name projectversion)),
                           mkApp (mkStore (projects (db app))
                                          (projectversions (db app) ++ [projectversion]))
                                 (aptly_queue app ++
                                  [init_repository (pv_id projectversion)
                                     basemirror_name basemirror_version
                                     (p_name project) (pv_name projectversion)
                                     architectures]))
                      end
                  end
              end
          | _ => (Raised ValueError, app)     (* too many values to unpack *)
          end
    | _, _ => (Raised AttributeError, app)    (* excluded by the checks above *)
    end.

End Create.

(** [ci_builds_enabled = b] *)
Definition set_ci_builds_enabled (b : bool) (pv : ProjectVersion) : ProjectVersion :=
  mkProjectVersion (pv_id pv) (pv_name pv) (pv_project pv) (pv_basemirror pv)
    (pv_architectures pv) (pv_dependencies pv) (pv_is_locked pv) (pv_is_deleted pv) b.

(** POST /api/projectversions/{projectversion_id}/toggleci; [projectversion_id]
    is [None] when [int(...)] raised.  The flag is committed before
    [logger.info] reads [projectversion.project.name]. *)
Definition post_projectversion_toggle_ci (app : App) (projectversion_id : option Z)
  : outcome response * App :=
  match projectversion_id with
  | None => (Ok (ErrorResponse 400 "Incorrect value for projectversion_id"), app)
  | Some pvid =>
      match find_pv (db app) pvid with
      | None => (Ok (ErrorResponse 400
                       ("Projectversion#" +++ string_of_Z pvid +++ " not found")), app)
      | Some projectversion =>
          let app' :=
            mkApp (update_pv (db app) pvid
                     (fun pv => set_ci_builds_enabled (negb (pv_ci_builds_enabled pv)) pv))
                  (aptly_queue app) in
          let result :=
            if negb (pv_ci_builds_enabled projectversion) then "enabled" else "disabled" in
          match project_name (db app) projectversion with
          | inl e => (Raised e, app')
          | inr _ => (Ok (Response 200 ("Ci builds are now " +++ result +++ ".")), app')
          end
      end
  end.

(** ** Invariants of a store *)

(** Whatever a locked projectversion depends on is locked. *)
Definition lock_closed (st : Store) : Prop :=
  forall x y, ref_is_locked st x = true -> depends_on st x y -> ref_is_locked st y = true.

(** No projectversion that is not deleted depends on a deleted one. *)
Definition deleted_closed (st : Store) : Prop :=
  forall x pv d, find_pv st x = Some pv -> pv_is_deleted pv = true ->
                 In d (dependents st x) -> pv_is_deleted d = true.

(** The response is an error of the handler itself. *)
Definition is_error (r : outcome response) : bool :=
  match r with
  | Ok (ErrorResponse _ _) => true
  | _ => false
  end.

(** ** The backend worker *)

Record Build : Type := mkBuild {
  b_id : Z;
  b_buildstate : string;
  b_buildtype : string;
  b_is_ci : bool;
  b_parent : option Z             (* build.parent, a Build key *)
}.

Record BuildTask : Type := mkBuildTask {
  bt_id : Z;
  bt_build : Z                    (* buildtask.build, a Build key *)
}.

Record Database : Type := mkDatabase {
  builds : list Build;
  buildtasks : list BuildTask
}.

(** What the worker does to the world around it, in order. *)
Inductive event : Type :=
| LoggerError (msg : string)
| LoggerInfo (msg : string)
| LoggerException (e : exn)
| WriteLog (build_id : Z) (line : string)       (* write_log(build_id, line) *)
| SendMailNotification (build_id : Z)           (* send_mail_notification(build) *)
| BackendBuild (job : list string)              (* backend.build( *job ) *)
| AptlyPutPublish (build_id : Z)                (* aptly_queue.put({"publish": [build_id]}) *)
| TaskPutSchedule.                              (* task_queue.put({"schedule": []}) *)

(** The database as committed, the database as the open session sees it,
    and the events so far. *)
Record World : Type := mkWorld {
  committed : Database;
  pending : Database;
  events : list event
}.

(** A computation of the worker: it returns or raises, and leaves a world. *)
Definition W (A : Type) : Type := World -> (exn + A) * World.

Definition ret {A : Type} (a : A) : W A := fun w => (inr a, w).

Definition raise {A : Type} (e : exn) : W A := fun w => (inl e, w).

Definition bindW {A B : Type} (m : W A) (k : A -> W B) : W B :=
  fun w => match m w with
           | (inr a, w') => k a w'
           | (inl e, w') => (inl e, w')
           end.

Notation "x <-- m ;; k" := (bindW m (fun x => k))
  (at level 61, m at next level, right associativity).
Notation "m ;;; k" := (bindW m (fun _ => k))
  (at level 61, right associativity).

Fixpoint for_W {A : Type} (l : list A) (body : A -> W unit) : W unit :=
  match l with
  | [] => ret tt
  | a :: l' => body a ;;; for_W l' body
  end.

Definition emit (e : event) : W unit :=
  fun w => (inr tt, mkWorld (committed w) (pending w) (events w ++ [e])).

(** Modelled from the spec: [Session] is molior.model.database, which is not
    among the sources; section 5 has the store as "an ACID-transactional
    state holder" and every handler committing "its own transaction".
    [with Session() as session:] opens on the committed database and, at its
    end or when an exception leaves it, drops what was not committed. *)
Definition with_session {A : Type} (body : W A) : W A :=
  fun w => match body (mkWorld (committed w) (committed w) (events w)) with
           | (r, w') => (r, mkWorld (committed w') (committed w') (events w'))
           end.

(** [session.commit()] *)
Definition session_commit : W unit :=
  fun w => (inr tt, mkWorld (pending w) (pending w) (events w)).

(** [session.query(Build).filter(Build.buildstate == state,
    Build.buildtype == buildtype).all()] *)
Definition query_builds (state buildtype : string) : W (list Build) :=
  fun w => (inr (filter (fun b => (b_buildstate b =? state)%string
                                  && (b_buildtype b =? buildtype)%string)
                        (builds (pending w))), w).

(** [session.query(Build).filter(Build.id == build_id).first()] *)
Definition find_build (d : Database) (build_id : Z) : option Build :=
  find (fun b => b_id b =? build_id) (builds d).

Definition query_build (build_id : Z) : W (option Build) :=
  fun w => (inr (find_build (pending w) build_id), w).

(** [session.query(BuildTask).filter(BuildTask.build == build).first()] *)
Definition first_buildtask (d : Database) (build : Z) : option BuildTask :=
  find (fun t => bt_build t =? build) (buildtasks d).

Definition query_buildtask (build : Build) : W (option BuildTask) :=
  fun w => (inr (first_buildtask (pending w) (b_id build)), w).

(** [session.delete(buildtask)]; SQLAlchemy raises [UnmappedInstanceError]
    when it is handed [None]. *)
Definition session_delete (buildtask : option BuildTask) : W unit :=
  match buildtask with
  | None => raise UnmappedInstanceError
  | Some t =>
      fun w => (inr tt,
                mkWorld (committed w)
                        (mkDatabase (builds (pending w))
                                    (filter (fun t' => negb (bt_id t' =? bt_id t))
                                            (buildtasks (pending w))))
                        (events w))
  end.

Definition with_buildstate (s : string) (b : Build) : Build :=
  mkBuild (b_id b) s (b_buildtype b) (b_is_ci b) (b_parent b).

(** Modelled from the spec: the methods [set_needs_build], [set_building]
    and [set_failed] are of molior.model.build, which is not among the
    sources; section 4.3 names the states they lead to, "needs_build",
    "building" and "failed". *)
Definition set_buildstate (s : string) (build : Build) : W unit :=
  fun w => (inr tt,
            mkWorld (committed w)
                    (mkDatabase (map (fun b => if b_id b =? b_id build
                                               then with_buildstate s b else b)
                                     (builds (pending w)))
                                (buildtasks (pending w)))
                    (events w)).

Definition set_needs_build : Build -> W unit := set_buildstate "needs_build".
Definition set_building : Build -> W unit := set_buildstate "building".
Definition set_failed : Build -> W unit := set_buildstate "failed".

(** [build.parent.parent.id] *)
Definition grandparent_id (build : Build) : W Z :=
  fun w => match b_parent build with
           | None => (inl AttributeError, w)
           | Some p =>
               match find_build (pending w) p with
               | None => (inl AttributeError, w)
               | Some parent =>
                   match b_parent parent with
                   | None => (inl AttributeError, w)
                   | Some g => (inr g, w)
                   end
               end
           end.

(** The body of the loops of [startup_scheduling]. *)
Definition drop_task_and (set_state : Build -> W unit) (build : Build) : W unit :=
  buildtask <-- query_buildtask build ;;
  session_delete buildtask ;;;
  set_state build.

Definition startup_scheduling : W unit :=
  with_session (
    scheduled_builds <-- query_builds "scheduled" "deb" ;;
    (match scheduled_builds with
     | [] => ret tt
     | _ :: _ => for_W scheduled_builds (drop_task_and set_needs_build) ;;; session_commit
     end) ;;;
    building_builds <-- query_builds "building" "deb" ;;
    (match building_builds with
     | [] => ret tt
     | _ :: _ => for_W building_builds (drop_task_and set_failed) ;;; session_commit
     end)).

Definition _schedule (job : list string) : W unit := emit (BackendBuild job).

Definition _started (build_id : Z) : W unit :=
  build <-- query_build build_id ;;
  match build with
  | None => emit (LoggerError ("build_started: no build found for " +++ string_of_Z build_id))
  | Some build =>
      g <-- grandparent_id build ;;
      emit (WriteLog g ("I: started build " +++ string_of_Z build_id +++ newline)) ;;;
      set_building build ;;;
      session_commit
  end.

Definition _succeeded (build_id : Z) : W unit := emit (AptlyPutPublish build_id).

Definition _failed (build_id : Z) : W unit :=
  build <-- query_build build_id ;;
  match build with
  | None => emit (LoggerError ("build_failed: no build found for " +++ string_of_Z build_id))
  | Some build =>
      g <-- grandparent_id build ;;
      emit (WriteLog g ("E: build " +++ string_of_Z build_id +++ " failed" +++ newline)) ;;;
      set_failed build ;;;
      session_commit ;;;
      buildtask <-- query_buildtask build ;;
      session_delete buildtask ;;;
      session_commit ;;;
      if negb (b_is_ci build) then emit (SendMailNotification (b_id build)) else ret tt
  end.

(** A message of [backend_queue]: what [task.get] returns for each key. *)
Record message : Type := mkMessage {
  m_schedule : list string;
  m_started : option Z;
  m_succeeded : option Z;
  m_failed : option Z;
  m_node_registered : bool
}.

Section Run.

(** [str(task)], for the log *)
Variable str : message -> string.

(** [if build_id: await handler(session, build_id)], with [handled] *)
Definition when_id (build_id : option Z) (handler : Z -> W unit) (handled : bool) : W bool :=
  if falsy build_id then ret handled
  else handler (the_int build_id) ;;; ret true.

(** The body of the [try] for a task that is not [None]. *)
Definition handle (task : message) : W unit :=
  handled <-- with_session (
    handled <-- (match m_schedule task with
                 | [] => ret false
                 | job => _schedule job ;;; ret true
                 end) ;;
    handled <-- when_id (m_started task) _started handled ;;
    handled <-- when_id (m_succeeded task) _succeeded handled ;;
    handled <-- when_id (m_failed task) _failed handled ;;
    if m_node_registered task then emit TaskPutSchedule ;;; ret true else ret handled) ;;
  if negb handled
  then emit (LoggerError ("backend: got unknown task " +++ str task))
  else ret tt.

(** [except Exception as exc: logger.exception(exc)] *)
Definition logged (body : W unit) : W unit :=
  fun w => match body w with
           | (inr tt, w') => (inr tt, w')
           | (inl e, w') => emit (LoggerException e) w'
           end.

(** The [while True] loop on the messages that [backend_queue] has delivered
    so far; [None] ends it ([true]), and when the messages are used up the
    loop waits for the next ([false]). *)
Fixpoint worker_loop (queue : list (option message)) : W bool :=
  match queue with
  | [] => ret false
  | None :: _ => emit (LoggerInfo "backend:: got emtpy task, aborting...") ;;; ret true
  | Some task :: rest => logged (handle task) ;;; worker_loop rest
  end.

Definition run (queue : list (option message)) : W unit :=
  startup_scheduling ;;;
  stopped <-- worker_loop queue ;;
  if stopped then emit (LoggerInfo "terminating backend task") else ret tt.

End Run.

(** A package build that is on its way. *)
Definition in_flight (b : Build) : bool :=
  (b_buildtype b =? "deb")%string
  && ((b_buildstate b =? "scheduled")%string || (b_buildstate b =? "building")%string).

(** What startup recovery is to make of a build. *)
Definition recovered (b : Build) : Build :=
  if ((b_buildstate b =? "scheduled") && (b_buildtype b =? "deb"))%string
  then with_buildstate "needs_build" b
  else if ((b_buildstate b =? "building") && (b_buildtype b =? "deb"))%string
  then with_buildstate "failed" b
  else b.

(** [t] is the BuildTask the query finds for [build]. *)
Definition is_first_task (d : Database) (build : Z) (t : BuildTask) : bool :=
  match first_buildtask d build with
  | Some t' => bt_id t' =? bt_id t
  | None => false
  end.

(** The database after a loop of [startup_scheduling] over [bs] that leads
    to state [s]. *)
Definition after_loop (s : string) (bs : list Build) (d : Database) : Database :=
  mkDatabase
    (map (fun b => if existsb (fun b' => b_id b' =? b_id b) bs
                   then with_buildstate s b else b) (builds d))
    (filter (fun t => negb (existsb (fun b' => is_first_task d (b_id b') t) bs))
            (buildtasks d)).

(** ** Example stores *)

Definition version (i : Z) (n : string) (deps : list Z) (locked : bool) : ProjectVersion :=
  mkProjectVersion i n 1 None ["amd64"%string] deps locked false false.

(** A diamond: 1 depends on 2 and 3, which both depend on 4. *)
Definition diamond : Store :=
  mkStore [mkProject 1 "P" "" false]
          [version 1 "1.0" [2; 3] false; version 2 "1.1" [4] true;
           version 3 "1.2" [4] true; version 4 "1.3" [] true].

(** Two projectversions that depend on each other. *)
Definition two_cycle : Store :=
  mkStore [mkProject 1 "P" "" false]
          [version 1 "1.0" [2] false; version 2 "1.1" [1] false].

(** Two projectversions without dependencies, the second locked or not. *)
Definition pair (second_locked : bool) : Store :=
  mkStore [mkProject 1 "P" "" false]
          [version 1 "1.0" [] false; version 2 "1.1" [] second_locked].

(** The base mirror stretch/9.6, and project P with 1.0 and 1.1, of which 1.1
    depends on 1.0. *)
Definition mirrored : Store :=
  mkStore [mkProject 1 "P" "" false; mkProject 2 "stretch" "" true]
          [mkProjectVersion 1 "9.6" 2 None ["amd64"] [] true false false;
           mkProjectVersion 2 "1.0" 1 (Some 1) ["amd64"] [] false false false;
           mkProjectVersion 3 "1.1" 1 (Some 1) ["amd64"] [2] false false false].

(** The same with 1.0 marked as deleted. *)
Definition mirrored_deleted : Store := update_pv (update_pv mirrored 3 set_deleted) 2 set_deleted.

(** Modelled from the spec: a reading of the base mirror query for the
    examples, the declaration of [ProjectVersion.parent] not being among the
    sources.  Section 8 has the base mirror "stretch/9.6" as the version
    "named 9.6 owned by project stretch": the first projectversion of that
    name whose owning project has that name. *)
Definition owned_by (st : Store) (basemirror_name basemirror_version : string)
  : exn + option ProjectVersion :=
  inr (find (fun pv => match find_project st (pv_project pv) with
                       | Some parent => (p_name parent =? basemirror_name)%string
                       | None => false
                       end
                       && (pv_name pv =? basemirror_version)%string)
            (projectversions st)).

(** Projects P and Q, and a version 1.0.0 of Q. *)
Definition two_projects : Store :=
  mkStore [mkProject 1 "P" "" false; mkProject 2 "stretch" "" true; mkProject 3 "Q" "" false]
          [mkProjectVersion 1 "9.6" 2 None ["amd64"] [] true false false;
           mkProjectVersion 2 "1.0.0" 3 (Some 1) ["amd64"] [] false false false].

(** The database a crash leaves: build 1 scheduled and build 2 building with
    their BuildTasks, build 3 done, build 4 scheduled but no package build,
    and the source build 5 and the top build 6 they belong to. *)
Definition crashed : Database :=
  mkDatabase [mkBuild 1 "scheduled" "deb" false (Some 5);
              mkBuild 2 "building" "deb" true (Some 5);
              mkBuild 3 "successful" "deb" false (Some 5);
              mkBuild 4 "scheduled" "chroot" false None;
              mkBuild 5 "successful" "source" false (Some 6);
              mkBuild 6 "successful" "build" false None]
             [mkBuildTask 10 1; mkBuildTask 11 2; mkBuildTask 12 4].

(** The same without the BuildTask of build 2. *)
Definition orphaned : Database :=
  mkDatabase (builds crashed) [mkBuildTask 10 1; mkBuildTask 12 4].

(** A dict reduced to its ["id"] entry. *)
Definition id_dict (st : Store) (pv : ProjectVersion) : exn + Z := inr (pv_id pv).

(** * Properties *)

Lemma find_pv_id st x pv : find_pv st x = Some pv -> pv_id pv = x.
Proof.
  unfold find_pv. intros H. apply find_some in H. destruct H as [_ H].
  now apply Z.eqb_eq in H.
Qed.

Lemma find_pv_In st x pv : find_pv st x = Some pv -> In x (map pv_id (projectversions st)).
Proof.
  unfold find_pv. intros H. apply find_some in H. destruct H as [Hin H].
  apply Z.eqb_eq in H. subst x. now apply in_map.
Qed.

Lemma bind_Ok {A B} (m : outcome A) (k : A -> outcome B) b :
  bind m k = Ok b -> exists a, m = Ok a /\ k a = Ok b.
Proof. destruct m; simpl; intros H; try discriminate. eauto. Qed.

(** A loop invariant that every iteration keeps holds at the end. *)
Lemma for_each_invariant {A S} (body : S -> A -> outcome S) (I : S -> Prop) l :
  (forall s a s', In a l -> I s -> body s a = Ok s' -> I s') ->
  forall s s', I s -> for_each body l s = Ok s' -> I s'.
Proof.
  induction l as [|a l IH]; simpl; intros Hbody s s' Hs H.
  - now inversion H; subst.
  - apply bind_Ok in H. destruct H as (s1 & H1 & H2).
    eapply IH; [ | | exact H2]; eauto.
Qed.

Section GraphFacts.

Variable st : Store.

Lemma edge_node_l x y : edge st x y -> node st x.
Proof. intros (pv & H & _). unfold node. congruence. Qed.

Lemma edge_node_r x y : edge st x y -> node st y.
Proof. now intros (pv & _ & _ & H). Qed.

Lemma fits_S fuel : forall x, fits st fuel x = true -> fits st (S fuel) x = true.
Proof.
  induction fuel as [|n IH]; intros x H; [discriminate|].
  simpl in H. change (fits st (S (S n)) x)
    with (match find_pv st x with
          | None => true
          | Some pv => forallb (fits st (S n)) (pv_dependencies pv)
          end).
  destruct (find_pv st x) as [pv|]; [|reflexivity].
  rewrite forallb_forall in *. intros d Hd. apply IH. now apply H.
Qed.

Lemma fits_le n m x : (n <= m)%nat -> fits st n x = true -> fits st m x = true.
Proof. induction 1; auto using fits_S. Qed.

Lemma fits_edge fuel x y : fits st (S fuel) x = true -> edge st x y -> fits st fuel y = true.
Proof.
  simpl. intros H (pv & Hx & Hy & _). rewrite Hx in H.
  rewrite forallb_forall in H. now apply H.
Qed.

Lemma fits_reach fuel x y :
  clos_refl_trans_1n Z (edge st) x y -> fits st fuel x = true -> fits st fuel y = true.
Proof.
  induction 1 as [|x z y Hxz _ IH]; intros Hf; [assumption|].
  apply IH. destruct fuel as [|n]; [discriminate|].
  apply fits_S. eapply fits_edge; eauto.
Qed.

(** A walk that passes through a cycle fits into no depth. *)
Lemma fits_no_cycle fuel : forall x, depends_on st x x -> fits st fuel x = false.
Proof.
  induction fuel as [|n IH]; intros x Hc; [reflexivity|].
  destruct (fits st (S n) x) eqn:Hf; [|reflexivity].
  apply clos_trans_t1n in Hc.
  assert (exists z, edge st x z /\ clos_refl_trans_1n Z (edge st) z x) as (z & Hxz & Hzx).
  { inversion Hc; subst.
    - eexists; split; eauto. constructor.
    - eexists; split; eauto. apply clos_rt_rt1n. apply clos_t1n_trans in H0.
      now apply clos_t_clos_rt. }
  pose proof (fits_edge _ _ _ Hf Hxz) as Hz.
  pose proof (fits_reach _ _ _ Hzx Hz) as Hx.
  rewrite IH in Hx; [discriminate|]. now apply clos_t1n_trans.
Qed.

Lemma fits_acyclic fuel x : fits st fuel x = true -> acyclic_from st x.
Proof.
  intros Hf y Hy Hc. apply clos_rt_rt1n in Hy.
  pose proof (fits_reach _ _ _ Hy Hf) as H.
  now rewrite fits_no_cycle in H.
Qed.

Lemma forallb_false {A} (f : A -> bool) l :
  forallb f l = false -> exists a, In a l /\ f a = false.
Proof.
  induction l as [|a l IH]; simpl; [discriminate|].
  destruct (f a) eqn:Ha; simpl; intros H.
  - destruct (IH H) as (b & Hb & Hfb). eauto.
  - eauto.
Qed.

Lemma chain_node x l : chain st x l -> node st x.
Proof. destruct l; simpl; [auto | intros [H _]; eapply edge_node_l; eauto]. Qed.

Lemma chain_nodes l : forall x, chain st x l -> Forall (node st) (x :: l).
Proof.
  induction l as [|y l IH]; intros x H.
  - repeat constructor. exact H.
  - constructor; [eapply chain_node; eauto | apply IH, H].
Qed.

Lemma chain_depends_on l : forall x y, chain st x l -> In y l -> depends_on st x y.
Proof.
  induction l as [|z l IH]; intros x y H Hy; [contradiction|].
  destruct H as [Hxz Hz]. destruct Hy as [<-|Hy].
  - now constructor.
  - eapply t_trans; [constructor; eassumption | eapply IH; eauto].
Qed.

(** A chain that visits a projectversion twice runs into a cycle. *)
Lemma chain_repeat l : forall x, chain st x l -> ~ NoDup (x :: l) ->
  exists y, clos_refl_trans Z (edge st) x y /\ depends_on st y y.
Proof.
  induction l as [|z l IH]; intros x H Hnd.
  - exfalso. apply Hnd. repeat constructor. simpl. tauto.
  - destruct (in_dec Z.eq_dec x (z :: l)) as [Hin|Hnin].
    + exists x. split; [apply rt_refl | eapply chain_depends_on; eauto].
    + destruct H as [Hxz Hz]. destruct (IH z Hz) as (y & Hzy & Hyy).
      * intros Hl. apply Hnd. now constructor.
      * exists y. split; [|assumption].
        eapply rt_trans; [apply rt_step; eassumption | assumption].
Qed.

(** A walk that does not fit into [S n] nested calls follows a chain of
    [n] dependency edges. *)
Lemma fits_false_chain n : forall x, fits st (S n) x = false ->
  exists l, List.length l = n /\ chain st x l.
Proof.
  induction n as [|n IH]; intros x H.
  - exists []. split; [reflexivity|]. simpl in *. unfold node.
    destruct (find_pv st x); [discriminate | discriminate].
  - change (fits st (S (S n)) x)
      with (match find_pv st x with
            | None => true
            | Some pv => forallb (fits st (S n)) (pv_dependencies pv)
            end) in H.
    destruct (find_pv st x) as [pv|] eqn:Hx; [|discriminate].
    apply forallb_false in H. destruct H as (d & Hd & Hfd).
    destruct (IH d Hfd) as (l & Hlen & Hl).
    exists (d :: l). split; [simpl; congruence|].
    split; [|assumption]. exists pv. repeat split; auto.
    eapply chain_node; eauto.
Qed.

(** Without a reachable cycle the walk needs at most one call per
    projectversion of the store, nested. *)
Lemma acyclic_fits x :
  acyclic_from st x -> fits st (S (List.length (projectversions st))) x = true.
Proof.
  intros Hac. destruct (fits st (S (List.length (projectversions st))) x) eqn:Hf; [reflexivity|].
  exfalso. apply fits_false_chain in Hf. destruct Hf as (l & Hlen & Hl).
  destruct (chain_repeat l x Hl) as (y & Hxy & Hyy).
  - intros Hnd.
    assert (Hincl : incl (x :: l) (map pv_id (projectversions st))).
    { intros a Ha. pose proof (chain_nodes _ _ Hl) as Hn.
      rewrite Forall_forall in Hn. specialize (Hn a Ha). unfold node in Hn.
      destruct (find_pv st a) as [pv|] eqn:Hpv; [|congruence].
      eapply find_pv_In; eauto. }
    pose proof (NoDup_incl_length Hnd Hincl) as Hle.
    rewrite length_map in Hle. simpl in Hle. lia.
  - exact (Hac y Hxy Hyy).
Qed.

End GraphFacts.

Section WalkFacts.

Variable Dict : Type.
Variable dict_eqb : Dict -> Dict -> bool.
Variable dict_id : Dict -> Z.
Variable projectversion_to_dict : Store -> ProjectVersion -> exn + Dict.

Hypothesis dict_eqb_eq : forall d d', dict_eqb d d' = true <-> d = d'.
Hypothesis dict_records_id :
  forall st pv d, projectversion_to_dict st pv = inr d -> dict_id d = pv_id pv.

Variable st : Store.
Variable root : Z.
Variable to_dict : bool.

Abbreviation walk := (get_deps Dict dict_eqb projectversion_to_dict st root to_dict).
Abbreviation ok := (entry_ok Dict dict_id projectversion_to_dict st to_dict).
Abbreviation keys := (ids Dict dict_id).
Abbreviation grows := (grows_by Dict dict_id projectversion_to_dict st to_dict).
Abbreviation eid := (entry_id Dict dict_id).
Abbreviation isin := (py_in Dict dict_eqb).

Lemma entry_ok_inj e e' : ok e -> ok e' -> eid e = eid e' -> e = e'.
Proof.
  unfold entry_ok. destruct to_dict.
  - intros (pv & d & Hpv & Hd & ->) (pv' & d' & Hpv' & Hd' & ->) Heq.
    rewrite Heq in Hpv. congruence.
  - intros -> -> Heq. simpl in *. congruence.
Qed.

Lemma entry_eqb_refl e : entry_eqb Dict dict_eqb e e = true.
Proof. destruct e; simpl; [apply Z.eqb_refl | now apply dict_eqb_eq]. Qed.

Lemma entry_eqb_true e e' : entry_eqb Dict dict_eqb e e' = true -> e = e'.
Proof.
  destruct e, e'; simpl; try discriminate.
  - intros H. apply Z.eqb_eq in H. congruence.
  - intros H. apply dict_eqb_eq in H. congruence.
Qed.

Lemma py_in_ids e deps :
  Forall ok deps -> ok e -> isin e deps = true <-> In (eid e) (keys deps).
Proof.
  intros Hdeps He. unfold py_in, ids. rewrite existsb_exists, in_map_iff.
  split.
  - intros (e' & Hin & Heq). apply entry_eqb_true in Heq. subst e'. eauto.
  - intros (e' & Heq & Hin). exists e'. split; [assumption|].
    rewrite Forall_forall in Hdeps.
    rewrite (entry_ok_inj e e'); auto using entry_eqb_refl.
Qed.

Lemma py_in_obj_dict x deps : to_dict = true -> Forall ok deps -> isin (Obj x) deps = false.
Proof.
  intros Ht Hdeps. unfold py_in. apply not_true_is_false. rewrite existsb_exists.
  intros (e' & Hin & Heq). rewrite Forall_forall in Hdeps. apply Hdeps in Hin.
  unfold entry_ok in Hin. rewrite Ht in Hin. destruct Hin as (pv & d & _ & _ & ->).
  discriminate.
Qed.

Lemma grows_by_refl (R : Z -> Prop) l :
  Forall ok l -> (forall y, R y -> In y (keys l)) -> grows R l l.
Proof. intros Hl HR. repeat split; auto. intros [H|H]; auto. Qed.

Lemma grows_by_trans (R1 R2 R : Z -> Prop) l1 l2 l3 :
  grows R1 l1 l2 -> grows R2 l2 l3 -> (forall y, R y <-> R1 y \/ R2 y) ->
  grows R l1 l3.
Proof.
  intros (_ & Hn1 & Hm1) (Hok & Hn2 & Hm2) HR. repeat split; auto.
  - rewrite Hm2, Hm1, HR. tauto.
  - rewrite Hm2, Hm1, HR. tauto.
Qed.

Lemma grows_by_snoc e l :
  Forall ok l -> ok e -> ~ In (eid e) (keys l) -> grows (fun y => y = eid e) l (l ++ [e]).
Proof.
  intros Hl He Hnin. unfold grows_by, ids.
  rewrite map_app. simpl. repeat split.
  - apply Forall_app. auto.
  - intros Hnd. apply NoDup_app; [assumption | repeat constructor; simpl; tauto | ].
    intros a Ha [<-|[]]. now apply Hnin.
  - rewrite in_app_iff. simpl. intuition.
  - rewrite in_app_iff. simpl. intuition.
Qed.

Lemma grows_by_ext (R R' : Z -> Prop) l l' :
  grows R l l' -> (forall y, R y <-> R' y) -> grows R' l l'.
Proof.
  intros (Hok & Hn & Hm) HR. repeat split; auto; rewrite Hm, HR; tauto.
Qed.

Lemma reach_unfold x pv : find_pv st x = Some pv ->
  forall y, reach st x y <-> y = x \/ exists d, In d (pv_dependencies pv) /\ reach st d y.
Proof.
  intros Hx y. unfold reach. split.
  - intros [_ H]. destruct H as [|z y Hxz Hzy]; [now left|right].
    exists z. destruct Hxz as (pv' & Hx' & Hz & Hnz).
    rewrite Hx in Hx'. injection Hx' as <-. auto.
  - intros [->|(d & Hd & Hnd & Hdy)].
    + split; [unfold node; congruence | constructor].
    + split; [unfold node; congruence|].
      econstructor; [|exact Hdy]. exists pv. auto.
Qed.

Lemma reach_not_node x y : find_pv st x = None -> ~ reach st x y.
Proof. intros Hx [Hn _]. now apply Hn. Qed.

(** The [if] that opens [get_deps]: [projectv] is appended unless it is
    the starting projectversion or already in the list. *)
Lemma visit_grows deps x pv deps1 :
  Forall ok deps -> find_pv st x = Some pv ->
  (if negb (isin (Obj x) deps) && negb (root =? pv_id pv)
   then dep <- (if to_dict
                then d <- call (projectversion_to_dict st pv) ;; Ok (AsDict d)
                else Ok (Obj x)) ;;
        Ok (if negb (isin dep deps) then deps ++ [dep] else deps)
   else Ok deps) = Ok deps1 ->
  grows (fun y => y = x /\ y <> root) deps deps1.
Proof.
  intros Hdeps Hx. rewrite (find_pv_id _ _ _ Hx).
  assert (Hsame : forall e, ok e -> eid e = x -> In x (keys deps) -> grows (fun y => y = x /\ y <> root) deps deps).
  { intros e _ _ Hin. apply grows_by_refl; [assumption|]. now intros y [-> _]. }
  assert (Hadd : forall e, ok e -> eid e = x -> root <> x ->
                 (if negb (isin e deps) then deps ++ [e] else deps) = deps1 ->
                 grows (fun y => y = x /\ y <> root) deps deps1).
  { intros e He Hid Hroot <-. destruct (isin e deps) eqn:Hin; simpl.
    - apply (Hsame e); auto. rewrite <- Hid. now apply py_in_ids.
    - eapply grows_by_ext; [apply grows_by_snoc; eauto|].
      + rewrite <- (py_in_ids e deps) by assumption. congruence.
      + rewrite Hid. intuition congruence. }
  intros H. destruct (Z.eqb_spec root x) as [Heq|Hne].
  - rewrite andb_false_r in H. injection H as <-. apply grows_by_refl; [assumption|].
    intros y [-> Hy]. congruence.
  - rewrite andb_true_r in H. destruct (sumbool_of_bool to_dict) as [Ht|Ht]; rewrite Ht in H.
    + rewrite py_in_obj_dict in H by assumption. simpl in H.
      destruct (projectversion_to_dict st pv) as [e|d] eqn:Hd; simpl in H; try discriminate.
      injection H as H. apply (Hadd (AsDict d)); auto.
      * unfold entry_ok. rewrite Ht. exists pv, d. simpl.
        rewrite (dict_records_id _ _ _ Hd), (find_pv_id _ _ _ Hx). auto.
      * simpl. rewrite (dict_records_id _ _ _ Hd). eapply find_pv_id; eauto.
    + assert (Hobj : ok (Obj x)) by (unfold entry_ok; rewrite Ht; reflexivity).
      destruct (isin (Obj x) deps) eqn:Hin; simpl in H.
      * injection H as <-. apply (Hsame (Obj x)); auto. now apply (py_in_ids (Obj x)).
      * rewrite Hin in H. injection H as H. apply (Hadd (Obj x)); auto. now rewrite Hin.
Qed.

(** The [for] loop that closes [get_deps]. *)
Lemma loop_grows (body : list (entry Dict) -> Z -> outcome (list (entry Dict))) l :
  (forall deps d L, Forall ok deps -> body deps d = Ok L ->
                    grows (fun y => reach st d y /\ y <> root) deps L) ->
  forall deps L, Forall ok deps -> for_each body l deps = Ok L ->
    grows (fun y => exists d, In d l /\ reach st d y /\ y <> root) deps L.
Proof.
  intros Hbody. induction l as [|d l IH]; simpl; intros deps L Hdeps H.
  - injection H as <-. apply grows_by_refl; [assumption|]. now intros y (d & [] & _).
  - apply bind_Ok in H. destruct H as (deps1 & H1 & H2).
    apply Hbody in H1; [|assumption].
    assert (Hok1 : Forall ok deps1) by apply H1.
    eapply grows_by_trans; [exact H1 | exact (IH _ _ Hok1 H2) | ].
    intros y. split.
    + intros (d' & [<-|Hd'] & Hr); [left; assumption | right; eauto].
    + intros [Hr|(d' & Hd' & Hr)]; eauto.
Qed.

(** A call of [get_deps] that returns has appended what [projectv] reaches,
    the starting projectversion apart, and nothing twice. *)
Lemma get_deps_grows fuel : forall deps x L,
  Forall ok deps -> walk fuel deps x = Ok L ->
  grows (fun y => reach st x y /\ y <> root) deps L.
Proof.
  induction fuel as [|n IH]; intros deps x L Hdeps H; [discriminate|].
  simpl in H. destruct (find_pv st x) as [pv|] eqn:Hx.
  - apply bind_Ok in H. destruct H as (deps1 & H1 & H2).
    apply visit_grows in H1; try assumption.
    assert (Hok1 : Forall ok deps1) by apply H1.
    eapply grows_by_trans; [exact H1 | exact (loop_grows _ _ IH _ _ Hok1 H2) | ].
    intros y. rewrite (reach_unfold _ _ Hx). split.
    + intros [[-> | (d & Hd & Hr)] Hy]; [left; auto | right; eauto].
    + intros [[-> Hy] | (d & Hd & Hr & Hy)]; split; eauto.
  - injection H as <-. apply grows_by_refl; [assumption|].
    intros y [Hr _]. now apply reach_not_node in Hr.
Qed.

(** *** When the walk returns *)

Lemma loop_fits (body : list (entry Dict) -> Z -> outcome (list (entry Dict))) n l :
  (forall deps d L, body deps d = Ok L -> fits st n d = true) ->
  forall deps L, for_each body l deps = Ok L -> forallb (fits st n) l = true.
Proof.
  intros Hbody. induction l as [|d l IH]; simpl; intros deps L H; [reflexivity|].
  apply bind_Ok in H. destruct H as (deps1 & H1 & H2).
  rewrite (Hbody _ _ _ H1). simpl. eauto.
Qed.

Lemma get_deps_Ok_fits fuel : forall deps x L,
  walk fuel deps x = Ok L -> fits st fuel x = true.
Proof.
  induction fuel as [|n IH]; intros deps x L H; [discriminate|].
  simpl in *. destruct (find_pv st x) as [pv|]; [|reflexivity].
  apply bind_Ok in H. destruct H as (deps1 & _ & H2).
  eapply loop_fits; eauto.
Qed.

Lemma loop_not_Diverges (body : list (entry Dict) -> Z -> outcome (list (entry Dict))) l :
  (forall deps d, In d l -> body deps d <> Diverges) ->
  forall deps, for_each body l deps <> Diverges.
Proof.
  induction l as [|d l IH]; simpl; intros Hbody deps; [discriminate|].
  destruct (body deps d) as [deps1| |] eqn:Hd; simpl.
  - apply IH. auto.
  - discriminate.
  - exfalso. eapply Hbody; eauto.
Qed.

(** With enough depth the walk comes to an end, by returning or by an
    exception that [projectversion_to_dict] raises. *)
Lemma fits_get_deps_ends fuel : forall deps x,
  fits st fuel x = true -> walk fuel deps x <> Diverges.
Proof.
  induction fuel as [|n IH]; intros deps x Hf; [discriminate|].
  simpl in *. destruct (find_pv st x) as [pv|]; [|discriminate].
  rewrite forallb_forall in Hf.
  match goal with |- bind ?m _ <> _ => destruct m as [deps1| |] eqn:Hv end; simpl.
  - apply loop_not_Diverges. auto.
  - discriminate.
  - exfalso. revert Hv. destruct (negb _ && negb _); [|discriminate].
    destruct (sumbool_of_bool to_dict) as [Ht|Ht]; rewrite Ht; simpl; [|now intros H].
    destruct (projectversion_to_dict st pv); simpl; now intros H.
Qed.

Lemma loop_outcome (body : list (entry Dict) -> Z -> outcome (list (entry Dict))) n l :
  (forall deps d, if fits st n d then exists L, body deps d = Ok L
                  else body deps d = Diverges) ->
  forall deps, if forallb (fits st n) l then exists L, for_each body l deps = Ok L
               else for_each body l deps = Diverges.
Proof.
  intros Hbody. induction l as [|d l IH]; simpl; intros deps; [eauto|].
  specialize (Hbody deps d). destruct (fits st n d); simpl.
  - destruct Hbody as (deps1 & ->). simpl. apply IH.
  - now rewrite Hbody.
Qed.

(** Returning the projectversions themselves the walk raises nothing: it
    returns when the depth suffices and exhausts it otherwise. *)
Lemma get_deps_obj_outcome fuel : to_dict = false -> forall deps x,
  if fits st fuel x then exists L, walk fuel deps x = Ok L
  else walk fuel deps x = Diverges.
Proof.
  intros Ht. induction fuel as [|n IH]; intros deps x; [reflexivity|].
  simpl. destruct (find_pv st x) as [pv|]; [|eauto].
  match goal with |- context [bind ?m _] =>
    assert (exists deps1, m = Ok deps1) as (deps1 & ->)
      by (rewrite Ht; destruct (negb _ && negb _); simpl; eauto) end.
  simpl. apply loop_outcome. exact IH.
Qed.

End WalkFacts.

Section ClosureFacts.

Variable A : Type.
Variable R : relation A.

Lemma step_rt1n_trans z y : clos_refl_trans_1n A R z y -> forall a, R a z -> clos_trans A R a y.
Proof.
  induction 1 as [|z w y Hzw _ IH]; intros a Ha.
  - now constructor.
  - eapply t_trans; [constructor; eassumption | now apply IH].
Qed.

Lemma rt1n_cases x y : clos_refl_trans_1n A R x y -> x = y \/ clos_trans A R x y.
Proof.
  intros H. destruct H as [|z y Hxz Hzy]; [now left|right].
  eapply step_rt1n_trans; eauto.
Qed.

Lemma trans_rt1n x y : clos_trans A R x y -> clos_refl_trans_1n A R x y.
Proof. intros H. apply clos_rt_rt1n. now apply clos_t_clos_rt. Qed.

Lemma trans_first_step x y :
  clos_trans A R x y -> exists z, R x z /\ clos_refl_trans_1n A R z y.
Proof.
  intros H. apply clos_trans_t1n in H. destruct H as [y Hxy|z y Hxz Hzy].
  - exists y. split; [assumption | constructor].
  - exists z. split; [assumption|]. apply trans_rt1n. now apply clos_t1n_trans.
Qed.

End ClosureFacts.

Lemma depends_on_node st x y : depends_on st x y -> node st x.
Proof.
  intros H. apply clos_trans_t1n in H. destruct H as [y H|y z H _]; eapply edge_node_l; eauto.
Qed.

(** ** The list the walk returns *)

(** What a walk that returns has collected: the projectversions the starting
    one depends on, each of them once; and no cycle was in its way. *)
Lemma walk_returns
  (Dict : Type) (dict_eqb : Dict -> Dict -> bool) (dict_id : Dict -> Z)
  (projectversion_to_dict : Store -> ProjectVersion -> exn + Dict)
  (dict_eqb_eq : forall d d', dict_eqb d d' = true <-> d = d')
  (dict_records_id :
     forall st pv d, projectversion_to_dict st pv = inr d -> dict_id d = pv_id pv)
  (st : Store) (pv : Z) (to_dict : bool) (fuel : nat) (L : list (entry Dict)) :
  get_projectversion_deps_manually Dict dict_eqb projectversion_to_dict st pv to_dict fuel = Ok L ->
  NoDup (ids Dict dict_id L) /\
  (forall y, In y (ids Dict dict_id L) <-> depends_on st pv y) /\
  acyclic_from st pv.
Proof.
  unfold get_projectversion_deps_manually. intros H.
  pose proof (get_deps_Ok_fits _ _ _ _ _ _ _ _ _ _ H) as Hfits.
  apply fits_acyclic in Hfits.
  apply (get_deps_grows Dict dict_eqb dict_id projectversion_to_dict dict_eqb_eq dict_records_id)
    in H; [|constructor].
  destruct H as (_ & Hnd & Hmem). specialize (Hnd (NoDup_nil _)).
  repeat split; try assumption.
  - rewrite Hmem. simpl.
    intros [[]|[[_ Hr] Hy]]. apply rt1n_cases in Hr. destruct Hr; [congruence | assumption].
  - intros Hd. apply Hmem. right. split.
    + split; [eapply depends_on_node; eauto | now apply trans_rt1n].
    + intros ->. apply (Hfits pv); [apply rt_refl | assumption].
Qed.

(** C4.  Whenever [get_projectversion_deps_manually] returns a list, with
    [to_dict] or without, the starting projectversion is not in it, every
    projectversion that the starting one reaches along dependency edges
    occurs in it exactly once, however many paths lead there, and it holds
    nothing else. *)
Theorem get_projectversion_deps_manually_once
  (Dict : Type) (dict_eqb : Dict -> Dict -> bool) (dict_id : Dict -> Z)
  (projectversion_to_dict : Store -> ProjectVersion -> exn + Dict)
  (dict_eqb_eq : forall d d', dict_eqb d d' = true <-> d = d')
  (dict_records_id :
     forall st pv d, projectversion_to_dict st pv = inr d -> dict_id d = pv_id pv)
  (st : Store) (pv : Z) (to_dict : bool) (fuel : nat) (L : list (entry Dict)) :
  get_projectversion_deps_manually Dict dict_eqb projectversion_to_dict st pv to_dict fuel = Ok L ->
  ~ In pv (ids Dict dict_id L) /\
  (forall y, depends_on st pv y -> count_occ Z.eq_dec (ids Dict dict_id L) y = 1%nat) /\
  (forall y, In y (ids Dict dict_id L) -> depends_on st pv y).
Proof.
  intros H.
  destruct (walk_returns Dict dict_eqb dict_id projectversion_to_dict
              dict_eqb_eq dict_records_id st pv to_dict fuel L H) as (Hnd & Hin & Hac).
  repeat split.
  - rewrite Hin. apply Hac, rt_refl.
  - intros y Hy. apply NoDup_count_occ'; [assumption | now apply Hin].
  - intros y. apply Hin.
Qed.

(** On the diamond the walk from 1 returns 2, 4 and 3, the shared
    dependency 4 once. *)
Example diamond_walk :
  get_projectversion_deps_manually Z Z.eqb id_dict diamond 1 false 4
  = Ok [Obj 2; Obj 4; Obj 3].
Proof. reflexivity. Qed.

Example diamond_walk_dicts :
  get_projectversion_deps_manually Z Z.eqb id_dict diamond 1 true 4
  = Ok [AsDict 2; AsDict 4; AsDict 3].
Proof. reflexivity. Qed.

Lemma get_projectversion_deps_manually_once_witness :
  ~ In 1 [2; 4; 3] /\
  (forall y, depends_on diamond 1 y -> count_occ Z.eq_dec [2; 4; 3] y = 1%nat) /\
  (forall y, In y [2; 4; 3] -> depends_on diamond 1 y).
Proof.
  exact (get_projectversion_deps_manually_once Z Z.eqb (fun d => d) id_dict
           Z.eqb_eq (fun st pv d (H : id_dict st pv = inr d) => eq_sym (f_equal (fun r => match r with inr a => a | inl _ => d end) H))
           diamond 1 false 4 [Obj 2; Obj 4; Obj 3] eq_refl).
Defined.

(** ** Termination of the walk *)

(** Once a cycle can be reached from the starting projectversion, no depth
    is enough: [get_deps] descends into every dependency again, whether the
    projectversion is in [deps] already or not. *)
Lemma get_deps_cycle_diverges
  (Dict : Type) (dict_eqb : Dict -> Dict -> bool)
  (projectversion_to_dict : Store -> ProjectVersion -> exn + Dict)
  (st : Store) (pv y : Z) (to_dict : bool) (fuel : nat) :
  clos_refl_trans Z (edge st) pv y -> depends_on st y y ->
  (forall L, get_projectversion_deps_manually Dict dict_eqb projectversion_to_dict
               st pv to_dict fuel <> Ok L) /\
  (to_dict = false ->
   get_projectversion_deps_manually Dict dict_eqb projectversion_to_dict
     st pv to_dict fuel = Diverges).
Proof.
  intros Hy Hc. unfold get_projectversion_deps_manually.
  assert (Hf : fits st fuel pv = false).
  { destruct (fits st fuel pv) eqn:Hf; [|reflexivity].
    exfalso. exact (fits_acyclic _ _ _ Hf y Hy Hc). }
  split.
  - intros L H. apply get_deps_Ok_fits in H. congruence.
  - intros Ht.
    pose proof (get_deps_obj_outcome Dict dict_eqb projectversion_to_dict
                  st pv to_dict fuel Ht [] pv) as H.
    now rewrite Hf in H.
Qed.

(** C5, as the code has it.  On a store in which no dependency cycle can be
    reached from the starting projectversion the walk comes to an end within
    one nested call per projectversion of the store, and one more: it does
    not exhaust that depth, and without [to_dict] it returns its list. *)
Theorem get_projectversion_deps_manually_terminates
  (Dict : Type) (dict_eqb : Dict -> Dict -> bool)
  (projectversion_to_dict : Store -> ProjectVersion -> exn + Dict)
  (st : Store) (pv : Z) (to_dict : bool) (fuel : nat) :
  acyclic_from st pv ->
  (List.length (projectversions st) < fuel)%nat ->
  get_projectversion_deps_manually Dict dict_eqb projectversion_to_dict
    st pv to_dict fuel <> Diverges /\
  (to_dict = false ->
   exists L, get_projectversion_deps_manually Dict dict_eqb projectversion_to_dict
               st pv to_dict fuel = Ok L).
Proof.
  intros Hac Hfuel. unfold get_projectversion_deps_manually.
  assert (Hf : fits st fuel pv = true).
  { eapply fits_le; [|apply acyclic_fits; eassumption]. lia. }
  split.
  - now apply fits_get_deps_ends.
  - intros Ht.
    pose proof (get_deps_obj_outcome Dict dict_eqb projectversion_to_dict
                  st pv to_dict fuel Ht [] pv) as H.
    now rewrite Hf in H.
Qed.

Lemma get_projectversion_deps_manually_terminates_witness :
  get_projectversion_deps_manually Z Z.eqb id_dict diamond 1 false 5 <> Diverges /\
  (false = false ->
   exists L, get_projectversion_deps_manually Z Z.eqb id_dict diamond 1 false 5 = Ok L).
Proof.
  apply (get_projectversion_deps_manually_terminates Z Z.eqb id_dict diamond 1 false 5).
  - apply (fits_acyclic diamond 5 1). reflexivity.
  - simpl. lia.
Defined.

Lemma two_cycle_depends_on : depends_on two_cycle 1 1.
Proof.
  apply t_trans with 2; apply t_step.
  - exists (version 1 "1.0" [2] false). repeat split; simpl; auto. discriminate.
  - exists (version 2 "1.1" [1] false). repeat split; simpl; auto. discriminate.
Qed.

(** C5, as stated, fails: on two projectversions that depend on each other
    the walk exhausts every depth. *)
Lemma get_projectversion_deps_manually_cycle :
  ~ exists fuel,
      get_projectversion_deps_manually Z Z.eqb id_dict two_cycle 1 false fuel <> Diverges.
Proof.
  intros (fuel & H). apply H.
  apply (get_deps_cycle_diverges Z Z.eqb id_dict two_cycle 1 1 false fuel);
    [apply rt_refl | exact two_cycle_depends_on | reflexivity].
Qed.

(** ** Rows and their updates *)

Lemma find_map_same_key {A} (p : A -> bool) (g : A -> A) l :
  (forall a, p (g a) = p a) -> find p (map g l) = option_map g (find p l).
Proof.
  intros Hp. induction l as [|a l IH]; simpl; [reflexivity|].
  rewrite Hp. destruct (p a); [reflexivity | exact IH].
Qed.

Lemma find_pv_update_pv st i f j :
  (forall pv, pv_id (f pv) = pv_id pv) ->
  find_pv (update_pv st i f) j
  = option_map (fun pv => if pv_id pv =? i then f pv else pv) (find_pv st j).
Proof.
  intros Hf. unfold find_pv, update_pv. simpl. apply find_map_same_key.
  intros pv. destruct (pv_id pv =? i); [now rewrite Hf | reflexivity].
Qed.

Lemma find_pv_update_pv_same st i f pv :
  (forall pv, pv_id (f pv) = pv_id pv) ->
  find_pv st i = Some pv -> find_pv (update_pv st i f) i = Some (f pv).
Proof.
  intros Hf H. rewrite find_pv_update_pv, H by assumption. simpl.
  now rewrite (find_pv_id _ _ _ H), Z.eqb_refl.
Qed.

Lemma find_pv_update_pv_other st i f j :
  (forall pv, pv_id (f pv) = pv_id pv) -> j <> i ->
  find_pv (update_pv st i f) j = find_pv st j.
Proof.
  intros Hf Hne. rewrite find_pv_update_pv by assumption.
  destruct (find_pv st j) as [pv|] eqn:H; [|reflexivity]. simpl.
  rewrite (find_pv_id _ _ _ H). now destruct (Z.eqb_spec j i).
Qed.

Lemma update_pv_length st i f :
  List.length (projectversions (update_pv st i f)) = List.length (projectversions st).
Proof. unfold update_pv. simpl. apply length_map. Qed.

(** ** The walk that returns the projectversions themselves *)

Lemma deps_objects_Ok fuel st x ds :
  deps_objects fuel st x = Ok ds ->
  NoDup ds /\ (forall y, In y ds <-> depends_on st x y) /\ acyclic_from st x.
Proof.
  unfold deps_objects. intros H. apply bind_Ok in H. destruct H as (L & HL & [= <-]).
  eapply walk_returns; [ | | exact HL].
  - intros [].
  - intros st' pv d. discriminate.
Qed.

Lemma deps_objects_total fuel st x :
  acyclic_from st x -> (List.length (projectversions st) < fuel)%nat ->
  exists ds, deps_objects fuel st x = Ok ds.
Proof.
  intros Hac Hfuel. unfold deps_objects, get_projectversion_deps_manually.
  pose proof (get_deps_obj_outcome Empty_set no_dict_eqb no_dict st x false fuel
                eq_refl [] x) as H.
  rewrite (fits_le st (S (List.length (projectversions st))) fuel x) in H;
    [ | lia | now apply acyclic_fits].
  destruct H as (L & ->). simpl. eauto.
Qed.

(** ** Locking *)




(** With 3 unlocked below it, 1 cannot be locked. *)
Example lock_refused :
  post_projectversion_lock 4
    (mkApp (update_pv diamond 3 (fun pv => version 3 "1.2" [4] false)) []) (Some 1)
  = (Ok (ErrorResponse 400 "Dependencies of given projectversion must be locked"),
     mkApp (update_pv diamond 3 (fun pv => version 3 "1.2" [4] false)) []).
Proof. reflexivity. Qed.

(** ** Adding a dependency *)

Section AddEdge.

Variable R R' : relation Z.
Variable a b : Z.
Hypothesis R'_cases : forall x y, R' x y -> R x y \/ (x = a /\ y = b).

(** A path of the extended relation is an old one or passes the new edge. *)
Lemma rt_add_edge x y :
  clos_refl_trans_1n Z R' x y ->
  clos_refl_trans_1n Z R x y \/
  (clos_refl_trans_1n Z R x a /\ clos_refl_trans_1n Z R b y).
Proof.
  induction 1 as [x|x z y Hxz _ IH].
  - left. constructor.
  - destruct (R'_cases _ _ Hxz) as [HR|[-> ->]].
    + destruct IH as [IH|[IH1 IH2]].
      * left. econstructor; eauto.
      * right. split; [econstructor; eauto | assumption].
    + right. split; [constructor|]. destruct IH as [IH|[_ IH]]; assumption.
Qed.

Lemma rt1n_step_rt1n x y z w :
  clos_refl_trans_1n Z R x y -> R y z -> clos_refl_trans_1n Z R z w -> clos_trans Z R x w.
Proof.
  intros Hxy Hyz Hzw. eapply clos_rt_t; [apply clos_rt1n_rt; eassumption|].
  eapply step_rt1n_trans; eauto.
Qed.

(** An edge [a -> b] closes no cycle unless [a] could be reached from [b]. *)
Lemma acyclic_add_edge :
  (forall x, ~ clos_trans Z R x x) -> a <> b -> ~ clos_trans Z R b a ->
  forall x, ~ clos_trans Z R' x x.
Proof.
  intros Hac Hab Hba x Hx.
  apply trans_first_step in Hx. destruct Hx as (z & Hxz & Hzx).
  assert (Hba' : ~ clos_refl_trans_1n Z R b a).
  { intros H. apply rt1n_cases in H. destruct H; [congruence | contradiction]. }
  apply rt_add_edge in Hzx. destruct (R'_cases _ _ Hxz) as [HR|[-> ->]].
  - destruct Hzx as [Hzx|[Hza Hbx]].
    + apply (Hac x). eapply step_rt1n_trans; eauto.
    + apply Hba. eapply rt1n_step_rt1n; eauto.
  - destruct Hzx as [Hzx|[Hzx _]]; contradiction.
Qed.

End AddEdge.

Lemma existsb_eqb_In x l : existsb (Z.eqb x) l = true <-> In x l.
Proof.
  rewrite existsb_exists. split.
  - intros (y & Hy & Heq). apply Z.eqb_eq in Heq. now subst.
  - intros H. exists x. split; [assumption | apply Z.eqb_refl].
Qed.

Section AddDependency.

Variable st : Store.
Variable A B : Z.
Variable pvA pvB : ProjectVersion.
Hypothesis HA : find_pv st A = Some pvA.
Hypothesis HB : find_pv st B = Some pvB.

Let append (pv : ProjectVersion) := set_dependencies (pv_dependencies pv ++ [B]) pv.
Let st' := update_pv st A append.

Lemma append_id pv : pv_id (append pv) = pv_id pv.
Proof. reflexivity. Qed.

Lemma node_added x : node st' x <-> node st x.
Proof.
  unfold node, st'. rewrite find_pv_update_pv by apply append_id.
  destruct (find_pv st x); simpl; split; congruence.
Qed.

Lemma edge_added_cases x y : edge st' x y -> edge st x y \/ (x = A /\ y = B).
Proof.
  intros (pv & Hx & Hy & Hn). apply node_added in Hn.
  unfold st' in Hx. rewrite find_pv_update_pv in Hx by apply append_id.
  destruct (find_pv st x) as [pv0|] eqn:Hx0; [|discriminate]. simpl in Hx.
  pose proof (find_pv_id _ _ _ Hx0) as Hid. rewrite Hid in Hx.
  destruct (Z.eqb_spec x A) as [->|Hne]; injection Hx as <-.
  - simpl in Hy. apply in_app_or in Hy. destruct Hy as [Hy|[<-|[]]].
    + left. exists pv0. auto.
    + right. auto.
  - left. exists pv0. auto.
Qed.

Lemma edge_added : edge st' A B.
Proof.
  exists (append pvA). split; [|split].
  - apply find_pv_update_pv_same; [apply append_id | assumption].
  - simpl. apply in_or_app. right. now left.
  - apply node_added. unfold node. congruence.
Qed.

Lemma acyclic_added : acyclic st -> A <> B -> ~ depends_on st B A -> acyclic st'.
Proof.
  intros Hac Hne Hba.
  exact (acyclic_add_edge (edge st) (edge st') A B edge_added_cases Hac Hne Hba).
Qed.

End AddDependency.

(** A store is acyclic when the walk from each of its projectversions fits
    into some depth. *)
Lemma acyclic_check st fuel :
  forallb (fun pv => fits st fuel (pv_id pv)) (projectversions st) = true -> acyclic st.
Proof.
  intros H x Hx. rewrite forallb_forall in H.
  pose proof (depends_on_node _ _ _ Hx) as Hn. unfold node in Hn.
  destruct (find_pv st x) as [pv|] eqn:Hpv; [|congruence].
  assert (Hin : In pv (projectversions st)).
  { unfold find_pv in Hpv. now apply find_some in Hpv. }
  apply H in Hin. rewrite (find_pv_id _ _ _ Hpv) in Hin.
  exact (fits_acyclic _ _ _ Hin x (rt_refl _ _ _) Hx).
Qed.

(** The handler once both ids are accepted and the projectversion is found. *)
Lemma post_projectversion_dependency_found fuel app A B pvA :
  A <> 0 -> B <> 0 -> find_pv (db app) A = Some pvA ->
  post_projectversion_dependency fuel app (Some A) (Some B)
  = if pv_is_locked pvA
    then (Ok (ErrorResponse 400 "You can not add dependencies on a locked projectversion!"), app)
    else if B =? A
    then (Ok (ErrorResponse 400
                "You can not add a dependency of the same projectversion to itself!"), app)
    else
      match get_projectversion_deps fuel B (db app) with
      | Raised e => (Raised e, app)
      | Diverges => (Diverges, app)
      | Ok dep_ids =>
          if existsb (Z.eqb A) dep_ids
          then (Ok (ErrorResponse 400
                      "You can not add a dependency of a projectversion depending itself on this projectversion!"), app)
          else
            match find_pv (db app) B with
            | None => (Ok (ErrorResponse 400 "Invalid data received."), app)
            | Some dependency =>
                (Ok (Response 200 "Dependency added"),
                 mkApp (update_pv (db app) A
                          (fun pv => set_dependencies (pv_dependencies pv ++ [B]) pv))
                       (aptly_queue app))
            end
      end.
Proof.
  intros HA0 HB0 HA. apply Z.eqb_neq in HA0, HB0.
  unfold post_projectversion_dependency. cbn [falsy the_int]. now rewrite HA0, HB0, HA.
Qed.

(** C1, as the code has it.  For a projectversion [A] of the store and ids
    that [parse_int] accepts, the handler refuses [A -> B]: because [A] is
    locked; else because [B] is [A]; else because [A] is among the
    dependencies of [B], that is [B] depends on [A].  Else, [B] being in
    the store, it appends [B] to the dependencies of [A].  After that, on a
    store that was acyclic, it refuses [B -> A]: because [B] is locked, when
    it is, and else because [A] now depends on [B]. *)
Theorem post_projectversion_dependency_checks
  (fuel : nat) (app : App) (A B : Z) (pvA : ProjectVersion) :
  A <> 0 -> B <> 0 -> find_pv (db app) A = Some pvA ->
  (pv_is_locked pvA = true ->
   post_projectversion_dependency fuel app (Some A) (Some B)
   = (Ok (ErrorResponse 400 "You can not add dependencies on a locked projectversion!"), app)) /\
  (pv_is_locked pvA = false -> B = A ->
   post_projectversion_dependency fuel app (Some A) (Some B)
   = (Ok (ErrorResponse 400
            "You can not add a dependency of the same projectversion to itself!"), app)) /\
  (pv_is_locked pvA = false -> B <> A ->
   forall dep_ids, get_projectversion_deps fuel B (db app) = Ok dep_ids ->
   (In A dep_ids <-> depends_on (db app) B A) /\
   (In A dep_ids ->
    post_projectversion_dependency fuel app (Some A) (Some B)
    = (Ok (ErrorResponse 400
             "You can not add a dependency of a projectversion depending itself on this projectversion!"),
       app)) /\
   (~ In A dep_ids -> forall pvB, find_pv (db app) B = Some pvB ->
    let app' :=
      mkApp (update_pv (db app) A (fun pv => set_dependencies (pv_dependencies pv ++ [B]) pv))
            (aptly_queue app) in
    post_projectversion_dependency fuel app (Some A) (Some B)
    = (Ok (Response 200 "Dependency added"), app') /\
    edge (db app') A B /\
    (acyclic (db app) ->
     forall fuel', (List.length (projectversions (db app)) < fuel')%nat ->
     post_projectversion_dependency fuel' app' (Some B) (Some A)
     = (Ok (ErrorResponse 400
              (if pv_is_locked pvB
               then "You can not add dependencies on a locked projectversion!"
               else "You can not add a dependency of a projectversion depending itself on this projectversion!")),
        app')))).
Proof.
  intros HA0 HB0 HA.
  rewrite (post_projectversion_dependency_found fuel app A B pvA HA0 HB0 HA).
  split; [|split].
  - intros ->. reflexivity.
  - intros -> ->. now rewrite Z.eqb_refl.
  - intros -> Hne dep_ids Hdeps.
    pose proof Hne as Hne'. apply Z.eqb_neq in Hne'. rewrite Hne', Hdeps.
    unfold get_projectversion_deps in Hdeps.
    destruct (deps_objects_Ok _ _ _ _ Hdeps) as (_ & Hmem & _).
    split; [apply Hmem|]. split.
    + intros Hin. apply existsb_eqb_In in Hin. now rewrite Hin.
    + intros Hnin pvB HB app'.
      assert (Hex : existsb (Z.eqb A) dep_ids = false).
      { apply not_true_is_false. now rewrite existsb_eqb_In. }
      rewrite Hex, HB. split; [reflexivity|].
      split; [exact (edge_added _ _ _ _ _ HA HB)|].
      intros Hac fuel' Hfuel.
      assert (HB' : find_pv (db app') B = Some pvB).
      { unfold app'. simpl. rewrite find_pv_update_pv_other; auto. }
      rewrite (post_projectversion_dependency_found fuel' app' B A pvB HB0 HA0 HB').
      destruct (pv_is_locked pvB); [reflexivity|].
      assert (HAB : (A =? B) = false) by (apply Z.eqb_neq; congruence).
      rewrite HAB. unfold get_projectversion_deps.
      assert (Hac' : acyclic (db app')).
      { apply acyclic_added; [exact Hac | congruence | now rewrite <- Hmem]. }
      destruct (deps_objects_total fuel' (db app') A) as (ds & Hds).
      * intros y _. apply Hac'.
      * unfold app'. simpl db. now rewrite update_pv_length.
      * rewrite Hds. destruct (deps_objects_Ok _ _ _ _ Hds) as (_ & Hmem' & _).
        assert (Hin : existsb (Z.eqb B) ds = true).
        { apply existsb_eqb_In, Hmem'. apply t_step.
          exact (edge_added _ _ _ _ _ HA HB). }
        now rewrite Hin.
Qed.

Lemma post_projectversion_dependency_checks_witness :
  post_projectversion_dependency 3
    (mkApp (update_pv (pair false) 1
              (fun pv => set_dependencies (pv_dependencies pv ++ [2]) pv)) [])
    (Some 2) (Some 1)
  = (Ok (ErrorResponse 400
           "You can not add a dependency of a projectversion depending itself on this projectversion!"),
     mkApp (update_pv (pair false) 1
              (fun pv => set_dependencies (pv_dependencies pv ++ [2]) pv)) []).
Proof.
  destruct (post_projectversion_dependency_checks 3 (mkApp (pair false) []) 1 2
              (version 1 "1.0" [] false)) as (_ & _ & H);
    [discriminate | discriminate | reflexivity | ].
  destruct (H eq_refl) with (dep_ids := @nil Z) as (_ & _ & H2);
    [discriminate | reflexivity | ].
  destruct (H2 (fun F => F) (version 2 "1.1" [] false) eq_refl) as (_ & _ & H3).
  apply H3.
  - apply (acyclic_check _ 3). reflexivity.
  - simpl. lia.
Defined.

(** C1, as stated, fails: 1 -> 2 is accepted on an acyclic store, and 2 -> 1
    is then refused because 2 is locked, not because of a cycle. *)
Lemma post_projectversion_dependency_back_locked :
  acyclic (pair true) /\
  post_projectversion_dependency 3 (mkApp (pair true) []) (Some 1) (Some 2)
  = (Ok (Response 200 "Dependency added"),
     mkApp (mkStore [mkProject 1 "P" "" false]
                    [version 1 "1.0" [2] false; version 2 "1.1" [] true]) []) /\
  post_projectversion_dependency 3
    (mkApp (mkStore [mkProject 1 "P" "" false]
                    [version 1 "1.0" [2] false; version 2 "1.1" [] true]) [])
    (Some 2) (Some 1)
  <> (Ok (ErrorResponse 400
            "You can not add a dependency of a projectversion depending itself on this projectversion!"),
      mkApp (mkStore [mkProject 1 "P" "" false]
                     [version 1 "1.0" [2] false; version 2 "1.1" [] true]) []).
Proof.
  split; [apply (acyclic_check _ 3); reflexivity|].
  split; [reflexivity | discriminate].
Qed.

Example back_locked_response :
  fst (post_projectversion_dependency 3
         (mkApp (mkStore [mkProject 1 "P" "" false]
                         [version 1 "1.0" [2] false; version 2 "1.1" [] true]) [])
         (Some 2) (Some 1))
  = Ok (ErrorResponse 400 "You can not add dependencies on a locked projectversion!").
Proof. reflexivity. Qed.

(** ** Marking a projectversion as deleted *)

Lemma blocking_names_from st ds : forall acc names,
  map (slash_name st) (filter (fun d => negb (pv_is_deleted d)) ds) = map inr names ->
  for_each (fun blocking_dependants d =>
              if negb (pv_is_deleted d)
              then n <- call (slash_name st d) ;; Ok (blocking_dependants ++ [n])
              else Ok blocking_dependants)
           ds acc
  = Ok (acc ++ names).
Proof.
  induction ds as [|d ds IH]; simpl; intros acc names H.
  - destruct names; [|discriminate]. now rewrite app_nil_r.
  - destruct (pv_is_deleted d); simpl in *.
    + now apply IH.
    + destruct names as [|n names]; [discriminate|]. simpl in H.
      injection H as Hn H. rewrite Hn. simpl. rewrite (IH _ _ H).
      now rewrite <- app_assoc.
Qed.

Lemma blocking_names_Ok st ds names :
  map (slash_name st) (filter (fun d => negb (pv_is_deleted d)) ds) = map inr names ->
  match ds with
  | [] => Ok []
  | _ :: _ => blocking_names st ds
  end = Ok names.
Proof.
  intros H. unfold blocking_names.
  destruct ds as [|d ds]; [destruct names; [reflexivity | discriminate]|].
  now rewrite (blocking_names_from st (d :: ds) [] names H).
Qed.

(** C3, as the code has it.  [names] being the "project/name" of every
    dependent of the projectversion that is not deleted: when there is such
    a dependent the handler answers 400 with a message that lists [names],
    and store and queue stay as they were; when there is none and the
    projectversion has a base mirror, it puts two [drop_publish] tasks on
    the queue, for "stable" then for "unstable", each with the names of the
    base mirror's project, the base mirror, the project and the
    projectversion, and sets [is_deleted] and [is_locked] and clears
    [ci_builds_enabled]. *)
Theorem mark_delete_projectversion_blocking
  (app : App) (pvid : Z) (pv : ProjectVersion) (names : list string) :
  find_pv (db app) pvid = Some pv ->
  let blocking := filter (fun d => negb (pv_is_deleted d)) (dependents (db app) pvid) in
  map (slash_name (db app)) blocking = map inr names ->
  (blocking <> [] ->
   mark_delete_projectversion app (Some pvid)
   = (Ok (ErrorResponse 400
            ("Projectversions '" +++ String.concat ", " names
             +++ "' are still depending on this version, you can not delete it!")),
      app)) /\
  (blocking = [] ->
   forall bm base_mirror_name pname,
   basemirror_of (db app) pv = inr bm ->
   project_name (db app) bm = inr base_mirror_name ->
   project_name (db app) pv = inr pname ->
   let app' :=
     mkApp (update_pv (db app) pvid set_deleted)
           (aptly_queue app ++
            [drop_publish base_mirror_name (pv_name bm) pname (pv_name pv) "stable";
             drop_publish base_mirror_name (pv_name bm) pname (pv_name pv) "unstable"]) in
   mark_delete_projectversion app (Some pvid)
   = (Ok (Response 200 "Deleted Project Version"), app') /\
   exists pv', find_pv (db app') pvid = Some pv' /\
               pv_is_deleted pv' = true /\ pv_is_locked pv' = true /\
               pv_ci_builds_enabled pv' = false).
Proof.
  intros Hpv blocking Hnames.
  unfold mark_delete_projectversion. rewrite Hpv.
  rewrite (blocking_names_Ok _ _ _ Hnames).
  split.
  - intros Hne. destruct names as [|n ns]; [|reflexivity].
    destruct blocking; [congruence | discriminate].
  - intros Hnil bm base_mirror_name pname Hbm Hbn Hpn. cbv zeta.
    rewrite Hnil in Hnames. destruct names; [|discriminate].
    rewrite Hbm, Hbn, Hpn. split; [reflexivity|].
    exists (set_deleted pv). split; [|auto].
    simpl. apply find_pv_update_pv_same; auto.
Qed.

Lemma mark_delete_projectversion_blocking_witness :
  mark_delete_projectversion (mkApp mirrored []) (Some 2)
  = (Ok (ErrorResponse 400
           "Projectversions 'P/1.1' are still depending on this version, you can not delete it!"),
     mkApp mirrored []) /\
  mark_delete_projectversion (mkApp mirrored []) (Some 3)
  = (Ok (Response 200 "Deleted Project Version"),
     mkApp (mkStore [mkProject 1 "P" "" false; mkProject 2 "stretch" "" true]
                    [mkProjectVersion 1 "9.6" 2 None ["amd64"] [] true false false;
                     mkProjectVersion 2 "1.0" 1 (Some 1) ["amd64"] [] false false false;
                     mkProjectVersion 3 "1.1" 1 (Some 1) ["amd64"] [2] true true false])
           [drop_publish "stretch" "9.6" "P" "1.1" "stable";
            drop_publish "stretch" "9.6" "P" "1.1" "unstable"]).
Proof.
  split.
  - apply (mark_delete_projectversion_blocking (mkApp mirrored []) 2
             (mkProjectVersion 2 "1.0" 1 (Some 1) ["amd64"] [] false false false)
             ["P/1.1"] eq_refl eq_refl).
    discriminate.
  - exact (proj1 (proj2 (mark_delete_projectversion_blocking (mkApp mirrored []) 3
                           (mkProjectVersion 3 "1.1" 1 (Some 1) ["amd64"] [2]
                              false false false)
                           [] eq_refl eq_refl)
                    eq_refl
                    (mkProjectVersion 1 "9.6" 2 None ["amd64"] [] true false false)
                    "stretch" "P" eq_refl eq_refl eq_refl)).
Defined.

(** C3, as stated, fails: the base mirror 9.6 has no dependent and no base
    mirror of its own, and the handler raises at
    [projectversion.basemirror.project.name]; no task is put on the queue
    and no flag is set. *)
Lemma mark_delete_projectversion_no_basemirror :
  dependents mirrored 1 = [] /\
  option_map pv_basemirror (find_pv mirrored 1) = Some None /\
  mark_delete_projectversion (mkApp mirrored []) (Some 1)
  = (Raised AttributeError, mkApp mirrored []).
Proof. repeat split. Qed.

(** 1.1 has no dependent: it is marked deleted and its two publish points
    are dropped. *)
Example mark_delete_free :
  mark_delete_projectversion (mkApp mirrored []) (Some 3)
  = (Ok (Response 200 "Deleted Project Version"),
     mkApp (update_pv mirrored 3 set_deleted)
           [drop_publish "stretch" "9.6" "P" "1.1" "stable";
            drop_publish "stretch" "9.6" "P" "1.1" "unstable"]).
Proof. reflexivity. Qed.

(** Once 1.1 is deleted, 1.0 can be deleted too. *)
Example mark_delete_after_dependent :
  fst (mark_delete_projectversion (mkApp (update_pv mirrored 3 set_deleted) []) (Some 2))
  = Ok (Response 200 "Deleted Project Version").
Proof. reflexivity. Qed.

(** ** Creating a projectversion *)

Lemma split_on_two_contains c s : forall a b, split_on c s = [a; b] -> contains c s = true.
Proof.
  induction s as [|c' s IH]; simpl; intros a b H; [discriminate|].
  destruct (Ascii.eqb c' c); [reflexivity|]. simpl.
  destruct (split_on c s) as [|w [|w' ws]] eqn:Hs; try discriminate.
  injection H as _ <-. destruct ws; [|discriminate]. eapply IH. reflexivity.
Qed.

Lemma find_snoc {A} (f : A -> bool) l a :
  find f l = None -> find f (l ++ [a]) = if f a then Some a else None.
Proof.
  induction l as [|x l IH]; simpl; [reflexivity|].
  destruct (f x); [discriminate | exact IH].
Qed.

Section CreateFacts.

Variable is_name_valid : string -> bool.
Variable sql_int_eq_text : Z -> string -> bool.
Variable query_basemirror : Store -> string -> string -> exn + option ProjectVersion.

Abbreviation create :=
  (create_projectversions is_name_valid sql_int_eq_text query_basemirror).
Abbreviation lookup := (lookup_project sql_int_eq_text).

Lemma lookup_project_In st project_id project :
  lookup st project_id = Some project -> In project (projects st).
Proof.
  unfold lookup_project.
  destruct (find _ (projects st)) as [p|] eqn:H1.
  - intros [= <-]. now apply find_some in H1.
  - intros H2. now apply find_some in H2.
Qed.

Lemma project_row_exists st project :
  In project (projects st) ->
  existsb (fun p => p_id p =? p_id project) (projects st) = true.
Proof.
  intros H. apply existsb_exists. exists project. split; [assumption | apply Z.eqb_refl].
Qed.

(** The handler on a request that passes the checks of its fields and names
    a project of the store. *)
Lemma create_projectversions_checked app project_id name archs bmref bn bv project :
  project_id <> "" -> name <> "" -> is_name_valid name = true -> archs <> [] ->
  split_on "/" bmref = [bn; bv] ->
  lookup (db app) project_id = Some project ->
  create app project_id (mkParams (Some name) archs (Some bmref))
  = match query_name_and_project (db app) name project with
    | Some projectversion =>
        (Ok (ErrorResponse 400
               ("Projectversion already exists. "
                +++ (if pv_is_deleted projectversion
                     then "And is marked as deleted!" else ""))), app)
    | None =>
        match query_basemirror (db app) bn bv with
        | inl e => (Raised e, app)
        | inr None =>
            (Ok (ErrorResponse 400 ("Base mirror not found: " +++ bn +++ "/" +++ bv)), app)
        | inr (Some basemirror) =>
            (Ok (JsonIdName (fresh_id (db app)) name),
             mkApp (mkStore (projects (db app))
                            (projectversions (db app) ++
                             [mkProjectVersion (fresh_id (db app)) name (p_id project)
                                (Some (pv_id basemirror)) archs [] false false false]))
                   (aptly_queue app ++
                    [init_repository (fresh_id (db app)) bn bv (p_name project) name archs]))
        end
    end.
Proof.
  intros Hid Hname Hvalid Harchs Hsplit Hproj.
  unfold create_projectversions.
  cbn [param_name param_architectures param_basemirror].
  apply String.eqb_neq in Hid. rewrite Hid.
  assert (Hn : str_falsy (Some name) = false) by (destruct name; [congruence | reflexivity]).
  rewrite Hn.
  assert (Hb : str_falsy (Some bmref) = false).
  { destruct bmref; [discriminate | reflexivity]. }
  rewrite Hb, (split_on_two_contains _ _ _ _ Hsplit). cbn [orb negb].
  destruct archs; [congruence|].
  rewrite Hvalid, Hsplit, Hproj. reflexivity.
Qed.

End CreateFacts.

(** C6, as the code has it.  On a request that passes the checks of its
    fields and names a project of the store: when the project has a
    projectversion of that name, deleted or not, the handler answers 400
    "Projectversion already exists." and changes nothing; when the store has
    no projectversion of that name and the base mirror is found, it adds the
    projectversion, answers with its id and name, puts one [init_repository]
    task with the architectures of the request on the queue, and answers the
    same request, sent again, with 400 "Projectversion already exists.". *)
Theorem create_projectversions_name_taken
  (is_name_valid : string -> bool) (sql_int_eq_text : Z -> string -> bool)
  (query_basemirror : Store -> string -> string -> exn + option ProjectVersion)
  (app : App) (project_id name : string) (archs : list string)
  (bmref bn bv : string) (project : Project) :
  project_id <> "" -> name <> "" -> is_name_valid name = true -> archs <> [] ->
  split_on "/" bmref = [bn; bv] ->
  lookup_project sql_int_eq_text (db app) project_id = Some project ->
  let params := mkParams (Some name) archs (Some bmref) in
  ((exists pv, In pv (projectversions (db app)) /\
               pv_name pv = name /\ pv_project pv = p_id project) ->
   exists suffix,
     create_projectversions is_name_valid sql_int_eq_text query_basemirror app project_id params
     = (Ok (ErrorResponse 400 ("Projectversion already exists. " +++ suffix)), app)) /\
  ((forall pv, In pv (projectversions (db app)) -> pv_name pv <> name) ->
   forall bm, query_basemirror (db app) bn bv = inr (Some bm) ->
   let app' :=
     mkApp (mkStore (projects (db app))
                    (projectversions (db app) ++
                     [mkProjectVersion (fresh_id (db app)) name (p_id project)
                        (Some (pv_id bm)) archs [] false false false]))
           (aptly_queue app ++
            [init_repository (fresh_id (db app)) bn bv (p_name project) name archs]) in
   create_projectversions is_name_valid sql_int_eq_text query_basemirror app project_id params
   = (Ok (JsonIdName (fresh_id (db app)) name), app') /\
   create_projectversions is_name_valid sql_int_eq_text query_basemirror app' project_id params
   = (Ok (ErrorResponse 400 "Projectversion already exists. "), app')).
Proof.
  intros Hid Hname Hvalid Harchs Hsplit Hproj params. unfold params.
  pose proof (lookup_project_In _ _ _ _ Hproj) as Hin.
  pose proof (project_row_exists _ _ Hin) as Hex.
  split.
  - intros (pv & Hpv & Hn & _).
    rewrite (create_projectversions_checked _ _ _ _ _ _ _ _ _ _ _
               Hid Hname Hvalid Harchs Hsplit Hproj).
    destruct (query_name_and_project (db app) name project) as [x|] eqn:Hq; [eauto|].
    exfalso. unfold query_name_and_project in Hq.
    apply (find_none _ _ Hq) in Hpv. rewrite Hex, Hn, String.eqb_refl in Hpv. discriminate.
  - intros Hfree bm Hbm. cbv zeta. set (app' := mkApp (mkStore _ _) _).
    assert (Hq : query_name_and_project (db app) name project = None).
    { unfold query_name_and_project.
      destruct (find _ (projectversions (db app))) as [x|] eqn:Hq; [|reflexivity].
      apply find_some in Hq. destruct Hq as [Hx Hq].
      apply andb_prop in Hq. destruct Hq as [Hq _]. apply String.eqb_eq in Hq.
      now apply Hfree in Hx. }
    split.
    + rewrite (create_projectversions_checked _ _ _ _ _ _ _ _ _ _ _
                 Hid Hname Hvalid Harchs Hsplit Hproj).
      now rewrite Hq, Hbm.
    + rewrite (create_projectversions_checked _ _ _ app' _ _ _ _ _ _ project
                 Hid Hname Hvalid Harchs Hsplit Hproj).
      unfold query_name_and_project in *. unfold app'. simpl db. simpl projects.
      simpl projectversions. rewrite (find_snoc _ _ _ Hq). simpl pv_name.
      now rewrite String.eqb_refl, Hex.
Qed.

Lemma create_projectversions_name_taken_witness :
  create_projectversions (fun _ => true) (fun _ _ => false) owned_by (mkApp mirrored []) "P"
    (mkParams (Some "1.0.0") ["amd64"] (Some "stretch/9.6"))
  = (Ok (JsonIdName 4 "1.0.0"),
     mkApp (mkStore (projects mirrored)
                    (projectversions mirrored ++
                     [mkProjectVersion 4 "1.0.0" 1 (Some 1) ["amd64"] [] false false false]))
           [init_repository 4 "stretch" "9.6" "P" "1.0.0" ["amd64"]]) /\
  create_projectversions (fun _ => true) (fun _ _ => false) owned_by
    (mkApp (mkStore (projects mirrored)
                    (projectversions mirrored ++
                     [mkProjectVersion 4 "1.0.0" 1 (Some 1) ["amd64"] [] false false false]))
           [init_repository 4 "stretch" "9.6" "P" "1.0.0" ["amd64"]]) "P"
    (mkParams (Some "1.0.0") ["amd64"] (Some "stretch/9.6"))
  = (Ok (ErrorResponse 400 "Projectversion already exists. "),
     mkApp (mkStore (projects mirrored)
                    (projectversions mirrored ++
                     [mkProjectVersion 4 "1.0.0" 1 (Some 1) ["amd64"] [] false false false]))
           [init_repository 4 "stretch" "9.6" "P" "1.0.0" ["amd64"]]).
Proof.
  assert (Hfree : forall pv, In pv (projectversions mirrored) -> pv_name pv <> "1.0.0").
  { simpl. intros pv [<-|[<-|[<-|[]]]]; discriminate. }
  exact (proj2 (create_projectversions_name_taken (fun _ => true) (fun _ _ => false) owned_by
                  (mkApp mirrored []) "P" "1.0.0" ["amd64"] "stretch/9.6" "stretch" "9.6"
                  (mkProject 1 "P" "" false)
                  ltac:(discriminate) ltac:(discriminate) eq_refl ltac:(discriminate)
                  eq_refl eq_refl)
               Hfree (mkProjectVersion 1 "9.6" 2 None ["amd64"] [] true false false) eq_refl).
Defined.

(** C6, as stated, fails: P has no projectversion 1.0 that is not deleted,
    and 1.0 is refused all the same, because the deleted one has the name. *)
Lemma create_projectversions_deleted_name :
  filter (fun pv => (pv_name pv =? "1.0")%string && (pv_project pv =? 1)
                    && negb (pv_is_deleted pv))
         (projectversions mirrored_deleted) = [] /\
  create_projectversions (fun _ => true) (fun _ _ => false) owned_by (mkApp mirrored_deleted []) "P"
    (mkParams (Some "1.0") ["amd64"] (Some "stretch/9.6"))
  = (Ok (ErrorResponse 400 "Projectversion already exists. And is marked as deleted!"),
     mkApp mirrored_deleted []).
Proof. split; reflexivity. Qed.

(** The name query joins [ProjectVersion] and [Project] by no condition:
    1.0.0 is refused in P because Q has a version of that name. *)
Example create_name_of_other_project :
  create_projectversions (fun _ => true) (fun _ _ => false) owned_by (mkApp two_projects []) "P"
    (mkParams (Some "1.0.0") ["amd64"] (Some "stretch/9.6"))
  = (Ok (ErrorResponse 400 "Projectversion already exists. "), mkApp two_projects []).
Proof. reflexivity. Qed.

(** ** Lists of rows *)

Lemma find_filter_keep {A} (f g : A -> bool) l :
  (forall x, In x l -> f x = true -> g x = true) -> find f (filter g l) = find f l.
Proof.
  induction l as [|a l IH]; simpl; intros H; [reflexivity|].
  destruct (f a) eqn:Hf.
  - rewrite (H a (or_introl eq_refl) Hf). simpl. now rewrite Hf.
  - destruct (g a); simpl; [rewrite Hf|]; apply IH; auto.
Qed.

Lemma find_filter_none {A} (f g : A -> bool) l :
  find f l = None -> find f (filter g l) = None.
Proof.
  induction l as [|a l IH]; simpl; [reflexivity|].
  destruct (f a) eqn:Hf; [discriminate|]. intros H.
  destruct (g a); simpl; [rewrite Hf|]; auto.
Qed.

Lemma filter_filter {A} (f g : A -> bool) l :
  filter f (filter g l) = filter (fun x => g x && f x) l.
Proof.
  induction l as [|a l IH]; simpl; [reflexivity|].
  destruct (g a); simpl; [destruct (f a)|]; now rewrite IH.
Qed.

Lemma filter_all {A} (f : A -> bool) l : (forall x, In x l -> f x = true) -> filter f l = l.
Proof.
  induction l as [|a l IH]; simpl; intros H; [reflexivity|].
  rewrite (H a (or_introl eq_refl)), IH; auto.
Qed.

Lemma existsb_filter {A} (f p : A -> bool) l :
  existsb f (filter p l) = existsb (fun x => p x && f x) l.
Proof.
  induction l as [|a l IH]; simpl; [reflexivity|].
  destruct (p a); simpl; now rewrite IH.
Qed.

Lemma existsb_orb {A} (f g : A -> bool) l :
  existsb (fun x => f x || g x) l = existsb f l || existsb g l.
Proof.
  induction l as [|a l IH]; simpl; [reflexivity|].
  rewrite IH. destruct (f a), (g a), (existsb f l); reflexivity.
Qed.

Lemma existsb_ext_in {A} (f g : A -> bool) l :
  (forall x, In x l -> f x = g x) -> existsb f l = existsb g l.
Proof.
  induction l as [|a l IH]; simpl; intros H; [reflexivity|].
  rewrite (H a (or_introl eq_refl)), IH; auto.
Qed.

Lemma NoDup_key_inj {A} (key : A -> Z) l a b :
  NoDup (map key l) -> In a l -> In b l -> key a = key b -> a = b.
Proof.
  induction l as [|x l IH]; simpl; intros Hnd Ha Hb Heq; [contradiction|].
  inversion Hnd as [|? ? Hnin Hnd']; subst.
  destruct Ha as [->|Ha], Hb as [->|Hb]; auto.
  - exfalso. apply Hnin. rewrite Heq. now apply in_map.
  - exfalso. apply Hnin. rewrite <- Heq. now apply in_map.
Qed.

Lemma NoDup_key_filter {A} (key : A -> Z) (f : A -> bool) l :
  NoDup (map key l) -> NoDup (map key (filter f l)).
Proof.
  induction l as [|x l IH]; simpl; intros Hnd; [constructor|].
  inversion Hnd as [|? ? Hnin Hnd']; subst.
  destruct (f x); simpl; auto. constructor; auto.
  intros Hin. apply Hnin. apply in_map_iff in Hin. destruct Hin as (y & Hy & Hin).
  apply filter_In in Hin. rewrite <- Hy. apply in_map, Hin.
Qed.

(** Among rows of distinct keys, looking for the key of a row finds it. *)
Lemma existsb_key {A} (key : A -> Z) (p : A -> bool) l a :
  NoDup (map key l) -> In a l ->
  existsb (fun b => key b =? key a) (filter p l) = p a.
Proof.
  intros Hnd Ha. destruct (p a) eqn:Hp.
  - apply existsb_exists. exists a. split; [|apply Z.eqb_refl].
    apply filter_In. auto.
  - apply not_true_is_false. intros H. apply existsb_exists in H.
    destruct H as (b & Hb & Heq). apply filter_In in Hb. destruct Hb as [Hb Hpb].
    apply Z.eqb_eq in Heq.
    rewrite (NoDup_key_inj key l b a Hnd Hb Ha Heq) in Hpb. congruence.
Qed.

(** ** The loops of startup recovery *)

Lemma drop_task_and_run s build w :
  drop_task_and (set_buildstate s) build w
  = match first_buildtask (pending w) (b_id build) with
    | None => (inl UnmappedInstanceError, w)
    | Some t =>
        (inr tt,
         mkWorld (committed w)
                 (mkDatabase
                    (map (fun b => if b_id b =? b_id build then with_buildstate s b else b)
                         (builds (pending w)))
                    (filter (fun t' => negb (bt_id t' =? bt_id t)) (buildtasks (pending w))))
                 (events w))
    end.
Proof.
  unfold drop_task_and, bindW, query_buildtask.
  destruct (first_buildtask (pending w) (b_id build)); reflexivity.
Qed.

Lemma first_buildtask_Some d i t :
  first_buildtask d i = Some t -> In t (buildtasks d) /\ bt_build t = i.
Proof.
  unfold first_buildtask. intros H. apply find_some in H.
  destruct H as [Hin H]. now apply Z.eqb_eq in H.
Qed.

(** Deleting the BuildTask of one build leaves the query of another as it was. *)
Lemma first_buildtask_other d i t j :
  NoDup (map bt_id (buildtasks d)) -> first_buildtask d i = Some t -> j <> i ->
  find (fun x => bt_build x =? j)
       (filter (fun t' => negb (bt_id t' =? bt_id t)) (buildtasks d))
  = first_buildtask d j.
Proof.
  intros Hnd Ht Hne. apply find_filter_keep. intros x Hx Hj.
  apply first_buildtask_Some in Ht. destruct Ht as [Hin Hi].
  apply Z.eqb_eq in Hj. apply negb_true_iff, Z.eqb_neq. intros Heq.
  apply (NoDup_key_inj bt_id _ x t Hnd Hx Hin) in Heq. subst x. congruence.
Qed.

Lemma after_loop_nil s d : after_loop s [] d = d.
Proof.
  unfold after_loop. simpl. rewrite map_id, filter_all by reflexivity. now destruct d.
Qed.

(** A loop over builds that each have a BuildTask completes. *)
Lemma loop_completes s : forall bs w,
  NoDup (map b_id bs) ->
  NoDup (map bt_id (buildtasks (pending w))) ->
  (forall b, In b bs -> first_buildtask (pending w) (b_id b) <> None) ->
  for_W bs (drop_task_and (set_buildstate s)) w
  = (inr tt, mkWorld (committed w) (after_loop s bs (pending w)) (events w)).
Proof.
  induction bs as [|b bs IH]; intros w Hnd Htasks Hall.
  - simpl. unfold ret. rewrite after_loop_nil. now destruct w.
  - simpl. unfold bindW at 1. rewrite drop_task_and_run.
    destruct (first_buildtask (pending w) (b_id b)) as [t|] eqn:Ht;
      [|exfalso; apply (Hall b); simpl; auto].
    inversion Hnd as [|? ? Hnin Hnd']; subst.
    assert (Hother : forall b', In b' bs ->
              find (fun x => bt_build x =? b_id b')
                   (filter (fun t' => negb (bt_id t' =? bt_id t)) (buildtasks (pending w)))
              = first_buildtask (pending w) (b_id b')).
    { intros b' Hb'. apply first_buildtask_other with (i := b_id b); auto.
      intros Heq. apply Hnin. rewrite <- Heq. now apply in_map. }
    rewrite IH; simpl; auto.
    + f_equal. f_equal. unfold after_loop. simpl. f_equal.
      * rewrite map_map. apply map_ext. intros x. rewrite (Z.eqb_sym (b_id b) (b_id x)).
        destruct (b_id x =? b_id b); simpl; [|reflexivity].
        now destruct (existsb _ bs).
      * rewrite filter_filter. apply filter_ext_in. intros x Hx.
        unfold is_first_task at 2. rewrite Ht. rewrite (Z.eqb_sym (bt_id t) (bt_id x)).
        rewrite negb_orb. f_equal. f_equal. apply existsb_ext_in. intros b' Hb'.
        unfold is_first_task, first_buildtask at 1. simpl. now rewrite Hother.
    + now apply NoDup_key_filter.
    + intros b' Hb'. unfold first_buildtask. simpl. rewrite Hother by assumption.
      apply Hall. simpl. auto.
Qed.

(** A loop that comes to a build without BuildTask raises; nothing is
    committed by then. *)
Lemma loop_raises s : forall bs w,
  (exists b, In b bs /\ first_buildtask (pending w) (b_id b) = None) ->
  exists w', for_W bs (drop_task_and (set_buildstate s)) w = (inl UnmappedInstanceError, w') /\
             committed w' = committed w /\ events w' = events w.
Proof.
  induction bs as [|b bs IH]; intros w (b0 & Hin & Hnone); [contradiction|].
  simpl. unfold bindW at 1. rewrite drop_task_and_run.
  destruct (first_buildtask (pending w) (b_id b)) as [t|] eqn:Ht; [|eauto].
  destruct Hin as [->|Hin]; [congruence|].
  match goal with |- context [for_W bs _ ?w1] => destruct (IH w1) as (w' & Hrun & Hc & He) end.
  - exists b0. split; [assumption|]. unfold first_buildtask. simpl.
    now apply find_filter_none.
  - exists w'. rewrite Hrun. auto.
Qed.

(** One of the two [if ...: for ...: ...; session.commit()] of
    [startup_scheduling], in a session that has nothing uncommitted. *)
Lemma phase_completes s (bs : list Build) w :
  pending w = committed w ->
  NoDup (map b_id bs) ->
  NoDup (map bt_id (buildtasks (pending w))) ->
  (forall b, In b bs -> first_buildtask (pending w) (b_id b) <> None) ->
  (match bs with
   | [] => ret tt
   | _ :: _ => for_W bs (drop_task_and (set_buildstate s)) ;;; session_commit
   end) w
  = (inr tt, mkWorld (after_loop s bs (pending w)) (after_loop s bs (pending w)) (events w)).
Proof.
  intros Hfresh Hnd Htasks Hall. destruct bs as [|b bs].
  - rewrite after_loop_nil. unfold ret. rewrite Hfresh at 1. now destruct w.
  - unfold bindW. rewrite loop_completes by assumption. reflexivity.
Qed.

Lemma phase_raises s (bs : list Build) w :
  (exists b, In b bs /\ first_buildtask (pending w) (b_id b) = None) ->
  exists w', (match bs with
              | [] => ret tt
              | _ :: _ => for_W bs (drop_task_and (set_buildstate s)) ;;; session_commit
              end) w = (inl UnmappedInstanceError, w') /\
             committed w' = committed w /\ events w' = events w.
Proof.
  intros H. destruct bs as [|b bs]; [destruct H as (b & [] & _)|].
  destruct (loop_raises s (b :: bs) w H) as (w' & Hrun & Hc & He).
  exists w'. unfold bindW. rewrite Hrun. auto.
Qed.

Section Recovery.

Variable d : Database.
Hypothesis builds_keys : NoDup (map b_id (builds d)).
Hypothesis tasks_keys : NoDup (map bt_id (buildtasks d)).

Let scheduled (b : Build) : bool :=
  ((b_buildstate b =? "scheduled") && (b_buildtype b =? "deb"))%string.
Let building (b : Build) : bool :=
  ((b_buildstate b =? "building") && (b_buildtype b =? "deb"))%string.

Let d1 := after_loop "needs_build" (filter scheduled (builds d)) d.

Lemma builds_after_scheduled :
  builds d1
  = map (fun b => if scheduled b then with_buildstate "needs_build" b else b) (builds d).
Proof.
  unfold d1, after_loop. cbn [builds]. apply map_ext_in. intros b Hb.
  now rewrite (existsb_key b_id scheduled (builds d) b builds_keys Hb).
Qed.

Lemma building_after_scheduled :
  filter building (builds d1) = filter building (builds d).
Proof.
  rewrite builds_after_scheduled. clear. induction (builds d) as [|b l IH]; [reflexivity|].
  cbn [map filter]. rewrite IH. destruct (scheduled b) eqn:Hs; [|reflexivity].
  assert (Hb : building b = false).
  { unfold scheduled, building in *. apply andb_prop in Hs. destruct Hs as [Hs _].
    apply String.eqb_eq in Hs. now rewrite Hs. }
  rewrite Hb. reflexivity.
Qed.

Lemma builds_keys_after_scheduled : NoDup (map b_id (builds d1)).
Proof.
  rewrite builds_after_scheduled, map_map.
  erewrite map_ext; [exact builds_keys|].
  intros b. simpl. now destruct (scheduled b).
Qed.

(** The loop over the scheduled builds leaves the BuildTasks of the
    building ones where they were. *)
Lemma first_buildtask_after_scheduled b :
  In b (builds d) -> building b = true ->
  first_buildtask d1 (b_id b) = first_buildtask d (b_id b).
Proof.
  intros Hb Hbuilding. unfold first_buildtask, d1, after_loop. simpl.
  apply find_filter_keep. intros x Hx Hxb. apply Z.eqb_eq in Hxb.
  apply negb_true_iff, not_true_is_false. intros H.
  apply existsb_exists in H. destruct H as (b' & Hb' & Hfirst).
  apply filter_In in Hb'. destruct Hb' as [Hb' Hsched].
  unfold is_first_task in Hfirst.
  destruct (first_buildtask d (b_id b')) as [t|] eqn:Ht; [|discriminate].
  apply Z.eqb_eq in Hfirst. apply first_buildtask_Some in Ht. destruct Ht as [Hin Hbuild].
  apply (NoDup_key_inj bt_id _ t x tasks_keys Hin Hx) in Hfirst. subst x.
  assert (b' = b) by (apply (NoDup_key_inj b_id (builds d)); auto; congruence).
  subst b'. unfold scheduled, building in *.
  destruct (b_buildstate b =? "scheduled")%string eqn:Hs; [|discriminate].
  apply String.eqb_eq in Hs. rewrite Hs in Hbuilding. discriminate.
Qed.

Lemma recovered_builds :
  builds (after_loop "failed" (filter building (builds d1)) d1) = map recovered (builds d).
Proof.
  transitivity (map (fun b => if building b then with_buildstate "failed" b else b)
                    (builds d1)).
  { unfold after_loop at 1. cbn [builds]. apply map_ext_in. intros b Hb.
    now rewrite (existsb_key b_id building (builds d1) b builds_keys_after_scheduled Hb). }
  rewrite builds_after_scheduled, map_map. apply map_ext. intros b.
  unfold recovered. fold (scheduled b). fold (building b).
  destruct (scheduled b) eqn:Hs; reflexivity.
Qed.

Lemma buildtasks_after_scheduled :
  buildtasks d1
  = filter (fun t => negb (existsb (fun b' => is_first_task d (b_id b') t)
                                   (filter scheduled (builds d))))
           (buildtasks d).
Proof. reflexivity. Qed.

Lemma in_flight_cases b : in_flight b = scheduled b || building b.
Proof.
  unfold in_flight, scheduled, building.
  destruct (b_buildtype b =? "deb")%string, (b_buildstate b =? "scheduled")%string,
           (b_buildstate b =? "building")%string; reflexivity.
Qed.

Lemma recovered_buildtasks :
  buildtasks (after_loop "failed" (filter building (builds d1)) d1)
  = filter (fun t => negb (existsb (fun b => in_flight b && is_first_task d (b_id b) t)
                                   (builds d)))
           (buildtasks d).
Proof.
  unfold after_loop at 1. cbn [buildtasks]. rewrite building_after_scheduled.
  rewrite buildtasks_after_scheduled, filter_filter.
  apply filter_ext_in. intros t Ht. rewrite <- negb_orb. f_equal.
  rewrite !existsb_filter, <- existsb_orb. apply existsb_ext_in. intros b Hb.
  rewrite in_flight_cases. destruct (building b) eqn:Hbld.
  - assert (Hsame : is_first_task d1 (b_id b) t = is_first_task d (b_id b) t).
    { unfold is_first_task. now rewrite first_buildtask_after_scheduled. }
    rewrite Hsame. now destruct (scheduled b), (is_first_task d (b_id b) t).
  - now destruct (scheduled b), (is_first_task d (b_id b) t).
Qed.

End Recovery.

(** ** Startup recovery *)

(** [startup_scheduling] as two phases on the committed database. *)
Lemma startup_scheduling_phases w :
  startup_scheduling w
  = let w0 := mkWorld (committed w) (committed w) (events w) in
    let phase (state s : string) : W unit :=
      bs <-- query_builds state "deb" ;;
      match bs with
      | [] => ret tt
      | _ :: _ => for_W bs (drop_task_and (set_buildstate s)) ;;; session_commit
      end in
    match (phase "scheduled" "needs_build" ;;; phase "building" "failed") w0 with
    | (r, w') => (r, mkWorld (committed w') (committed w') (events w'))
    end.
Proof. reflexivity. Qed.

(** C8.  On a database whose rows have distinct keys and in which every
    package build that is scheduled or building has a BuildTask,
    [startup_scheduling] returns and has committed this: every build of
    type "deb" in state "scheduled" is in state "needs_build", every build
    of type "deb" in state "building" is in state "failed", every other
    build is as it was, and the BuildTask that the query finds for each of
    the former is gone.  [run] does this before it takes the first message
    of the queue. *)
Theorem startup_scheduling_recovers (w : World) :
  NoDup (map b_id (builds (committed w))) ->
  NoDup (map bt_id (buildtasks (committed w))) ->
  (forall b, In b (builds (committed w)) -> in_flight b = true ->
             first_buildtask (committed w) (b_id b) <> None) ->
  let d' :=
    mkDatabase
      (map recovered (builds (committed w)))
      (filter (fun t => negb (existsb (fun b => in_flight b
                                                && is_first_task (committed w) (b_id b) t)
                                      (builds (committed w))))
              (buildtasks (committed w))) in
  startup_scheduling w = (inr tt, mkWorld d' d' (events w)) /\
  (forall b t, In b (builds (committed w)) -> in_flight b = true ->
               first_buildtask (committed w) (b_id b) = Some t ->
               ~ In t (buildtasks d')) /\
  (forall str queue,
     run str queue w
     = (stopped <-- worker_loop str queue ;;
        if stopped then emit (LoggerInfo "terminating backend task") else ret tt)
         (mkWorld d' d' (events w))).
Proof.
  intros Hbuilds Htasks Hall d'.
  assert (Hrun : startup_scheduling w = (inr tt, mkWorld d' d' (events w))).
  { rewrite startup_scheduling_phases. cbv zeta.
    set (d := committed w) in *.
    set (S := filter (fun b => ((b_buildstate b =? "scheduled")
                                && (b_buildtype b =? "deb"))%string) (builds d)).
    unfold bindW at 1. unfold bindW at 1. unfold query_builds at 1. cbn [pending].
    fold S.
    rewrite (phase_completes "needs_build" S); cbn [pending committed events]; auto.
    - set (d1 := after_loop "needs_build" S d).
      unfold bindW at 1. unfold query_builds at 1. cbn [pending].
      rewrite (phase_completes "failed"); cbn [pending committed events]; auto.
      + f_equal. unfold d'. fold d. 
        rewrite <- (recovered_builds d Hbuilds), <- (recovered_buildtasks d Hbuilds Htasks).
        cbv zeta. fold S. fold d1.
        now destruct (after_loop "failed" _ d1).
      + apply NoDup_key_filter. apply (builds_keys_after_scheduled d Hbuilds).
      + unfold d1, after_loop. cbn [buildtasks]. now apply NoDup_key_filter.
      + intros b Hb. 
        pose proof (building_after_scheduled d Hbuilds) as Heq. cbv zeta in Heq.
        fold S in Heq. fold d1 in Heq. rewrite Heq in Hb.
        apply filter_In in Hb. destruct Hb as [Hb Hbld].
        pose proof (first_buildtask_after_scheduled d Hbuilds Htasks b Hb Hbld) as Hf.
        cbv zeta in Hf. fold S in Hf. fold d1 in Hf. rewrite Hf.
        apply Hall; [assumption|]. unfold in_flight.
        apply andb_prop in Hbld. destruct Hbld as [-> ->]. now rewrite orb_true_r.
    - now apply NoDup_key_filter.
    - intros b Hb. apply filter_In in Hb. destruct Hb as [Hb Hs].
      apply Hall; [assumption|]. unfold in_flight.
      apply andb_prop in Hs. destruct Hs as [-> ->]. reflexivity. }
  split; [exact Hrun|]. split.
  - intros b t Hb Hfl Ht Hin. unfold d' in Hin. cbn [buildtasks] in Hin.
    apply filter_In in Hin. destruct Hin as [_ Hin].
    apply negb_true_iff in Hin.
    assert (Hex : existsb (fun b0 => in_flight b0 && is_first_task (committed w) (b_id b0) t)
                          (builds (committed w)) = true).
    { apply existsb_exists. exists b. split; [assumption|].
      unfold is_first_task. now rewrite Hfl, Ht, Z.eqb_refl. }
    congruence.
  - intros str queue. unfold run. unfold bindW at 1. now rewrite Hrun.
Qed.

Ltac distinct_keys :=
  repeat constructor; simpl; intuition discriminate.

Lemma startup_scheduling_recovers_witness :
  startup_scheduling (mkWorld crashed crashed [])
  = (inr tt,
     mkWorld
       (mkDatabase [mkBuild 1 "needs_build" "deb" false (Some 5);
                    mkBuild 2 "failed" "deb" true (Some 5);
                    mkBuild 3 "successful" "deb" false (Some 5);
                    mkBuild 4 "scheduled" "chroot" false None;
                    mkBuild 5 "successful" "source" false (Some 6);
                    mkBuild 6 "successful" "build" false None]
                   [mkBuildTask 12 4])
       (mkDatabase [mkBuild 1 "needs_build" "deb" false (Some 5);
                    mkBuild 2 "failed" "deb" true (Some 5);
                    mkBuild 3 "successful" "deb" false (Some 5);
                    mkBuild 4 "scheduled" "chroot" false None;
                    mkBuild 5 "successful" "source" false (Some 6);
                    mkBuild 6 "successful" "build" false None]
                   [mkBuildTask 12 4])
       []).
Proof.
  assert (Htasked : forall b, In b (builds crashed) -> in_flight b = true ->
                              first_buildtask crashed (b_id b) <> None).
  { simpl. intros b [<-|[<-|[<-|[<-|[<-|[<-|[]]]]]]]; simpl; discriminate. }
  exact (proj1 (startup_scheduling_recovers (mkWorld crashed crashed [])
                  ltac:(distinct_keys) ltac:(distinct_keys) Htasked)).
Defined.

(** ** A failed build *)

Lemma find_build_id d i b : find_build d i = Some b -> b_id b = i.
Proof.
  unfold find_build. intros H. apply find_some in H. destruct H as [_ H].
  now apply Z.eqb_eq in H.
Qed.

(** [_failed] up to the first commit, for a build that is found and has a
    grandparent to log to. *)
Lemma _failed_found build_id w build p parent g :
  find_build (pending w) build_id = Some build ->
  b_parent build = Some p ->
  find_build (pending w) p = Some parent ->
  b_parent parent = Some g ->
  let failed :=
    map (fun b => if b_id b =? build_id then with_buildstate "failed" b else b)
        (builds (pending w)) in
  let line := WriteLog g ("E: build " +++ string_of_Z build_id +++ " failed" +++ newline) in
  _failed build_id w
  = match first_buildtask (pending w) build_id with
    | None =>
        (inl UnmappedInstanceError,
         mkWorld (mkDatabase failed (buildtasks (pending w)))
                 (mkDatabase failed (buildtasks (pending w)))
                 (events w ++ [line]))
    | Some t =>
        let d' := mkDatabase failed
                    (filter (fun t' => negb (bt_id t' =? bt_id t)) (buildtasks (pending w))) in
        (inr tt,
         mkWorld d' d'
                 ((events w ++ [line])
                  ++ (if b_is_ci build then [] else [SendMailNotification build_id])))
    end.
Proof.
  intros Hbuild Hp Hparent Hg failed line.
  pose proof (find_build_id _ _ _ Hbuild) as Hid.
  unfold _failed, bindW, query_build. rewrite Hbuild.
  unfold grandparent_id. rewrite Hp, Hparent, Hg.
  unfold emit, set_failed, set_buildstate, session_commit, query_buildtask.
  cbn [pending committed events builds buildtasks]. rewrite Hid.
  fold failed. fold line.
  change (first_buildtask (mkDatabase failed (buildtasks (pending w))) build_id)
    with (first_buildtask (pending w) build_id).
  destruct (first_buildtask (pending w) build_id) as [t|]; [|reflexivity].
  unfold session_delete. cbn [pending committed events builds buildtasks].
  destruct (b_is_ci build); simpl.
  - unfold ret. now rewrite app_nil_r.
  - reflexivity.
Qed.

(** The builds once the state of one of them is set: that build is in the
    state, with its other fields as they were, and no other build changed. *)
Lemma find_build_set_buildstate s d tasks build_id build :
  find_build d build_id = Some build ->
  let d' :=
    mkDatabase (map (fun b => if b_id b =? build_id then with_buildstate s b else b)
                    (builds d)) tasks in
  (exists b', find_build d' build_id = Some b' /\ b_buildstate b' = s /\
              b_id b' = build_id /\ b_buildtype b' = b_buildtype build /\
              b_is_ci b' = b_is_ci build /\ b_parent b' = b_parent build) /\
  (forall i, i <> build_id -> find_build d' i = find_build d i).
Proof.
  intros Hbuild d'. pose proof (find_build_id _ _ _ Hbuild) as Hid.
  assert (Hfind : forall i,
            find_build d' i
            = option_map (fun b => if b_id b =? build_id then with_buildstate s b else b)
                         (find_build d i)).
  { intros i. unfold find_build, d'. cbn [builds]. apply find_map_same_key.
    intros b. now destruct (b_id b =? build_id). }
  split.
  - exists (with_buildstate s build). rewrite Hfind, Hbuild. cbn [option_map].
    rewrite Hid, Z.eqb_refl. repeat split. exact Hid.
  - intros i Hne. rewrite Hfind.
    destruct (find_build d i) as [b|] eqn:Hb; [|reflexivity].
    cbn [option_map]. rewrite (find_build_id _ _ _ Hb).
    now destruct (Z.eqb_spec i build_id).
Qed.

(** C9.  When no build has the id, [_failed] logs an error and neither the
    session nor the database changes.  When the build is found, with a
    grandparent to log to and a BuildTask: it writes the error line to the
    log of the grandparent, the build is in state "failed" with its other
    fields as they were, no other build has changed, the BuildTask is
    deleted, all of it committed, and one mail notification is sent when the
    build is no CI build, none when it is one. *)
Theorem _failed_handles (build_id : Z) (w : World) :
  (find_build (pending w) build_id = None ->
   _failed build_id w
   = (inr tt,
      mkWorld (committed w) (pending w)
              (events w ++ [LoggerError ("build_failed: no build found for "
                                         +++ string_of_Z build_id)]))) /\
  (forall build p parent g t,
   find_build (pending w) build_id = Some build ->
   b_parent build = Some p ->
   find_build (pending w) p = Some parent ->
   b_parent parent = Some g ->
   first_buildtask (pending w) build_id = Some t ->
   let d' :=
     mkDatabase
       (map (fun b => if b_id b =? build_id then with_buildstate "failed" b else b)
            (builds (pending w)))
       (filter (fun t' => negb (bt_id t' =? bt_id t)) (buildtasks (pending w))) in
   _failed build_id w
   = (inr tt,
      mkWorld d' d'
        (events w
         ++ [WriteLog g ("E: build " +++ string_of_Z build_id +++ " failed" +++ newline)]
         ++ (if b_is_ci build then [] else [SendMailNotification build_id]))) /\
   (exists b', find_build d' build_id = Some b' /\ b_buildstate b' = "failed" /\
               b_id b' = build_id /\ b_buildtype b' = b_buildtype build /\
               b_is_ci b' = b_is_ci build /\ b_parent b' = b_parent build) /\
   (forall i, i <> build_id -> find_build d' i = find_build (pending w) i) /\
   ~ In t (buildtasks d')).
Proof.
  split.
  - intros Hnone. unfold _failed, bindW, query_build. now rewrite Hnone.
  - intros build p parent g t Hbuild Hp Hparent Hg Ht d'.
    rewrite (_failed_found build_id w build p parent g Hbuild Hp Hparent Hg), Ht.
    cbv zeta. fold d'. split; [do 2 f_equal; symmetry; apply app_assoc|].
    destruct (find_build_set_buildstate "failed" (pending w)
                (filter (fun t' => negb (bt_id t' =? bt_id t)) (buildtasks (pending w)))
                build_id build Hbuild) as [Hb Hothers].
    split; [exact Hb|]. split; [exact Hothers|].
    unfold d'. cbn [buildtasks]. intros Hin. apply filter_In in Hin.
    destruct Hin as [_ Hin]. now rewrite Z.eqb_refl in Hin.
Qed.

Lemma _failed_handles_witness :
  _failed 1 (mkWorld crashed crashed [])
  = (inr tt,
     mkWorld
       (mkDatabase [mkBuild 1 "failed" "deb" false (Some 5);
                    mkBuild 2 "building" "deb" true (Some 5);
                    mkBuild 3 "successful" "deb" false (Some 5);
                    mkBuild 4 "scheduled" "chroot" false None;
                    mkBuild 5 "successful" "source" false (Some 6);
                    mkBuild 6 "successful" "build" false None]
                   [mkBuildTask 11 2; mkBuildTask 12 4])
       (mkDatabase [mkBuild 1 "failed" "deb" false (Some 5);
                    mkBuild 2 "building" "deb" true (Some 5);
                    mkBuild 3 "successful" "deb" false (Some 5);
                    mkBuild 4 "scheduled" "chroot" false None;
                    mkBuild 5 "successful" "source" false (Some 6);
                    mkBuild 6 "successful" "build" false None]
                   [mkBuildTask 11 2; mkBuildTask 12 4])
       [WriteLog 6 ("E: build 1 failed" +++ newline); SendMailNotification 1]).
Proof.
  exact (proj1 (proj2 (_failed_handles 1 (mkWorld crashed crashed []))
                  (mkBuild 1 "scheduled" "deb" false (Some 5)) 5
                  (mkBuild 5 "successful" "source" false (Some 6)) 6 (mkBuildTask 10 1)
                  eq_refl eq_refl eq_refl eq_refl eq_refl)).
Defined.

(** Build 2 is a CI build: no mail. *)
Example _failed_ci :
  events (snd (_failed 2 (mkWorld crashed crashed [])))
  = [WriteLog 6 ("E: build 2 failed" +++ newline)].
Proof. reflexivity. Qed.

(** ** Builds without BuildTask *)



(** Startup recovery on the same database: build 1 is reset and its
    BuildTask deleted, committed, before the loop over the building builds
    raises at build 2. *)
Example startup_scheduling_orphaned :
  startup_scheduling (mkWorld orphaned orphaned [])
  = (inl UnmappedInstanceError,
     mkWorld
       (mkDatabase
          (map (fun b => if b_id b =? 1 then with_buildstate "needs_build" b else b)
               (builds orphaned))
          [mkBuildTask 12 4])
       (mkDatabase
          (map (fun b => if b_id b =? 1 then with_buildstate "needs_build" b else b)
               (builds orphaned))
          [mkBuildTask 12 4])
       []).
Proof. reflexivity. Qed.

(** ** The worker on a queue *)

Example split_basemirror : split_on "/" "stretch/9.6" = ["stretch"; "9.6"].
Proof. reflexivity. Qed.

Example split_two_slashes : split_on "/" "a/b/c" = ["a"; "b"; "c"].
Proof. reflexivity. Qed.

(** After the crash, a late "failed" for build 2 finds its BuildTask gone:
    the exception is logged and the worker goes on to the next message. *)
Example run_after_crash :
  events (snd (run (fun _ => "{}")
                 [Some (mkMessage [] None None (Some 2) false);
                  Some (mkMessage [] None None None false);
                  Some (mkMessage [] None (Some 3) None true);
                  None]
                 (mkWorld crashed crashed [])))
  = [WriteLog 6 ("E: build 2 failed" +++ newline);
     LoggerException UnmappedInstanceError;
     LoggerError "backend: got unknown task {}";
     AptlyPutPublish 3;
     TaskPutSchedule;
     LoggerInfo "backend:: got emtpy task, aborting...";
     LoggerInfo "terminating backend task"].
Proof. reflexivity. Qed.

(** * Further properties of the handlers *)

(** ** Updates of rows *)

Lemma update_pv_twice st i f g :
  (forall pv, pv_id (f pv) = pv_id pv) ->
  update_pv (update_pv st i f) i g = update_pv st i (fun pv => g (f pv)).
Proof.
  intros Hf. unfold update_pv. simpl. f_equal. rewrite map_map. apply map_ext.
  intros pv. destruct (pv_id pv =? i) eqn:E; [|now rewrite E].
  now rewrite Hf, E.
Qed.

Lemma update_pv_same st i f :
  (forall pv, In pv (projectversions st) -> pv_id pv = i -> f pv = pv) ->
  update_pv st i f = st.
Proof.
  intros Hf. unfold update_pv. destruct st as [ps pvs]. simpl in *. f_equal.
  rewrite <- (map_id pvs) at 2. apply map_ext_in. intros pv Hin.
  destruct (Z.eqb_spec (pv_id pv) i); auto.
Qed.

Lemma find_project_update_pv st i f j : find_project (update_pv st i f) j = find_project st j.
Proof. reflexivity. Qed.

(** An update that keeps keys and dependencies keeps the dependency graph. *)
Lemma edge_update_pv st i f :
  (forall pv, pv_id (f pv) = pv_id pv) ->
  (forall pv, pv_dependencies (f pv) = pv_dependencies pv) ->
  forall x y, edge (update_pv st i f) x y <-> edge st x y.
Proof.
  intros Hid Hdeps x y.
  assert (Hnode : forall z, node (update_pv st i f) z <-> node st z).
  { intros z. unfold node. rewrite find_pv_update_pv by assumption.
    destruct (find_pv st z); simpl; split; congruence. }
  unfold edge. rewrite find_pv_update_pv by assumption. split.
  - intros (pv & Hx & Hy & Hn).
    destruct (find_pv st x) as [pv0|]; [|discriminate]. simpl in Hx.
    injection Hx as <-. exists pv0. split; [reflexivity|]. split; [|now apply Hnode].
    destruct (pv_id pv0 =? i); [now rewrite Hdeps in Hy | assumption].
  - intros (pv & Hx & Hy & Hn). rewrite Hx. simpl.
    eexists. split; [reflexivity|]. split; [|now apply Hnode].
    destruct (pv_id pv =? i); [now rewrite Hdeps | assumption].
Qed.

Lemma depends_on_update_pv st i f :
  (forall pv, pv_id (f pv) = pv_id pv) ->
  (forall pv, pv_dependencies (f pv) = pv_dependencies pv) ->
  forall x y, depends_on (update_pv st i f) x y <-> depends_on st x y.
Proof.
  intros Hid Hdeps x y. unfold depends_on.
  split; intros H; induction H as [x y H|x z y _ IH1 _ IH2].
  - apply t_step. now apply (edge_update_pv st i f Hid Hdeps).
  - eapply t_trans; eauto.
  - apply t_step. now apply (edge_update_pv st i f Hid Hdeps).
  - eapply t_trans; eauto.
Qed.

(** ** Toggling CI builds *)

(** X1.  Toggling twice gives back the store as it was; each answer names the
    value the flag has taken. *)
Theorem post_projectversion_toggle_ci_twice
  (app : App) (pvid : Z) (pv : ProjectVersion) (n : string) :
  find_pv (db app) pvid = Some pv ->
  project_name (db app) pv = inr n ->
  let app1 :=
    mkApp (update_pv (db app) pvid
             (fun pv => set_ci_builds_enabled (negb (pv_ci_builds_enabled pv)) pv))
          (aptly_queue app) in
  post_projectversion_toggle_ci app (Some pvid)
  = (Ok (Response 200 ("Ci builds are now "
                       +++ (if pv_ci_builds_enabled pv then "disabled" else "enabled")
                       +++ ".")), app1) /\
  post_projectversion_toggle_ci app1 (Some pvid)
  = (Ok (Response 200 ("Ci builds are now "
                       +++ (if pv_ci_builds_enabled pv then "enabled" else "disabled")
                       +++ ".")), app).
Proof.
  intros Hpv Hn app1.
  assert (Hpv1 : find_pv (db app1) pvid
                 = Some (set_ci_builds_enabled (negb (pv_ci_builds_enabled pv)) pv)).
  { apply (find_pv_update_pv_same (db app) pvid
             (fun pv => set_ci_builds_enabled (negb (pv_ci_builds_enabled pv)) pv)); auto. }
  split.
  - unfold post_projectversion_toggle_ci. rewrite Hpv, Hn.
    now destruct (pv_ci_builds_enabled pv).
  - unfold post_projectversion_toggle_ci. rewrite Hpv1.
    replace (project_name (db app1) _) with (inr exn n)
      by (symmetry; exact Hn).
    cbn [pv_ci_builds_enabled set_ci_builds_enabled]. rewrite negb_involutive.
    f_equal.
    unfold app1. cbn [db aptly_queue]. rewrite update_pv_twice by reflexivity.
    rewrite update_pv_same.
    + now destruct app.
    + intros [] _ _. simpl. now rewrite negb_involutive.
Qed.

Lemma post_projectversion_toggle_ci_twice_witness :
  post_projectversion_toggle_ci
    (mkApp (update_pv mirrored 2
              (fun pv => set_ci_builds_enabled (negb (pv_ci_builds_enabled pv)) pv)) [])
    (Some 2)
  = (Ok (Response 200 "Ci builds are now disabled."), mkApp mirrored []).
Proof.
  exact (proj2 (post_projectversion_toggle_ci_twice (mkApp mirrored []) 2
                  (mkProjectVersion 2 "1.0" 1 (Some 1) ["amd64"] [] false false false) "P"
                  eq_refl eq_refl)).
Defined.

Lemma post_projectversion_lock_200 fuel app pvid text app1 :
  post_projectversion_lock fuel app (Some pvid) = (Ok (Response 200 text), app1) ->
  exists pv deps,
    find_pv (db app) pvid = Some pv /\
    deps_objects fuel (db app) pvid = Ok deps /\
    forallb (ref_is_locked (db app)) deps = true /\
    app1 = mkApp (update_pv (db app) pvid set_locked) (aptly_queue app).
Proof.
  unfold post_projectversion_lock.
  destruct (find_pv (db app) pvid) as [pv|]; [|discriminate].
  destruct (deps_objects fuel (db app) pvid) as [deps| |]; try discriminate.
  destruct (existsb _ deps) eqn:Hex; [discriminate|]. cbv zeta.
  destruct (project_name (db app) pv); [discriminate|].
  intros [= _ <-]. exists pv, deps. repeat split.
  apply forallb_forall. intros d Hd.
  destruct (ref_is_locked (db app) d) eqn:Hl; [reflexivity|].
  exfalso. assert (existsb (fun dep => negb (ref_is_locked (db app) dep)) deps = true).
  { apply existsb_exists. exists d. now rewrite Hl. }
  congruence.
Qed.

(** X2.  The lock handler turns CI builds off, and the toggle handler does not
    look at the lock: after a lock that was answered 200, a toggle turns CI
    builds on again, on a projectversion that stays locked. *)
Theorem post_projectversion_toggle_ci_after_lock
  (fuel : nat) (app app1 : App) (pvid : Z) (pv : ProjectVersion) (text n : string) :
  post_projectversion_lock fuel app (Some pvid) = (Ok (Response 200 text), app1) ->
  find_pv (db app) pvid = Some pv ->
  project_name (db app) pv = inr n ->
  exists app2 pv2,
    post_projectversion_toggle_ci app1 (Some pvid)
    = (Ok (Response 200 "Ci builds are now enabled."), app2) /\
    find_pv (db app2) pvid = Some pv2 /\
    pv_is_locked pv2 = true /\ pv_ci_builds_enabled pv2 = true.
Proof.
  intros Hlock Hpv Hn.
  apply post_projectversion_lock_200 in Hlock.
  destruct Hlock as (pv' & deps & Hpv' & _ & _ & ->). rewrite Hpv in Hpv'. injection Hpv' as <-.
  assert (Hpv1 : find_pv (update_pv (db app) pvid set_locked) pvid = Some (set_locked pv)).
  { apply find_pv_update_pv_same; auto. }
  eexists. eexists. split; [|split].
  - unfold post_projectversion_toggle_ci. cbn [db aptly_queue]. rewrite Hpv1.
    replace (project_name (update_pv (db app) pvid set_locked) (set_locked pv))
      with (inr exn n) by (symmetry; exact Hn).
    reflexivity.
  - cbn [db]. apply find_pv_update_pv_same; [reflexivity | exact Hpv1].
  - split; reflexivity.
Qed.

Lemma post_projectversion_toggle_ci_after_lock_witness :
  exists app2 pv2,
    post_projectversion_toggle_ci (mkApp (update_pv diamond 1 set_locked) []) (Some 1)
    = (Ok (Response 200 "Ci builds are now enabled."), app2) /\
    find_pv (db app2) 1 = Some pv2 /\
    pv_is_locked pv2 = true /\ pv_ci_builds_enabled pv2 = true.
Proof.
  exact (post_projectversion_toggle_ci_after_lock 4 (mkApp diamond []) _ 1
           (version 1 "1.0" [2; 3] false) "Locked Project Version" "P"
           eq_refl eq_refl eq_refl).
Defined.

(** ** Deleting a dependency *)

Lemma clos_trans_incl {A} (R R' : relation A) :
  (forall u v, R' u v -> R u v) -> forall x y, clos_trans A R' x y -> clos_trans A R x y.
Proof.
  intros HR x y H. induction H as [u v H|u w v _ IH1 _ IH2];
    [apply t_step; auto | eapply t_trans; eauto].
Qed.

Lemma list_remove_absent x l : ~ In x l -> list_remove x l = inl ValueError.
Proof.
  induction l as [|y l IH]; simpl; intros H; [reflexivity|].
  destruct (Z.eqb_spec y x) as [->|Hne]; [exfalso; auto|].
  rewrite IH; auto.
Qed.

Lemma list_remove_present x l :
  In x l ->
  exists r, list_remove x l = inr r /\
            (forall y, count_occ Z.eq_dec l y
                       = (count_occ Z.eq_dec r y + if Z.eq_dec x y then 1 else 0)%nat) /\
            incl r l.
Proof.
  induction l as [|a l IH]; simpl; intros H; [contradiction|].
  destruct (Z.eqb_spec a x) as [->|Hne].
  - exists l. split; [reflexivity|]. split.
    + intros y. destruct (Z.eq_dec x y); lia.
    + intros y Hy. now right.
  - destruct H as [H|H]; [contradiction|].
    destruct (IH H) as (r & -> & Hcount & Hincl). exists (a :: r).
    split; [reflexivity|]. split.
    + intros y. simpl. rewrite (Hcount y). destruct (Z.eq_dec a y); lia.
    + intros y [<-|Hy]; [now left | right; auto].
Qed.

Lemma list_remove_snoc x l : ~ In x l -> list_remove x (l ++ [x]) = inr l.
Proof.
  induction l as [|y l IH]; simpl; intros H.
  - now rewrite Z.eqb_refl.
  - destruct (Z.eqb_spec y x) as [->|Hne]; [exfalso; auto|].
    rewrite IH; auto.
Qed.

(** The handler once both ids are accepted, the projectversion is found and
    not locked, and the dependency is found. *)
Lemma delete_projectversion_dependency_found app A B pvA pvB :
  A <> 0 -> B <> 0 ->
  find_pv (db app) A = Some pvA -> pv_is_locked pvA = false ->
  find_pv (db app) B = Some pvB ->
  delete_projectversion_dependency app (Some A) (Some B)
  = match list_remove B (pv_dependencies pvA),
          slash_name (db app) pvA, slash_name (db app) pvB with
    | inr remaining, inr pv_fullname, inr dep_fullname =>
        (Ok (Response 200 ("Deleted dependency from " +++ pv_fullname
                           +++ " to " +++ dep_fullname)),
         mkApp (update_pv (db app) A (set_dependencies remaining)) (aptly_queue app))
    | inl e, _, _ => (Raised e, app)
    | _, inl e, _ => (Raised e, app)
    | _, _, inl e => (Raised e, app)
    end.
Proof.
  intros HA0 HB0 HA Hl HB. apply Z.eqb_neq in HA0, HB0.
  unfold delete_projectversion_dependency. cbn [falsy the_int].
  now rewrite HA0, HB0, HA, Hl, HB.
Qed.

(** X3.  Deleting a dependency that the projectversion does not have is no
    error of the handler: [list.remove] raises [ValueError], and nothing is
    changed. *)
Theorem delete_projectversion_dependency_absent
  (app : App) (A B : Z) (pvA pvB : ProjectVersion) :
  A <> 0 -> B <> 0 ->
  find_pv (db app) A = Some pvA -> pv_is_locked pvA = false ->
  find_pv (db app) B = Some pvB ->
  ~ In B (pv_dependencies pvA) ->
  delete_projectversion_dependency app (Some A) (Some B) = (Raised ValueError, app).
Proof.
  intros HA0 HB0 HA Hl HB Hnin.
  rewrite (delete_projectversion_dependency_found app A B pvA pvB) by assumption.
  now rewrite list_remove_absent.
Qed.

Lemma delete_projectversion_dependency_absent_witness :
  delete_projectversion_dependency (mkApp mirrored []) (Some 2) (Some 3)
  = (Raised ValueError, mkApp mirrored []).
Proof.
  apply (delete_projectversion_dependency_absent (mkApp mirrored []) 2 3
           (mkProjectVersion 2 "1.0" 1 (Some 1) ["amd64"] [] false false false)
           (mkProjectVersion 3 "1.1" 1 (Some 1) ["amd64"] [2] false false false));
    try discriminate; try reflexivity.
  simpl. tauto.
Defined.

(** X4.  Deleting a dependency that the projectversion has takes one
    occurrence of it out of the dependencies of that projectversion, leaves
    every other projectversion as it is, and closes no cycle. *)
Theorem delete_projectversion_dependency_removes
  (app : App) (A B : Z) (pvA pvB : ProjectVersion) (nA nB : string) :
  A <> 0 -> B <> 0 ->
  find_pv (db app) A = Some pvA -> pv_is_locked pvA = false ->
  find_pv (db app) B = Some pvB ->
  In B (pv_dependencies pvA) ->
  slash_name (db app) pvA = inr nA -> slash_name (db app) pvB = inr nB ->
  exists remaining app',
    delete_projectversion_dependency app (Some A) (Some B)
    = (Ok (Response 200 ("Deleted dependency from " +++ nA +++ " to " +++ nB)), app') /\
    find_pv (db app') A = Some (set_dependencies remaining pvA) /\
    (forall y, count_occ Z.eq_dec (pv_dependencies pvA) y
               = (count_occ Z.eq_dec remaining y + if Z.eq_dec B y then 1 else 0)%nat) /\
    (forall x, x <> A -> find_pv (db app') x = find_pv (db app) x) /\
    aptly_queue app' = aptly_queue app /\
    (acyclic (db app) -> acyclic (db app')).
Proof.
  intros HA0 HB0 HA Hl HB Hin HnA HnB.
  destruct (list_remove_present B _ Hin) as (remaining & Hrem & Hcount & Hincl).
  exists remaining. eexists. split; [|split; [|split; [|split; [|split]]]].
  - rewrite (delete_projectversion_dependency_found app A B pvA pvB) by assumption.
    rewrite Hrem, HnA, HnB. reflexivity.
  - cbn [db]. apply find_pv_update_pv_same; auto.
  - exact Hcount.
  - intros x Hx. cbn [db]. apply find_pv_update_pv_other; auto.
  - reflexivity.
  - cbn [db]. intros Hac x Hx. apply (Hac x).
    assert (Hedge : forall u v, edge (update_pv (db app) A (set_dependencies remaining)) u v ->
                                edge (db app) u v).
    { intros u v (pv & Hu & Hv & Hn).
      rewrite find_pv_update_pv in Hu by reflexivity.
      destruct (find_pv (db app) u) as [pv0|] eqn:Hu0; [|discriminate].
      simpl in Hu. injection Hu as <-. exists pv0. split; [exact Hu0|]. split.
      - pose proof (find_pv_id _ _ _ Hu0) as Hid. rewrite Hid in Hv.
        destruct (Z.eqb_spec u A) as [->|Hne]; [|assumption].
        rewrite HA in Hu0. injection Hu0 as <-. apply Hincl. exact Hv.
      - unfold node in *. rewrite find_pv_update_pv in Hn by reflexivity.
        destruct (find_pv (db app) v); [discriminate | now simpl in Hn]. }
    exact (clos_trans_incl _ _ Hedge x x Hx).
Qed.

Lemma delete_projectversion_dependency_removes_witness :
  exists remaining app',
    delete_projectversion_dependency (mkApp mirrored []) (Some 3) (Some 2)
    = (Ok (Response 200 "Deleted dependency from P/1.1 to P/1.0"), app') /\
    find_pv (db app') 3
    = Some (set_dependencies remaining
              (mkProjectVersion 3 "1.1" 1 (Some 1) ["amd64"] [2] false false false)) /\
    (forall y, count_occ Z.eq_dec [2] y
               = (count_occ Z.eq_dec remaining y + if Z.eq_dec 2 y then 1 else 0)%nat) /\
    (forall x, x <> 3 -> find_pv (db app') x = find_pv mirrored x) /\
    aptly_queue app' = [] /\
    (acyclic mirrored -> acyclic (db app')).
Proof.
  apply (delete_projectversion_dependency_removes (mkApp mirrored []) 3 2
           (mkProjectVersion 3 "1.1" 1 (Some 1) ["amd64"] [2] false false false)
           (mkProjectVersion 2 "1.0" 1 (Some 1) ["amd64"] [] false false false)
           "P/1.1" "P/1.0");
    try discriminate; try reflexivity.
  simpl. auto.
Defined.

(** ** Adding a dependency and taking it back *)

(** X5.  A dependency that the handler accepts closes no cycle: the store is
    acyclic afterwards when it was before. *)
Theorem post_projectversion_dependency_keeps_acyclic
  (fuel : nat) (app app' : App) (A B : Z) (text : string) :
  A <> 0 -> B <> 0 ->
  post_projectversion_dependency fuel app (Some A) (Some B) = (Ok (Response 200 text), app') ->
  acyclic (db app) -> acyclic (db app').
Proof.
  intros HA0 HB0 Hadd Hac.
  destruct (find_pv (db app) A) as [pvA|] eqn:HA.
  - rewrite (post_projectversion_dependency_found fuel app A B pvA HA0 HB0 HA) in Hadd.
    destruct (pv_is_locked pvA); [discriminate|].
    destruct (Z.eqb_spec B A) as [|Hne]; [discriminate|].
    destruct (get_projectversion_deps fuel B (db app)) as [dep_ids| |] eqn:Hdeps;
      try discriminate.
    destruct (existsb (Z.eqb A) dep_ids) eqn:Hex; [discriminate|].
    destruct (find_pv (db app) B) as [pvB|] eqn:HB; [|discriminate].
    injection Hadd as _ <-. cbn [db].
    apply acyclic_added; [exact Hac | congruence|].
    unfold get_projectversion_deps in Hdeps.
    destruct (deps_objects_Ok _ _ _ _ Hdeps) as (_ & Hmem & _).
    rewrite <- Hmem, <- existsb_eqb_In. congruence.
  - unfold post_projectversion_dependency in Hadd. cbn [falsy the_int] in Hadd.
    apply Z.eqb_neq in HA0, HB0. rewrite HA0, HB0, HA in Hadd. discriminate.
Qed.

Lemma post_projectversion_dependency_keeps_acyclic_witness :
  acyclic (update_pv (pair false) 1
             (fun pv => set_dependencies (pv_dependencies pv ++ [2]) pv)).
Proof.
  apply (post_projectversion_dependency_keeps_acyclic 3 (mkApp (pair false) [])
           (mkApp (update_pv (pair false) 1
                     (fun pv => set_dependencies (pv_dependencies pv ++ [2]) pv)) [])
           1 2 "Dependency added");
    try discriminate; try reflexivity.
  apply (acyclic_check _ 3). reflexivity.
Defined.

(** X6.  Adding a dependency that the projectversion did not have and
    deleting it again gives back the store as it was. *)
Theorem post_then_delete_projectversion_dependency
  (fuel : nat) (app app1 : App) (A B : Z) (pvA pvB : ProjectVersion) (text nA nB : string) :
  A <> 0 -> B <> 0 ->
  NoDup (map pv_id (projectversions (db app))) ->
  find_pv (db app) A = Some pvA -> find_pv (db app) B = Some pvB ->
  ~ In B (pv_dependencies pvA) ->
  slash_name (db app) pvA = inr nA -> slash_name (db app) pvB = inr nB ->
  post_projectversion_dependency fuel app (Some A) (Some B) = (Ok (Response 200 text), app1) ->
  delete_projectversion_dependency app1 (Some A) (Some B)
  = (Ok (Response 200 ("Deleted dependency from " +++ nA +++ " to " +++ nB)), app).
Proof.
  intros HA0 HB0 Hkeys HA HB Hnin HnA HnB Hadd.
  rewrite (post_projectversion_dependency_found fuel app A B pvA HA0 HB0 HA) in Hadd.
  destruct (pv_is_locked pvA) eqn:Hl; [discriminate|].
  destruct (Z.eqb_spec B A) as [|Hne]; [discriminate|].
  destruct (get_projectversion_deps fuel B (db app)) as [dep_ids| |]; try discriminate.
  destruct (existsb (Z.eqb A) dep_ids); [discriminate|].
  rewrite HB in Hadd. injection Hadd as _ <-.
  set (append := fun pv => set_dependencies (pv_dependencies pv ++ [B]) pv).
  assert (HA1 : find_pv (update_pv (db app) A append) A = Some (append pvA)).
  { apply find_pv_update_pv_same; auto. }
  assert (HB1 : find_pv (update_pv (db app) A append) B = Some pvB).
  { rewrite find_pv_update_pv_other; auto. }
  rewrite (delete_projectversion_dependency_found _ A B (append pvA) pvB); auto.
  cbn [db aptly_queue].
  change (pv_dependencies (append pvA)) with (pv_dependencies pvA ++ [B]).
  rewrite (list_remove_snoc B _ Hnin).
  replace (slash_name (update_pv (db app) A append) (append pvA)) with (inr exn nA)
    by (symmetry; exact HnA).
  replace (slash_name (update_pv (db app) A append) pvB) with (inr exn nB)
    by (symmetry; exact HnB).
  f_equal. rewrite update_pv_twice by reflexivity. rewrite update_pv_same.
  - now destruct app.
  - intros pv Hin Hid.
    assert (pv = pvA).
    { apply (NoDup_key_inj pv_id (projectversions (db app))); auto.
      - unfold find_pv in HA. now apply find_some in HA.
      - rewrite Hid. symmetry. eapply find_pv_id; eauto. }
    subst pv. unfold append. now destruct pvA.
Qed.

Lemma post_then_delete_projectversion_dependency_witness :
  delete_projectversion_dependency
    (mkApp (update_pv mirrored 2
              (fun pv => set_dependencies (pv_dependencies pv ++ [1]) pv)) [])
    (Some 2) (Some 1)
  = (Ok (Response 200 "Deleted dependency from P/1.0 to stretch/9.6"), mkApp mirrored []).
Proof.
  apply (post_then_delete_projectversion_dependency 3 (mkApp mirrored []) _ 2 1
           (mkProjectVersion 2 "1.0" 1 (Some 1) ["amd64"] [] false false false)
           (mkProjectVersion 1 "9.6" 2 None ["amd64"] [] true false false)
           "Dependency added" "P/1.0" "stretch/9.6");
    try discriminate; try reflexivity.
  - repeat constructor; simpl; intuition discriminate.
  - simpl. tauto.
Defined.

(** ** Locking and the dependency graph *)

Lemma existsb_negb_forallb {A} (f : A -> bool) l :
  existsb (fun a => negb (f a)) l = negb (forallb f l).
Proof.
  induction l as [|a l IH]; simpl; [reflexivity|].
  rewrite IH. now destruct (f a).
Qed.

(** X7.  On a store in which no cycle can be reached from the projectversion,
    the lock handler ends in one of three ways.  When a projectversion that
    can be reached from it along dependency edges is not locked, it answers
    400 "Dependencies of given projectversion must be locked" and nothing
    changes.  When all of them are locked the lock is committed, and the
    handler answers 200 when the project of the projectversion is in the
    store and raises [AttributeError] when it is not: [logger.info] reads
    the name of the project after the commit. *)
Theorem post_projectversion_lock_reachable
  (fuel : nat) (app : App) (pvid : Z) (pv : ProjectVersion) :
  find_pv (db app) pvid = Some pv ->
  acyclic_from (db app) pvid ->
  (List.length (projectversions (db app)) < fuel)%nat ->
  let app' := mkApp (update_pv (db app) pvid set_locked) (aptly_queue app) in
  ((exists y, depends_on (db app) pvid y /\ ref_is_locked (db app) y = false) /\
   post_projectversion_lock fuel app (Some pvid)
   = (Ok (ErrorResponse 400 "Dependencies of given projectversion must be locked"), app))
  \/
  ((forall y, depends_on (db app) pvid y -> ref_is_locked (db app) y = true) /\
   find_project (db app) (pv_project pv) <> None /\
   post_projectversion_lock fuel app (Some pvid)
   = (Ok (Response 200 "Locked Project Version"), app'))
  \/
  ((forall y, depends_on (db app) pvid y -> ref_is_locked (db app) y = true) /\
   find_project (db app) (pv_project pv) = None /\
   post_projectversion_lock fuel app (Some pvid) = (Raised AttributeError, app')).
Proof.
  intros Hpv Hac Hfuel app'.
  destruct (deps_objects_total fuel (db app) pvid Hac Hfuel) as (deps & Hdeps).
  destruct (deps_objects_Ok _ _ _ _ Hdeps) as (_ & Hmem & _).
  unfold post_projectversion_lock. rewrite Hpv, Hdeps, existsb_negb_forallb.
  destruct (forallb (ref_is_locked (db app)) deps) eqn:Hall; cbn [negb].
  - right. rewrite forallb_forall in Hall.
    assert (Hlocked : forall y, depends_on (db app) pvid y -> ref_is_locked (db app) y = true).
    { intros y Hy. apply Hall. now apply Hmem. }
    cbv zeta. unfold project_name.
    destruct (find_project (db app) (pv_project pv)) as [p|].
    + left. repeat split; [assumption | discriminate].
    + right. repeat split. assumption.
  - left. split; [|reflexivity]. apply forallb_false in Hall.
    destruct Hall as (y & Hy & Hl). exists y. split; [now apply Hmem | assumption].
Qed.

Lemma post_projectversion_lock_reachable_witness :
  post_projectversion_lock 2 (mkApp (mkStore [] [version 1 "1.0" [] false]) []) (Some 1)
  = (Raised AttributeError,
     mkApp (mkStore [] [mkProjectVersion 1 "1.0" 1 None ["amd64"] [] true false false]) []).
Proof.
  destruct (post_projectversion_lock_reachable 2
              (mkApp (mkStore [] [version 1 "1.0" [] false]) []) 1
              (version 1 "1.0" [] false) eq_refl
              (fits_acyclic (mkStore [] [version 1 "1.0" [] false]) 2 1 eq_refl)
              ltac:(simpl; lia))
    as [[_ H]|[(_ & Hp & _)|(_ & _ & H)]].
  - discriminate H.
  - exfalso. apply Hp. reflexivity.
  - exact H.
Defined.

Lemma ref_is_locked_set_locked st i x :
  ref_is_locked (update_pv st i set_locked) x = true <->
  (x = i /\ node st x) \/ ref_is_locked st x = true.
Proof.
  unfold ref_is_locked, node. rewrite find_pv_update_pv by reflexivity.
  destruct (find_pv st x) as [pv|] eqn:Hx; simpl.
  - rewrite (find_pv_id _ _ _ Hx). destruct (Z.eqb_spec x i); simpl.
    + split; [left; split; [assumption | discriminate] | reflexivity].
    + split; [now right | intros [[H _]|H]; [contradiction | assumption]].
  - split; [discriminate | intros [[_ H]|H]; [congruence | discriminate]].
Qed.

(** X8.  The lock handler keeps the store closed under locks: when whatever
    a locked projectversion depends on was locked before a lock that is
    answered 200, it is so afterwards. *)
Theorem post_projectversion_lock_keeps_lock_closed
  (fuel : nat) (app app1 : App) (pvid : Z) (text : string) :
  lock_closed (db app) ->
  post_projectversion_lock fuel app (Some pvid) = (Ok (Response 200 text), app1) ->
  lock_closed (db app1).
Proof.
  intros Hclosed Hlock. apply post_projectversion_lock_200 in Hlock.
  destruct Hlock as (pv & deps & Hpv & Hdeps & Hall & ->). cbn [db].
  destruct (deps_objects_Ok _ _ _ _ Hdeps) as (_ & Hmem & _).
  rewrite forallb_forall in Hall.
  intros x y Hx Hxy.
  apply depends_on_update_pv in Hxy; try reflexivity.
  apply ref_is_locked_set_locked. right.
  apply ref_is_locked_set_locked in Hx. destruct Hx as [[-> _]|Hx].
  - apply Hall. now apply Hmem.
  - eapply Hclosed; eauto.
Qed.

(** A store is closed under locks when the walk from each locked
    projectversion returns locked projectversions only. *)
Lemma lock_closed_check st fuel :
  forallb (fun pv => negb (pv_is_locked pv)
                     || match deps_objects fuel st (pv_id pv) with
                        | Ok deps => forallb (ref_is_locked st) deps
                        | _ => false
                        end)
          (projectversions st) = true ->
  lock_closed st.
Proof.
  intros H x y Hx Hxy. rewrite forallb_forall in H.
  unfold ref_is_locked in Hx. destruct (find_pv st x) as [pv|] eqn:Hpv; [|discriminate].
  assert (Hin : In pv (projectversions st)).
  { unfold find_pv in Hpv. now apply find_some in Hpv. }
  apply H in Hin. rewrite Hx, (find_pv_id _ _ _ Hpv) in Hin. simpl in Hin.
  destruct (deps_objects fuel st x) as [deps| |] eqn:Hdeps; try discriminate.
  destruct (deps_objects_Ok _ _ _ _ Hdeps) as (_ & Hmem & _).
  rewrite forallb_forall in Hin. apply Hin. now apply Hmem.
Qed.

Lemma post_projectversion_lock_keeps_lock_closed_witness :
  lock_closed (update_pv diamond 1 set_locked).
Proof.
  apply (post_projectversion_lock_keeps_lock_closed 5 (mkApp diamond [])
           (mkApp (update_pv diamond 1 set_locked) []) 1 "Locked Project Version");
    [|reflexivity].
  apply (lock_closed_check diamond 5). reflexivity.
Defined.

(** ** Marking as deleted, again *)

Lemma blocking_names_length st ds : forall acc names,
  for_each (fun blocking_dependants d =>
              if negb (pv_is_deleted d)
              then n <- call (slash_name st d) ;; Ok (blocking_dependants ++ [n])
              else Ok blocking_dependants)
           ds acc = Ok names ->
  List.length names
  = (List.length acc + List.length (filter (fun d => negb (pv_is_deleted d)) ds))%nat.
Proof.
  induction ds as [|d ds IH]; simpl; intros acc names H.
  - injection H as <-. lia.
  - apply bind_Ok in H. destruct H as (acc1 & H1 & H2). apply IH in H2.
    destruct (pv_is_deleted d); simpl in *.
    + injection H1 as <-. exact H2.
    + apply bind_Ok in H1. destruct H1 as (n & _ & [= <-]).
      rewrite length_app in H2. simpl in *. lia.
Qed.

Lemma blocking_names_nil st ds :
  match ds with
  | [] => Ok []
  | _ :: _ => blocking_names st ds
  end = Ok [] ->
  filter (fun d => negb (pv_is_deleted d)) ds = [].
Proof.
  intros H. destruct ds as [|d ds]; [reflexivity|].
  unfold blocking_names in H. apply blocking_names_length in H.
  apply length_zero_iff_nil. cbn [List.length Nat.add] in H. lia.
Qed.

(** What an answer 200 of the handler tells. *)
Lemma mark_delete_projectversion_200 app pvid text app1 :
  mark_delete_projectversion app (Some pvid) = (Ok (Response 200 text), app1) ->
  exists pv bm base_mirror_name pname,
    find_pv (db app) pvid = Some pv /\
    filter (fun d => negb (pv_is_deleted d)) (dependents (db app) pvid) = [] /\
    basemirror_of (db app) pv = inr bm /\
    project_name (db app) bm = inr base_mirror_name /\
    project_name (db app) pv = inr pname /\
    text = "Deleted Project Version" /\
    app1 = mkApp (update_pv (db app) pvid set_deleted)
                 (aptly_queue app ++
                  [drop_publish base_mirror_name (pv_name bm) pname (pv_name pv) "stable";
                   drop_publish base_mirror_name (pv_name bm) pname (pv_name pv) "unstable"]).
Proof.
  unfold mark_delete_projectversion.
  destruct (find_pv (db app) pvid) as [pv|] eqn:Hpv; [|discriminate].
  pose proof (blocking_names_nil (db app) (dependents (db app) pvid)) as Hnames.
  destruct (match dependents (db app) pvid with
            | [] => Ok []
            | _ :: _ => blocking_names (db app) (dependents (db app) pvid)
            end) as [[|n ns]| |]; try discriminate.
  destruct (basemirror_of (db app) pv) as [e|bm] eqn:Hbm; [discriminate|].
  destruct (project_name (db app) bm) as [e|bn] eqn:Hbn; [discriminate|].
  destruct (project_name (db app) pv) as [e|pn] eqn:Hpn; [discriminate|].
  intros [= <- <-]. exists pv, bm, bn, pn. repeat split; auto.
Qed.

Lemma dependents_update_pv st i f x :
  (forall pv, pv_dependencies (f pv) = pv_dependencies pv) ->
  dependents (update_pv st i f) x
  = map (fun pv => if pv_id pv =? i then f pv else pv) (dependents st x).
Proof.
  intros Hdeps. unfold dependents, update_pv. simpl.
  induction (projectversions st) as [|pv l IH]; simpl; [reflexivity|].
  assert (Hsame : existsb (Z.eqb x)
                    (pv_dependencies (if pv_id pv =? i then f pv else pv))
                  = existsb (Z.eqb x) (pv_dependencies pv)).
  { destruct (pv_id pv =? i); [now rewrite Hdeps | reflexivity]. }
  rewrite Hsame. destruct (existsb (Z.eqb x) (pv_dependencies pv)); simpl; now rewrite IH.
Qed.

Lemma filter_nil_all {A} (f : A -> bool) l : filter f l = [] -> forall a, In a l -> f a = false.
Proof.
  induction l as [|x l IH]; simpl; intros H a Ha; [contradiction|].
  destruct (f x) eqn:Hx; [discriminate|]. destruct Ha as [<-|Ha]; auto.
Qed.

(** X9.  Marking as deleted keeps deletions closed: when no projectversion
    that is not deleted depended on a deleted one before a mark-delete that
    is answered 200, none does afterwards. *)
Theorem mark_delete_projectversion_keeps_deleted_closed
  (app app1 : App) (pvid : Z) (text : string) :
  deleted_closed (db app) ->
  mark_delete_projectversion app (Some pvid) = (Ok (Response 200 text), app1) ->
  deleted_closed (db app1).
Proof.
  intros Hclosed Hdel. apply mark_delete_projectversion_200 in Hdel.
  destruct Hdel as (pv & bm & bn & pn & Hpv & Hblocking & _ & _ & _ & _ & ->). cbn [db].
  intros x pv' d' Hx Hdeleted Hd'.
  rewrite dependents_update_pv in Hd' by reflexivity.
  apply in_map_iff in Hd'. destruct Hd' as (d & <- & Hd).
  assert (Hd_deleted : pv_is_deleted d = true).
  { rewrite find_pv_update_pv in Hx by reflexivity.
    destruct (find_pv (db app) x) as [pv0|] eqn:Hx0; [|discriminate].
    simpl in Hx. injection Hx as <-. pose proof (find_pv_id _ _ _ Hx0) as Hid.
    rewrite Hid in Hdeleted. destruct (Z.eqb_spec x pvid) as [->|Hne].
    - apply (filter_nil_all _ _ Hblocking) in Hd. now apply negb_false_iff in Hd.
    - eapply Hclosed; eauto. }
  destruct (pv_id d =? pvid); [reflexivity | assumption].
Qed.

Lemma deleted_closed_check st :
  forallb (fun pv => negb (pv_is_deleted pv)
                     || forallb pv_is_deleted (dependents st (pv_id pv)))
          (projectversions st) = true ->
  deleted_closed st.
Proof.
  intros H x pv d Hx Hdel Hd. rewrite forallb_forall in H.
  assert (Hin : In pv (projectversions st)).
  { unfold find_pv in Hx. now apply find_some in Hx. }
  apply H in Hin. rewrite Hdel, (find_pv_id _ _ _ Hx) in Hin. simpl in Hin.
  rewrite forallb_forall in Hin. now apply Hin.
Qed.

Lemma mark_delete_projectversion_keeps_deleted_closed_witness :
  deleted_closed (update_pv mirrored 3 set_deleted).
Proof.
  apply (mark_delete_projectversion_keeps_deleted_closed (mkApp mirrored [])
           (mkApp (update_pv mirrored 3 set_deleted)
                  [drop_publish "stretch" "9.6" "P" "1.1" "stable";
                   drop_publish "stretch" "9.6" "P" "1.1" "unstable"])
           3 "Deleted Project Version");
    [|reflexivity].
  apply deleted_closed_check. reflexivity.
Defined.

(** X10.  The handler does not look at [is_deleted] of the projectversion
    itself: a mark-delete that was answered 200 is answered 200 again, leaves
    the store as the first one made it, and puts the same two [drop_publish]
    tasks on the queue once more. *)
Theorem mark_delete_projectversion_again
  (app app1 : App) (pvid : Z) (text : string) :
  mark_delete_projectversion app (Some pvid) = (Ok (Response 200 text), app1) ->
  exists t1 t2,
    aptly_queue app1 = aptly_queue app ++ [t1; t2] /\
    mark_delete_projectversion app1 (Some pvid)
    = (Ok (Response 200 text), mkApp (db app1) (aptly_queue app1 ++ [t1; t2])).
Proof.
  intros Hdel. apply mark_delete_projectversion_200 in Hdel.
  destruct Hdel as (pv & bm & bn & pn & Hpv & Hblocking & Hbm & Hbn & Hpn & -> & ->).
  eexists. eexists. split; [reflexivity|].
  cbn [db aptly_queue]. unfold mark_delete_projectversion. cbn [db aptly_queue].
  rewrite (find_pv_update_pv_same _ _ _ pv) by auto.
  rewrite (blocking_names_Ok _ _ []).
  2: { rewrite dependents_update_pv by reflexivity.
       replace (filter _ (map _ _)) with (@nil ProjectVersion); [reflexivity|].
       symmetry. induction (dependents (db app) pvid) as [|d ds IH]; [reflexivity|].
       simpl in Hblocking. destruct (pv_is_deleted d) eqn:Hd; [|discriminate].
       simpl in *. replace (pv_is_deleted (if pv_id d =? pvid then set_deleted d else d))
         with true by (destruct (pv_id d =? pvid); [reflexivity | now rewrite Hd]).
       simpl. now apply IH. }
  assert (Hbm1 : exists bm1, basemirror_of (update_pv (db app) pvid set_deleted)
                               (set_deleted pv) = inr bm1 /\
                             pv_name bm1 = pv_name bm /\ pv_project bm1 = pv_project bm).
  { unfold basemirror_of in *. cbn [pv_basemirror set_deleted].
    destruct (pv_basemirror pv) as [b|]; [|discriminate].
    rewrite find_pv_update_pv by reflexivity.
    destruct (find_pv (db app) b) as [bm0|]; [|discriminate]. injection Hbm as ->.
    simpl. eexists. split; [reflexivity|]. now destruct (pv_id bm =? pvid). }
  destruct Hbm1 as (bm1 & -> & Hname & Hproj).
  unfold project_name in *. rewrite !find_project_update_pv, Hproj.
  cbn [pv_project set_deleted pv_name]. rewrite Hname.
  destruct (find_project (db app) (pv_project bm)); [|discriminate]. injection Hbn as ->.
  destruct (find_project (db app) (pv_project pv)); [|discriminate]. injection Hpn as ->.
  f_equal. f_equal. rewrite update_pv_twice by reflexivity.
  unfold update_pv. apply f_equal. apply map_ext. intros r. now destruct (pv_id r =? pvid).
Qed.

Lemma mark_delete_projectversion_again_witness :
  exists t1 t2,
    [drop_publish "stretch" "9.6" "P" "1.1" "stable";
     drop_publish "stretch" "9.6" "P" "1.1" "unstable"] = [] ++ [t1; t2] /\
    mark_delete_projectversion
      (mkApp (update_pv mirrored 3 set_deleted)
             [drop_publish "stretch" "9.6" "P" "1.1" "stable";
              drop_publish "stretch" "9.6" "P" "1.1" "unstable"]) (Some 3)
    = (Ok (Response 200 "Deleted Project Version"),
       mkApp (update_pv mirrored 3 set_deleted)
             ([drop_publish "stretch" "9.6" "P" "1.1" "stable";
               drop_publish "stretch" "9.6" "P" "1.1" "unstable"] ++ [t1; t2])).
Proof.
  exact (mark_delete_projectversion_again (mkApp mirrored []) _ 3
           "Deleted Project Version" eq_refl).
Defined.

(** X11.  Marking as deleted locks without the check that the lock handler
    makes.  Whenever the mark-delete handler answers 200 for a
    projectversion that has a dependency in the store that is not locked, on
    a store in which no cycle can be reached from it: the lock handler
    refuses the same projectversion on the same store, and the mark-delete
    handler leaves it locked with the dependency unlocked, so that the store
    is not closed under locks any more. *)
Theorem mark_delete_projectversion_locks_unchecked
  (fuel : nat) (app app1 : App) (pvid d : Z) (pv pvd : ProjectVersion) (text : string) :
  mark_delete_projectversion app (Some pvid) = (Ok (Response 200 text), app1) ->
  find_pv (db app) pvid = Some pv ->
  In d (pv_dependencies pv) ->
  find_pv (db app) d = Some pvd -> pv_is_locked pvd = false ->
  acyclic_from (db app) pvid ->
  (List.length (projectversions (db app)) < fuel)%nat ->
  post_projectversion_lock fuel app (Some pvid)
  = (Ok (ErrorResponse 400 "Dependencies of given projectversion must be locked"), app) /\
  ref_is_locked (db app1) pvid = true /\
  depends_on (db app1) pvid d /\
  ref_is_locked (db app1) d = false /\
  ~ lock_closed (db app1).
Proof.
  intros Hdel Hpv Hd Hpvd Hunlocked Hac Hfuel.
  apply mark_delete_projectversion_200 in Hdel.
  destruct Hdel as (pv0 & bm & bn & pn & Hpv0 & _ & _ & _ & _ & _ & ->). cbn [db].
  destruct (deps_objects_total fuel (db app) pvid Hac Hfuel) as (deps & Hdeps).
  destruct (deps_objects_Ok _ _ _ _ Hdeps) as (_ & Hmem & _).
  assert (Hedge : depends_on (db app) pvid d).
  { apply t_step. exists pv. repeat split; auto. unfold node. congruence. }
  assert (Hne : d <> pvid).
  { intros ->. exact (Hac pvid (rt_refl _ _ _) Hedge). }
  assert (Hlocked : ref_is_locked (update_pv (db app) pvid set_deleted) pvid = true).
  { unfold ref_is_locked.
    now rewrite (find_pv_update_pv_same _ _ set_deleted pv) by auto. }
  assert (Hedge1 : depends_on (update_pv (db app) pvid set_deleted) pvid d).
  { now apply depends_on_update_pv. }
  assert (Hd1 : ref_is_locked (update_pv (db app) pvid set_deleted) d = false).
  { unfold ref_is_locked. now rewrite find_pv_update_pv_other, Hpvd by auto. }
  split; [|repeat split; try assumption].
  - unfold post_projectversion_lock. rewrite Hpv, Hdeps.
    assert (Hex : existsb (fun dep => negb (ref_is_locked (db app) dep)) deps = true).
    { apply existsb_exists. exists d. split; [now apply Hmem|].
      unfold ref_is_locked. now rewrite Hpvd, Hunlocked. }
    now rewrite Hex.
  - intros Hclosed. rewrite (Hclosed pvid d Hlocked Hedge1) in Hd1. discriminate.
Qed.

Lemma mark_delete_projectversion_locks_unchecked_witness :
  post_projectversion_lock 4 (mkApp mirrored []) (Some 3)
  = (Ok (ErrorResponse 400 "Dependencies of given projectversion must be locked"),
     mkApp mirrored []) /\
  ref_is_locked (update_pv mirrored 3 set_deleted) 3 = true /\
  depends_on (update_pv mirrored 3 set_deleted) 3 2 /\
  ref_is_locked (update_pv mirrored 3 set_deleted) 2 = false /\
  ~ lock_closed (update_pv mirrored 3 set_deleted).
Proof.
  exact (mark_delete_projectversion_locks_unchecked 4 (mkApp mirrored [])
           (mkApp (update_pv mirrored 3 set_deleted)
                  [drop_publish "stretch" "9.6" "P" "1.1" "stable";
                   drop_publish "stretch" "9.6" "P" "1.1" "unstable"])
           3 2
           (mkProjectVersion 3 "1.1" 1 (Some 1) ["amd64"] [2] false false false)
           (mkProjectVersion 2 "1.0" 1 (Some 1) ["amd64"] [] false false false)
           "Deleted Project Version"
           eq_refl eq_refl (or_introl eq_refl) eq_refl eq_refl
           (fits_acyclic mirrored 4 3 eq_refl) ltac:(simpl; lia)).
Defined.

(** ** Creating a projectversion, again *)

Lemma split_on_length sep s :
  List.length (split_on sep s)
  = S (count_occ Ascii.ascii_dec (list_ascii_of_string s) sep).
Proof.
  induction s as [|c s IH]; [reflexivity|].
  cbn [split_on list_ascii_of_string count_occ].
  destruct (Ascii.ascii_dec c sep) as [->|Hne].
  - rewrite Ascii.eqb_refl. simpl. now rewrite IH.
  - apply Ascii.eqb_neq in Hne. rewrite Hne.
    destruct (split_on sep s) as [|w ws]; [discriminate | exact IH].
Qed.

Lemma contains_count c s :
  (1 <= count_occ Ascii.ascii_dec (list_ascii_of_string s) c)%nat -> contains c s = true.
Proof.
  induction s as [|c' s IH]; cbn [contains list_ascii_of_string count_occ]; [lia|].
  destruct (Ascii.ascii_dec c' c) as [->|Hne].
  - now rewrite Ascii.eqb_refl.
  - intros H. rewrite (IH H). apply orb_true_r.
Qed.

Lemma fresh_id_above st pv : In pv (projectversions st) -> pv_id pv < fresh_id st.
Proof.
  unfold fresh_id. induction (projectversions st) as [|x l IH];
    cbn [In map fold_right]; [contradiction|].
  intros [<-|H]; [lia | specialize (IH H); lia].
Qed.

Lemma find_pv_fresh_id st : find_pv st (fresh_id st) = None.
Proof.
  destruct (find_pv st (fresh_id st)) as [pv|] eqn:H; [|reflexivity].
  unfold find_pv in H. apply find_some in H. destruct H as [Hin Heq].
  apply Z.eqb_eq in Heq. apply fresh_id_above in Hin. lia.
Qed.

(** The rows found after a row was added. *)
Lemma find_pv_added st new j :
  find_pv (mkStore (projects st) (projectversions st ++ [new])) j
  = match find_pv st j with
    | Some pv => Some pv
    | None => if pv_id new =? j then Some new else None
    end.
Proof.
  unfold find_pv. cbn [projectversions].
  destruct (find _ (projectversions st)) as [pv|] eqn:H.
  - induction (projectversions st) as [|x l IH]; simpl in *; [discriminate|].
    destruct (pv_id x =? j); [assumption | now apply IH].
  - exact (find_snoc _ _ new H).
Qed.

(** A row without dependencies that is added closes no cycle. *)
Lemma acyclic_row_added st new :
  find_pv st (pv_id new) = None -> pv_dependencies new = [] ->
  acyclic st -> acyclic (mkStore (projects st) (projectversions st ++ [new])).
Proof.
  intros Hfresh Hdeps Hac.
  set (st' := mkStore (projects st) (projectversions st ++ [new])).
  assert (Hsource : forall x y, edge st' x y -> find_pv st x <> None).
  { intros x y (pv & Hx & Hy & _). unfold st' in Hx. rewrite find_pv_added in Hx.
    destruct (find_pv st x); [discriminate|].
    destruct (pv_id new =? x); [|discriminate]. injection Hx as <-.
    rewrite Hdeps in Hy. contradiction. }
  assert (Hedge : forall x y, edge st' x y -> find_pv st y <> None -> edge st x y).
  { intros x y Hxy Hy. pose proof (Hsource _ _ Hxy) as Hx.
    destruct Hxy as (pv & Hpv & Hin & _). unfold st' in Hpv. rewrite find_pv_added in Hpv.
    destruct (find_pv st x) as [pv0|] eqn:Hx0; [|congruence]. injection Hpv as ->.
    exists pv. repeat split; auto. }
  assert (Hpath : forall x y, clos_trans_n1 Z (edge st') x y ->
                              find_pv st y <> None -> depends_on st x y).
  { intros x y H. induction H as [y Hxy|y z Hyz _ IH]; intros Hnode.
    - apply t_step. now apply Hedge.
    - eapply t_trans; [apply IH; eapply Hsource; eauto | apply t_step; now apply Hedge]. }
  intros x Hc. apply (Hac x). apply Hpath; [now apply clos_trans_tn1|].
  destruct (trans_first_step _ _ _ _ Hc) as (z & Hxz & _). eapply Hsource; eauto.
Qed.

Section CreateResult.

Variable is_name_valid : string -> bool.
Variable sql_int_eq_text : Z -> string -> bool.
Variable query_basemirror : Store -> string -> string -> exn + option ProjectVersion.

Abbreviation create' :=
  (create_projectversions is_name_valid sql_int_eq_text query_basemirror).

(** What the JSON answer of the handler tells. *)
Lemma create_projectversions_json app project_id params i n app1 :
  create' app project_id params = (Ok (JsonIdName i n), app1) ->
  exists basemirror bn bv project bm,
    param_name params = Some n /\ param_basemirror params = Some basemirror /\
    split_on "/" basemirror = [bn; bv] /\
    lookup_project sql_int_eq_text (db app) project_id = Some project /\
    query_name_and_project (db app) n project = None /\
    query_basemirror (db app) bn bv = inr (Some bm) /\
    i = fresh_id (db app) /\
    app1 = mkApp (mkStore (projects (db app))
                          (projectversions (db app) ++
                           [mkProjectVersion (fresh_id (db app)) n (p_id project)
                              (Some (pv_id bm)) (param_architectures params)
                              [] false false false]))
                 (aptly_queue app ++
                  [init_repository (fresh_id (db app)) bn bv (p_name project) n
                     (param_architectures params)]).
Proof.
  unfold create_projectversions. cbv zeta.
  destruct (project_id =? "")%string; [discriminate|].
  destruct (str_falsy (param_name params)); [discriminate|].
  destruct (str_falsy (param_basemirror params) || _); [discriminate|].
  destruct (param_architectures params) as [|a archs] eqn:Harchs; [discriminate|].
  destruct (param_name params) as [name|] eqn:Hname; [|discriminate].
  destruct (param_basemirror params) as [basemirror|] eqn:Hbasemirror; [|discriminate].
  destruct (negb (is_name_valid name)); [discriminate|].
  destruct (split_on "/" basemirror) as [|bn [|bv [|x l]]] eqn:Hsplit; try discriminate.
  destruct (lookup_project _ _ _) as [project|] eqn:Hproject; [|discriminate].
  destruct (query_name_and_project _ _ _) as [pv|] eqn:Hquery; [discriminate|].
  destruct (query_basemirror _ _ _) as [e|[bm|]] eqn:Hbm; try discriminate.
  cbn [pv_id pv_name]. intros [= <- <- <-].
  exists basemirror, bn, bv, project, bm. repeat split; auto.
Qed.

(** X12.  A basemirror with more than one slash passes the check of the
    fields and then fails to unpack: the handler raises [ValueError] before it
    looks for the project, and nothing is stored or enqueued. *)
Theorem create_projectversions_two_slashes
  (app : App) (project_id name bmref : string) (archs : list string) :
  project_id <> "" -> name <> "" -> is_name_valid name = true -> archs <> [] ->
  (2 <= count_occ Ascii.ascii_dec (list_ascii_of_string bmref) "/"%char)%nat ->
  create' app project_id (mkParams (Some name) archs (Some bmref))
  = (Raised ValueError, app).
Proof.
  intros Hid Hname Hvalid Harchs Hcount.
  unfold create_projectversions.
  cbn [param_name param_architectures param_basemirror].
  apply String.eqb_neq in Hid. rewrite Hid.
  assert (Hn : str_falsy (Some name) = false) by (destruct name; [congruence | reflexivity]).
  rewrite Hn.
  assert (Hb : str_falsy (Some bmref) = false).
  { destruct bmref; [simpl in Hcount; lia | reflexivity]. }
  rewrite Hb, contains_count by lia. cbn [orb negb].
  destruct archs; [congruence|]. rewrite Hvalid. cbn [negb].
  pose proof (split_on_length "/" bmref) as Hlen.
  destruct (split_on "/" bmref) as [|a [|b [|c l]]]; try reflexivity.
  simpl in Hlen. lia.
Qed.

(** X13.  A projectversion that is created comes without dependencies,
    unlocked and not deleted, on the projectversion that the base mirror
    query returned, which is in the store when the query selects among the
    rows of the store; and every projectversion that was in the store is
    found as before. *)
Theorem create_projectversions_adds_row
  (app app1 : App) (project_id : string) (params : create_params) (i : Z) (n : string) :
  (forall st bn bv bm, query_basemirror st bn bv = inr (Some bm) ->
                       In bm (projectversions st)) ->
  create' app project_id params = (Ok (JsonIdName i n), app1) ->
  (exists pv bm,
     find_pv (db app1) i = Some pv /\ pv_name pv = n /\ pv_dependencies pv = [] /\
     pv_is_locked pv = false /\ pv_is_deleted pv = false /\
     pv_architectures pv = param_architectures params /\
     pv_basemirror pv = Some bm /\ node (db app) bm) /\
  (forall j pv, find_pv (db app) j = Some pv -> find_pv (db app1) j = Some pv) /\
  projects (db app1) = projects (db app).
Proof.
  intros Hrows H. apply create_projectversions_json in H.
  destruct H as (basemirror & bn & bv & project & bm & _ & _ & _ & _ & _ & Hbm & -> & ->).
  cbn [db]. split; [|split; [|reflexivity]].
  - eexists. exists (pv_id bm). rewrite find_pv_added, find_pv_fresh_id.
    cbn [pv_id]. rewrite Z.eqb_refl. repeat split.
    apply Hrows in Hbm. rename Hbm into Hin.
    unfold node, find_pv.
    destruct (find (fun pv => pv_id pv =? pv_id bm) (projectversions (db app))) eqn:Hf;
      [discriminate|].
    apply (find_none _ _ Hf) in Hin. now rewrite Z.eqb_refl in Hin.
  - intros j pv Hj. now rewrite find_pv_added, Hj.
Qed.

(** X14.  Creating a projectversion closes no dependency cycle. *)
Theorem create_projectversions_keeps_acyclic
  (app app1 : App) (project_id : string) (params : create_params) (i : Z) (n : string) :
  acyclic (db app) ->
  create' app project_id params = (Ok (JsonIdName i n), app1) ->
  acyclic (db app1).
Proof.
  intros Hac H. apply create_projectversions_json in H.
  destruct H as (basemirror & bn & bv & project & bm & _ & _ & _ & _ & _ & _ & -> & ->).
  cbn [db]. apply acyclic_row_added; [apply find_pv_fresh_id | reflexivity | assumption].
Qed.

End CreateResult.

Lemma create_projectversions_two_slashes_witness :
  create_projectversions (fun _ => true) (fun _ _ => false) owned_by (mkApp mirrored []) "P"
    (mkParams (Some "1.0.0") ["amd64"] (Some "debian/stretch/9.6"))
  = (Raised ValueError, mkApp mirrored []).
Proof.
  apply (create_projectversions_two_slashes (fun _ => true) (fun _ _ => false) owned_by
           (mkApp mirrored []) "P" "1.0.0" "debian/stretch/9.6" ["amd64"]);
    [discriminate | discriminate | reflexivity | discriminate | simpl; lia].
Defined.

Lemma create_projectversions_adds_row_witness :
  (exists pv bm,
     find_pv (mkStore (projects mirrored)
                (projectversions mirrored ++
                 [mkProjectVersion 4 "1.0.0" 1 (Some 1) ["amd64"] [] false false false])) 4
     = Some pv /\ pv_name pv = "1.0.0" /\ pv_dependencies pv = [] /\
     pv_is_locked pv = false /\ pv_is_deleted pv = false /\
     pv_architectures pv = ["amd64"] /\
     pv_basemirror pv = Some bm /\ node mirrored bm) /\
  (forall j pv, find_pv mirrored j = Some pv ->
                find_pv (mkStore (projects mirrored)
                           (projectversions mirrored ++
                            [mkProjectVersion 4 "1.0.0" 1 (Some 1) ["amd64"] []
                               false false false])) j = Some pv) /\
  projects mirrored = projects mirrored.
Proof.
  apply (create_projectversions_adds_row (fun _ => true) (fun _ _ => false) owned_by
           (mkApp mirrored [])
           (mkApp (mkStore (projects mirrored)
                     (projectversions mirrored ++
                      [mkProjectVersion 4 "1.0.0" 1 (Some 1) ["amd64"] [] false false false]))
                  [init_repository 4 "stretch" "9.6" "P" "1.0.0" ["amd64"]])
           "P"
           (mkParams (Some "1.0.0") ["amd64"] (Some "stretch/9.6")) 4 "1.0.0");
    [|reflexivity].
  intros st bn bv bm [= H]. now apply find_some in H.
Defined.

Lemma create_projectversions_keeps_acyclic_witness :
  acyclic (mkStore (projects mirrored)
             (projectversions mirrored ++
              [mkProjectVersion 4 "1.0.0" 1 (Some 1) ["amd64"] [] false false false])).
Proof.
  apply (create_projectversions_keeps_acyclic (fun _ => true) (fun _ _ => false) owned_by
           (mkApp mirrored [])
           (mkApp (mkStore (projects mirrored)
                     (projectversions mirrored ++
                      [mkProjectVersion 4 "1.0.0" 1 (Some 1) ["amd64"] [] false false false]))
                  [init_repository 4 "stretch" "9.6" "P" "1.0.0" ["amd64"]])
           "P" (mkParams (Some "1.0.0") ["amd64"] (Some "stretch/9.6")) 4 "1.0.0");
    [apply (acyclic_check _ 3); reflexivity | reflexivity].
Defined.

(** ** Refusals *)

(** X15.  A request that a handler refuses with an error response changes
    nothing: the store and the queue of the aptly worker are the ones the
    handler was given. *)
Theorem error_response_changes_nothing
  (is_name_valid : string -> bool) (sql_int_eq_text : Z -> string -> bool)
  (query_basemirror : Store -> string -> string -> exn + option ProjectVersion)
  (fuel : nat) (app : App) (projectversion_id dependency_id : option Z)
  (project_id : string) (params : create_params) (r : outcome response * App) :
  In r [post_projectversion_dependency fuel app projectversion_id dependency_id;
        delete_projectversion_dependency app projectversion_id dependency_id;
        post_projectversion_lock fuel app projectversion_id;
        post_projectversion_toggle_ci app projectversion_id;
        mark_delete_projectversion app projectversion_id;
        create_projectversions is_name_valid sql_int_eq_text query_basemirror
          app project_id params] ->
  is_error (fst r) = true ->
  snd r = app.
Proof.
  intros Hin Herr.
  destruct Hin as [<-|[<-|[<-|[<-|[<-|[<-|[]]]]]]]; revert Herr.
  - unfold post_projectversion_dependency. cbv zeta.
    repeat match goal with
           | |- context [if ?c then _ else _] => destruct c
           | |- context [match ?c with _ => _ end] => destruct c
           end; simpl; congruence.
  - unfold delete_projectversion_dependency. cbv zeta.
    repeat match goal with
           | |- context [if ?c then _ else _] => destruct c
           | |- context [match ?c with _ => _ end] => destruct c
           end; simpl; congruence.
  - unfold post_projectversion_lock.
    repeat match goal with
           | |- context [if ?c then _ else _] => destruct c
           | |- context [match ?c with _ => _ end] => destruct c
           end; simpl; congruence.
  - unfold post_projectversion_toggle_ci. cbv zeta.
    destruct projectversion_id as [pvid|]; [|reflexivity].
    destruct (find_pv (db app) pvid); [|reflexivity].
    destruct (project_name (db app) p); simpl; discriminate.
  - unfold mark_delete_projectversion.
    destruct projectversion_id as [pvid|]; [|reflexivity].
    destruct (find_pv (db app) pvid) as [pv|]; [|reflexivity].
    destruct (match dependents (db app) pvid with
              | [] => Ok []
              | _ :: _ => blocking_names (db app) (dependents (db app) pvid)
              end) as [[|n ns]| |]; try reflexivity.
    destruct (basemirror_of (db app) pv) as [e|bm]; [reflexivity|].
    destruct (project_name (db app) bm), (project_name (db app) pv);
      simpl; congruence.
  - unfold create_projectversions. cbv zeta.
    destruct (project_id =? "")%string; [reflexivity|].
    destruct (str_falsy (param_name params)); [reflexivity|].
    destruct (str_falsy (param_basemirror params) || _); [reflexivity|].
    destruct (param_architectures params) as [|a archs]; [reflexivity|].
    destruct (param_name params) as [name|]; [|reflexivity].
    destruct (param_basemirror params) as [basemirror|]; [|reflexivity].
    destruct (negb (is_name_valid name)); [reflexivity|].
    destruct (split_on "/" basemirror) as [|bn [|bv [|x l]]]; try reflexivity.
    destruct (lookup_project _ _ _) as [project|]; [|reflexivity].
    destruct (query_name_and_project _ _ _) as [pv|]; [reflexivity|].
    destruct (query_basemirror _ _ _) as [e|[bm|]]; [reflexivity | discriminate | reflexivity].
Qed.

Lemma error_response_changes_nothing_witness :
  snd (post_projectversion_lock 5 (mkApp diamond []) (Some 7)) = mkApp diamond [].
Proof.
  apply (error_response_changes_nothing (fun _ => true) (fun _ _ => false) owned_by 5
           (mkApp diamond []) (Some 7) (Some 1) "P" (mkParams None [] None)).
  - right. right. left. reflexivity.
  - reflexivity.
Defined.

(** ** The loop of the worker *)

Section LoopFacts.

Variable str : message -> string.

(** A computation that leaves the events it found and may add some. *)
Abbreviation appends m := (forall w : World, exists l, events (snd (m w)) = events w ++ l).

Lemma appends_keeps {A} (m : W A) : (forall w, events (snd (m w)) = events w) -> appends m.
Proof. intros H w. exists []. now rewrite app_nil_r. Qed.

Lemma appends_emit e : appends (emit e).
Proof. intros w. now exists [e]. Qed.

Lemma appends_bindW {A B} (m : W A) (k : A -> W B) :
  appends m -> (forall a, appends (k a)) -> appends (bindW m k).
Proof.
  intros Hm Hk w. unfold bindW. destruct (Hm w) as (l1 & H1).
  destruct (m w) as [[e|a] w1]; cbn [snd] in *; [eauto|].
  destruct (Hk a w1) as (l2 & H2). exists (l1 ++ l2). now rewrite H2, H1, app_assoc.
Qed.

Lemma appends_with_session {A} (body : W A) : appends body -> appends (with_session body).
Proof.
  intros Hbody w. unfold with_session.
  destruct (Hbody (mkWorld (committed w) (committed w) (events w))) as (l & H).
  destruct (body _) as [r w']. cbn [snd events] in *. eauto.
Qed.

Lemma appends_started build_id : appends (_started build_id).
Proof.
  unfold _started. apply appends_bindW; [now apply appends_keeps|]. intros [build|].
  - repeat (apply appends_bindW; [|intros ?]);
      try apply appends_emit; apply appends_keeps; intros w; try reflexivity.
    unfold grandparent_id. destruct (b_parent build) as [p|]; [|reflexivity].
    destruct (find_build (pending w) p) as [parent|]; [|reflexivity].
    now destruct (b_parent parent).
  - apply appends_emit.
Qed.

Lemma appends_failed build_id : appends (_failed build_id).
Proof.
  unfold _failed. apply appends_bindW; [now apply appends_keeps|]. intros [build|].
  - repeat (apply appends_bindW; [|intros ?]);
      try apply appends_emit; try (apply appends_keeps; intros w; reflexivity).
    + apply appends_keeps. intros w.
      unfold grandparent_id. destruct (b_parent build) as [p|]; [|reflexivity].
      destruct (find_build (pending w) p) as [parent|]; [|reflexivity].
      now destruct (b_parent parent).
    + apply appends_keeps. intros w. unfold session_delete.
      match goal with |- context [match ?t with Some _ => _ | None => _ end] =>
        now destruct t end.
    + destruct (negb (b_is_ci build)); [apply appends_emit | now apply appends_keeps].
  - apply appends_emit.
Qed.

Lemma appends_when_id build_id (handler : Z -> W unit) handled :
  (forall i, appends (handler i)) -> appends (when_id build_id handler handled).
Proof.
  intros H. unfold when_id. destruct (falsy build_id); [now apply appends_keeps|].
  apply appends_bindW; [apply H | intros _; now apply appends_keeps].
Qed.

Lemma appends_handle task : appends (handle str task).
Proof.
  unfold handle. apply appends_bindW.
  - apply appends_with_session.
    apply appends_bindW.
    { destruct (m_schedule task); [now apply appends_keeps|].
      apply appends_bindW; [apply appends_emit | intros _; now apply appends_keeps]. }
    intros h0. apply appends_bindW; [apply appends_when_id, appends_started|].
    intros h1. apply appends_bindW; [apply appends_when_id; intros i; apply appends_emit|].
    intros h2. apply appends_bindW; [apply appends_when_id, appends_failed|].
    intros h3. destruct (m_node_registered task); [|now apply appends_keeps].
    apply appends_bindW; [apply appends_emit | intros _; now apply appends_keeps].
  - intros handled. destruct (negb handled); [apply appends_emit | now apply appends_keeps].
Qed.

(** An exception of the body is caught and logged. *)
Lemma logged_run body w :
  logged body w
  = match body w with
    | (inr _, w1) => (inr tt, w1)
    | (inl e, w1) =>
        (inr tt, mkWorld (committed w1) (pending w1) (events w1 ++ [LoggerException e]))
    end.
Proof. unfold logged. now destruct (body w) as [[e|[]] w1]. Qed.

Lemma appends_logged body : appends body -> appends (logged body).
Proof.
  intros Hbody w. rewrite logged_run. destruct (Hbody w) as (l & H).
  destruct (body w) as [[e|u] w1]; cbn [snd events] in *; [|eauto].
  exists (l ++ [LoggerException e]). now rewrite H, app_assoc.
Qed.

(** X16.  The loop of the worker never raises, whatever the handlers do, and
    ends if and only if a [None] was put on the queue; the events it leaves
    are those it found and what it added.  When the handlers of a message
    raise, the exception is logged and the loop goes on with the next
    message, from the world the handlers left. *)
Theorem worker_loop_never_raises (queue : list (option message)) (w : World) :
  (exists stopped w' added,
     worker_loop str queue w = (inr stopped, w') /\
     (stopped = true <-> In None queue) /\
     events w' = events w ++ added) /\
  (forall task e w1,
     handle str task w = (inl e, w1) ->
     worker_loop str (Some task :: queue) w
     = worker_loop str queue
         (mkWorld (committed w1) (pending w1) (events w1 ++ [LoggerException e]))).
Proof.
  split.
  - revert w. induction queue as [|[task|] queue IH]; intros w.
    + exists false, w, []. split; [reflexivity|].
      split; [split; [discriminate | contradiction] | now rewrite app_nil_r].
    + cbn [worker_loop]. unfold bindW at 1.
      destruct (appends_logged _ (appends_handle task) w) as (l1 & H1).
      assert (Hrun : exists w1, logged (handle str task) w = (inr tt, w1)).
      { rewrite logged_run. destruct (handle str task w) as [[e|u] w1]; eauto. }
      destruct Hrun as (w1 & Hrun). rewrite Hrun in *. cbn [snd] in H1.
      destruct (IH w1) as (stopped & w' & l2 & -> & Hiff & H2).
      exists stopped, w', (l1 ++ l2). split; [reflexivity|]. split.
      * rewrite Hiff. simpl. split; [auto | intros [H|H]; [discriminate | assumption]].
      * now rewrite H2, H1, app_assoc.
    + cbn [worker_loop]. unfold bindW, emit, ret. eexists. eexists. eexists.
      split; [reflexivity|]. split; [split; [simpl; auto | reflexivity]|].
      cbn [events]. reflexivity.
  - intros task e w1 Hraise. cbn [worker_loop]. unfold bindW at 1.
    now rewrite logged_run, Hraise.
Qed.

(** X17.  What is put on the queue after a [None] is never handled. *)
Theorem run_ignores_after_None (before after : list (option message)) (w : World) :
  worker_loop str (before ++ None :: after) w = worker_loop str (before ++ [None]) w /\
  run str (before ++ None :: after) w = run str (before ++ [None]) w.
Proof.
  assert (Hloop : forall w0, worker_loop str (before ++ None :: after) w0
                             = worker_loop str (before ++ [None]) w0).
  { induction before as [|[task|] before IH]; intros w0; [reflexivity| |reflexivity].
    cbn [app worker_loop]. unfold bindW.
    destruct (logged (handle str task) w0) as [[e|[]] w1]; [reflexivity | apply IH]. }
  split; [apply Hloop|].
  unfold run. unfold bindW at 1 3. destruct (startup_scheduling w) as [[e|[]] w0];
    [reflexivity|].
  unfold bindW. now rewrite Hloop.
Qed.

(** X18.  A message in which no key has a value that counts as true, a build
    id of 0 among them, is handled by no handler: one error is logged, and
    the database stays as committed. *)
Theorem handle_unknown_task (task : message) (w : World) :
  m_schedule task = [] ->
  falsy (m_started task) = true ->
  falsy (m_succeeded task) = true ->
  falsy (m_failed task) = true ->
  m_node_registered task = false ->
  handle str task w
  = (inr tt, mkWorld (committed w) (committed w)
               (events w ++ [LoggerError ("backend: got unknown task " +++ str task)])).
Proof.
  intros Hschedule Hstarted Hsucceeded Hfailed Hnode.
  unfold handle, when_id. rewrite Hschedule, Hstarted, Hsucceeded, Hfailed, Hnode.
  reflexivity.
Qed.

End LoopFacts.

(** Build 5 has no grandparent: its "failed" raises, the exception is logged,
    and the "started" of build 3 that follows is handled. *)
Lemma worker_loop_never_raises_witness :
  worker_loop (fun _ => "")
    [Some (mkMessage [] None None (Some 5) false);
     Some (mkMessage [] (Some 3) None None false)]
    (mkWorld crashed crashed [])
  = (inr false,
     mkWorld
       (mkDatabase [mkBuild 1 "scheduled" "deb" false (Some 5);
                    mkBuild 2 "building" "deb" true (Some 5);
                    mkBuild 3 "building" "deb" false (Some 5);
                    mkBuild 4 "scheduled" "chroot" false None;
                    mkBuild 5 "successful" "source" false (Some 6);
                    mkBuild 6 "successful" "build" false None]
                   [mkBuildTask 10 1; mkBuildTask 11 2; mkBuildTask 12 4])
       (mkDatabase [mkBuild 1 "scheduled" "deb" false (Some 5);
                    mkBuild 2 "building" "deb" true (Some 5);
                    mkBuild 3 "building" "deb" false (Some 5);
                    mkBuild 4 "scheduled" "chroot" false None;
                    mkBuild 5 "successful" "source" false (Some 6);
                    mkBuild 6 "successful" "build" false None]
                   [mkBuildTask 10 1; mkBuildTask 11 2; mkBuildTask 12 4])
       [LoggerException AttributeError; WriteLog 6 ("I: started build 3" +++ newline)]).
Proof.
  exact (proj2 (worker_loop_never_raises (fun _ => "")
                  [Some (mkMessage [] (Some 3) None None false)]
                  (mkWorld crashed crashed []))
           (mkMessage [] None None (Some 5) false) AttributeError
           (mkWorld crashed crashed []) eq_refl).
Defined.

Lemma handle_unknown_task_witness :
  handle (fun _ => "{'started': 0}") (mkMessage [] (Some 0) None None false)
         (mkWorld crashed crashed [])
  = (inr tt, mkWorld crashed crashed
               [LoggerError "backend: got unknown task {'started': 0}"]).
Proof.
  exact (handle_unknown_task (fun _ => "{'started': 0}")
           (mkMessage [] (Some 0) None None false) (mkWorld crashed crashed [])
           eq_refl eq_refl eq_refl eq_refl eq_refl).
Defined.

(** ** A started build *)

(** X19.  When no build has the id, [_started] logs an error and changes
    nothing.  When the build is found, with a grandparent to log to, it
    writes the line to the log of the grandparent and commits the state
    "building" of the build, its other fields staying as they were; no other
    build changes and the BuildTasks stay. *)
Theorem _started_handles (build_id : Z) (w : World) :
  (find_build (pending w) build_id = None ->
   _started build_id w
   = (inr tt,
      mkWorld (committed w) (pending w)
              (events w ++ [LoggerError ("build_started: no build found for "
                                         +++ string_of_Z build_id)]))) /\
  (forall build p parent g,
   find_build (pending w) build_id = Some build ->
   b_parent build = Some p ->
   find_build (pending w) p = Some parent ->
   b_parent parent = Some g ->
   let d' :=
     mkDatabase
       (map (fun b => if b_id b =? build_id then with_buildstate "building" b else b)
            (builds (pending w)))
       (buildtasks (pending w)) in
   _started build_id w
   = (inr tt,
      mkWorld d' d'
        (events w
         ++ [WriteLog g ("I: started build " +++ string_of_Z build_id +++ newline)])) /\
   (exists b', find_build d' build_id = Some b' /\ b_buildstate b' = "building" /\
               b_id b' = build_id /\ b_buildtype b' = b_buildtype build /\
               b_is_ci b' = b_is_ci build /\ b_parent b' = b_parent build) /\
   (forall i, i <> build_id -> find_build d' i = find_build (pending w) i) /\
   buildtasks d' = buildtasks (pending w)).
Proof.
  split.
  - intros Hnone. unfold _started, bindW, query_build. now rewrite Hnone.
  - intros build p parent g Hbuild Hp Hparent Hg d'.
    pose proof (find_build_id _ _ _ Hbuild) as Hid.
    destruct (find_build_set_buildstate "building" (pending w) (buildtasks (pending w))
                build_id build Hbuild) as [Hb Hothers].
    split; [|split; [exact Hb | split; [exact Hothers | reflexivity]]].
    unfold _started, bindW, query_build. rewrite Hbuild.
    unfold grandparent_id. rewrite Hp, Hparent, Hg.
    unfold emit, set_building, set_buildstate, session_commit.
    cbn [pending committed events builds buildtasks]. now rewrite Hid.
Qed.

Lemma _started_handles_witness :
  _started 3 (mkWorld crashed crashed [])
  = (inr tt,
     mkWorld
       (mkDatabase [mkBuild 1 "scheduled" "deb" false (Some 5);
                    mkBuild 2 "building" "deb" true (Some 5);
                    mkBuild 3 "building" "deb" false (Some 5);
                    mkBuild 4 "scheduled" "chroot" false None;
                    mkBuild 5 "successful" "source" false (Some 6);
                    mkBuild 6 "successful" "build" false None]
                   [mkBuildTask 10 1; mkBuildTask 11 2; mkBuildTask 12 4])
       (mkDatabase [mkBuild 1 "scheduled" "deb" false (Some 5);
                    mkBuild 2 "building" "deb" true (Some 5);
                    mkBuild 3 "building" "deb" false (Some 5);
                    mkBuild 4 "scheduled" "chroot" false None;
                    mkBuild 5 "successful" "source" false (Some 6);
                    mkBuild 6 "successful" "build" false None]
                   [mkBuildTask 10 1; mkBuildTask 11 2; mkBuildTask 12 4])
       [WriteLog 6 ("I: started build 3" +++ newline)]).
Proof.
  exact (proj1 (proj2 (_started_handles 3 (mkWorld crashed crashed []))
                  (mkBuild 3 "successful" "deb" false (Some 5)) 5
                  (mkBuild 5 "successful" "source" false (Some 6)) 6
                  eq_refl eq_refl eq_refl eq_refl)).
Defined.

(** X20.  A build without a grandparent has no log to write to: [_started]
    and [_failed] raise [AttributeError] when they are called for it, before
    they set a state, so that the build stays in the state it was in and
    nothing is written, deleted or sent. *)
Theorem no_grandparent_raises (build_id : Z) (build : Build) (w : World) :
  find_build (pending w) build_id = Some build ->
  (forall p parent, b_parent build = Some p ->
                    find_build (pending w) p = Some parent ->
                    b_parent parent = None) ->
  _started build_id w = (inl AttributeError, w) /\
  _failed build_id w = (inl AttributeError, w).
Proof.
  intros Hbuild Hnone.
  assert (Hg : grandparent_id build w = (inl AttributeError, w)).
  { unfold grandparent_id. destruct (b_parent build) as [p|]; [|reflexivity].
    destruct (find_build (pending w) p) as [parent|] eqn:Hparent; [|reflexivity].
    now rewrite (Hnone p parent eq_refl Hparent). }
  split.
  - unfold _started, bindW at 1, query_build. rewrite Hbuild.
    unfold bindW at 1. now rewrite Hg.
  - unfold _failed, bindW at 1, query_build. rewrite Hbuild.
    unfold bindW at 1. now rewrite Hg.
Qed.

Lemma no_grandparent_raises_witness :
  _started 5 (mkWorld crashed crashed []) = (inl AttributeError, mkWorld crashed crashed []) /\
  _failed 5 (mkWorld crashed crashed []) = (inl AttributeError, mkWorld crashed crashed []).
Proof.
  apply (no_grandparent_raises 5 (mkBuild 5 "successful" "source" false (Some 6))
           (mkWorld crashed crashed []) eq_refl).
  intros p parent [= <-] [= <-]. reflexivity.
Defined.

(** ** Startup recovery, again *)

Lemma filter_none {A} (f : A -> bool) l :
  (forall a, In a l -> f a = false) -> filter f l = [].
Proof.
  induction l as [|x l IH]; simpl; intros H; [reflexivity|].
  rewrite (H x) by auto. apply IH. auto.
Qed.

(** The first phase of [startup_scheduling], over the scheduled builds. *)
Lemma scheduled_phase_completes (d : Database) (ev : list event) :
  NoDup (map b_id (builds d)) ->
  NoDup (map bt_id (buildtasks d)) ->
  (forall b, In b (builds d) ->
             ((b_buildstate b =? "scheduled") && (b_buildtype b =? "deb"))%string = true ->
             first_buildtask d (b_id b) <> None) ->
  let S := filter (fun b => ((b_buildstate b =? "scheduled")
                             && (b_buildtype b =? "deb"))%string) (builds d) in
  (bs <-- query_builds "scheduled" "deb" ;;
   match bs with
   | [] => ret tt
   | _ :: _ => for_W bs (drop_task_and (set_buildstate "needs_build")) ;;; session_commit
   end) (mkWorld d d ev)
  = (inr tt, mkWorld (after_loop "needs_build" S d) (after_loop "needs_build" S d) ev).
Proof.
  intros Hbuilds Htasks Hall S.
  unfold bindW at 1. unfold query_builds at 1. cbn [pending]. fold S.
  rewrite (phase_completes "needs_build" S); cbn [pending committed events]; auto.
  - now apply NoDup_key_filter.
  - intros b Hb. apply filter_In in Hb. destruct Hb as [Hb Hs]. now apply Hall.
Qed.

(** [startup_scheduling] when every package build on its way has a BuildTask. *)
Lemma startup_scheduling_completes (w : World) :
  NoDup (map b_id (builds (committed w))) ->
  NoDup (map bt_id (buildtasks (committed w))) ->
  (forall b, In b (builds (committed w)) -> in_flight b = true ->
             first_buildtask (committed w) (b_id b) <> None) ->
  exists tasks,
    startup_scheduling w
    = (inr tt, mkWorld (mkDatabase (map recovered (builds (committed w))) tasks)
                       (mkDatabase (map recovered (builds (committed w))) tasks)
                       (events w)).
Proof.
  intros Hbuilds Htasks Hall.
  rewrite startup_scheduling_phases. cbv zeta.
  set (d := committed w) in *.
  set (S := filter (fun b => ((b_buildstate b =? "scheduled")
                              && (b_buildtype b =? "deb"))%string) (builds d)).
  unfold bindW at 1.
  rewrite (scheduled_phase_completes d (events w) Hbuilds Htasks).
  2: { intros b Hb Hs. apply Hall; [assumption|]. unfold in_flight.
       apply andb_prop in Hs. destruct Hs as [-> ->]. reflexivity. }
  cbv zeta. fold S.
  set (d1 := after_loop "needs_build" S d).
  unfold bindW at 1. unfold query_builds at 1. cbn [pending].
  rewrite (phase_completes "failed"); cbn [pending committed events]; auto.
  - exists (buildtasks (after_loop "failed"
                          (filter (fun b => ((b_buildstate b =? "building")
                                             && (b_buildtype b =? "deb"))%string)
                                  (builds d1)) d1)).
    rewrite <- (recovered_builds d Hbuilds). cbv zeta. fold S. fold d1.
    now destruct (after_loop "failed" _ d1).
  - apply NoDup_key_filter. apply (builds_keys_after_scheduled d Hbuilds).
  - unfold d1, after_loop. cbn [buildtasks]. now apply NoDup_key_filter.
  - intros b Hb.
    pose proof (building_after_scheduled d Hbuilds) as Heq. cbv zeta in Heq.
    fold S in Heq. fold d1 in Heq. rewrite Heq in Hb.
    apply filter_In in Hb. destruct Hb as [Hb Hbld].
    pose proof (first_buildtask_after_scheduled d Hbuilds Htasks b Hb Hbld) as Hf.
    cbv zeta in Hf. fold S in Hf. fold d1 in Hf. rewrite Hf.
    apply Hall; [assumption|]. unfold in_flight.
    apply andb_prop in Hbld. destruct Hbld as [-> ->]. now rewrite orb_true_r.
Qed.

(** No package build is on its way once it is recovered. *)
Lemma recovered_not_in_flight b : in_flight (recovered b) = false.
Proof.
  unfold recovered, in_flight.
  destruct ((b_buildstate b =? "scheduled") && (b_buildtype b =? "deb"))%string eqn:H1.
  - cbn [with_buildstate b_buildtype b_buildstate].
    apply andb_prop in H1. destruct H1 as [_ ->]. reflexivity.
  - destruct ((b_buildstate b =? "building") && (b_buildtype b =? "deb"))%string eqn:H2.
    + cbn [with_buildstate b_buildtype b_buildstate].
      apply andb_prop in H2. destruct H2 as [_ ->]. reflexivity.
    + destruct (b_buildtype b =? "deb")%string; [|reflexivity].
      rewrite andb_true_r in H1, H2. now rewrite H1, H2.
Qed.

(** [startup_scheduling] when no package build is on its way. *)
Lemma startup_scheduling_idle (w : World) :
  (forall b, In b (builds (committed w)) -> in_flight b = false) ->
  startup_scheduling w = (inr tt, mkWorld (committed w) (committed w) (events w)).
Proof.
  intros Hidle. rewrite startup_scheduling_phases. cbv zeta.
  assert (Hnone : forall state,
            state = "scheduled" \/ state = "building" ->
            filter (fun b => ((b_buildstate b =? state) && (b_buildtype b =? "deb"))%string)
                   (builds (committed w)) = []).
  { intros state Hstate. apply filter_none. intros b Hb. apply Hidle in Hb.
    unfold in_flight in Hb.
    destruct Hstate as [-> | ->];
      destruct (b_buildtype b =? "deb")%string, (b_buildstate b =? "scheduled")%string,
               (b_buildstate b =? "building")%string; simpl in *; congruence. }
  unfold bindW, query_builds. cbn [pending].
  rewrite (Hnone "scheduled") by auto. unfold ret. cbn [pending].
  now rewrite (Hnone "building") by auto.
Qed.

(** X21.  Startup recovery leaves nothing for a second one to do: after it
    completed no package build is scheduled or building, and another
    [startup_scheduling], as on the next start of the worker, changes
    nothing. *)
Theorem startup_scheduling_twice (w : World) :
  NoDup (map b_id (builds (committed w))) ->
  NoDup (map bt_id (buildtasks (committed w))) ->
  (forall b, In b (builds (committed w)) -> in_flight b = true ->
             first_buildtask (committed w) (b_id b) <> None) ->
  exists w',
    startup_scheduling w = (inr tt, w') /\
    (forall b, In b (builds (committed w')) -> in_flight b = false) /\
    startup_scheduling w' = (inr tt, w').
Proof.
  intros Hbuilds Htasks Hall.
  destruct (startup_scheduling_completes w Hbuilds Htasks Hall) as (tasks & Hrun).
  eexists. split; [exact Hrun|].
  assert (Hidle : forall b, In b (map recovered (builds (committed w))) ->
                            in_flight b = false).
  { intros b Hb. apply in_map_iff in Hb. destruct Hb as (b0 & <- & _).
    apply recovered_not_in_flight. }
  split; [exact Hidle|].
  now rewrite startup_scheduling_idle.
Qed.

Lemma startup_scheduling_twice_witness :
  exists w',
    startup_scheduling (mkWorld crashed crashed []) = (inr tt, w') /\
    (forall b, In b (builds (committed w')) -> in_flight b = false) /\
    startup_scheduling w' = (inr tt, w').
Proof.
  apply (startup_scheduling_twice (mkWorld crashed crashed [])
           ltac:(distinct_keys) ltac:(distinct_keys)).
  simpl. intros b [<-|[<-|[<-|[<-|[<-|[<-|[]]]]]]]; simpl; discriminate.
Defined.

(** X22.  Startup recovery is committed in two steps.  When a scheduled
    package build has no BuildTask, it raises and the database stays as it
    was committed.  When the scheduled ones all have theirs and a building
    one has none, it raises after the first commit: the scheduled builds are
    in state "needs_build" and the building ones are still building. *)
Theorem startup_scheduling_raises_between (w : World) :
  NoDup (map b_id (builds (committed w))) ->
  NoDup (map bt_id (buildtasks (committed w))) ->
  let scheduled b := ((b_buildstate b =? "scheduled") && (b_buildtype b =? "deb"))%string in
  let building b := ((b_buildstate b =? "building") && (b_buildtype b =? "deb"))%string in
  ((exists b, In b (builds (committed w)) /\ scheduled b = true /\
              first_buildtask (committed w) (b_id b) = None) ->
   exists w', startup_scheduling w = (inl UnmappedInstanceError, w') /\
              committed w' = committed w) /\
  ((forall b, In b (builds (committed w)) -> scheduled b = true ->
              first_buildtask (committed w) (b_id b) <> None) ->
   (exists b, In b (builds (committed w)) /\ building b = true /\
              first_buildtask (committed w) (b_id b) = None) ->
   exists w', startup_scheduling w = (inl UnmappedInstanceError, w') /\
              builds (committed w')
              = map (fun b => if scheduled b then with_buildstate "needs_build" b else b)
                    (builds (committed w))).
Proof.
  intros Hbuilds Htasks scheduled building. split.
  - intros (b & Hb & Hs & Hnone).
    rewrite startup_scheduling_phases. cbv zeta.
    unfold bindW at 1. unfold bindW at 1. unfold query_builds at 1. cbn [pending].
    match goal with
    | |- context [match ?bs with [] => ret tt | _ :: _ => _ end ?w0] =>
        destruct (phase_raises "needs_build" bs w0) as (w' & Hrun & Hc & _)
    end.
    { exists b. split; [|exact Hnone]. apply filter_In. auto. }
    unfold set_needs_build. rewrite Hrun. eexists. split; [reflexivity|]. exact Hc.
  - intros Hall (b & Hb & Hbld & Hnone).
    rewrite startup_scheduling_phases. cbv zeta.
    set (d := committed w) in *.
    unfold bindW at 1.
    rewrite (scheduled_phase_completes d (events w) Hbuilds Htasks Hall).
    cbv zeta. fold scheduled.
    set (d1 := after_loop "needs_build" (filter scheduled (builds d)) d).
    unfold bindW at 1. unfold query_builds at 1. cbn [pending].
    match goal with
    | |- context [match ?bs with [] => ret tt | _ :: _ => _ end ?w0] =>
        destruct (phase_raises "failed" bs w0) as (w' & Hrun & Hc & _)
    end.
    { exists b. split.
      - assert (Heq : filter building (builds d1) = filter building (builds d))
          by exact (building_after_scheduled d Hbuilds).
        change (In b (filter building (builds d1))). rewrite Heq.
        apply filter_In. auto.
      - cbn [pending].
        assert (Hf : first_buildtask d1 (b_id b) = first_buildtask d (b_id b))
          by exact (first_buildtask_after_scheduled d Hbuilds Htasks b Hb Hbld).
        now rewrite Hf. }
    unfold set_failed. rewrite Hrun. eexists. split; [reflexivity|].
    cbn [committed]. rewrite Hc. cbn [committed].
    pose proof (builds_after_scheduled d Hbuilds) as Heq. cbv zeta in Heq. exact Heq.
Qed.

Lemma startup_scheduling_raises_between_witness :
  exists w', startup_scheduling (mkWorld orphaned orphaned []) = (inl UnmappedInstanceError, w') /\
             builds (committed w')
             = [mkBuild 1 "needs_build" "deb" false (Some 5);
                mkBuild 2 "building" "deb" true (Some 5);
                mkBuild 3 "successful" "deb" false (Some 5);
                mkBuild 4 "scheduled" "chroot" false None;
                mkBuild 5 "successful" "source" false (Some 6);
                mkBuild 6 "successful" "build" false None].
Proof.
  apply (proj2 (startup_scheduling_raises_between (mkWorld orphaned orphaned [])
                  ltac:(distinct_keys) ltac:(distinct_keys))).
  - simpl. intros b [<-|[<-|[<-|[<-|[<-|[<-|[]]]]]]]; simpl; discriminate.
  - exists (mkBuild 2 "building" "deb" true (Some 5)). simpl. auto 10.
Defined.

(** ** The two modes of the walk *)

Section WalkModes.

Variable Dict : Type.
Variable dict_eqb : Dict -> Dict -> bool.
Variable dict_id : Dict -> Z.
Variable projectversion_to_dict : Store -> ProjectVersion -> exn + Dict.

Hypothesis dict_eqb_eq : forall d d', dict_eqb d d' = true <-> d = d'.
Hypothesis dict_records_id :
  forall st pv d, projectversion_to_dict st pv = inr d -> dict_id d = pv_id pv.

Variable st : Store.
Variable root : Z.

Abbreviation walk_to := (get_deps Dict dict_eqb projectversion_to_dict st root).
Abbreviation is_dict := (entry_ok Dict dict_id projectversion_to_dict st true).
Abbreviation is_obj := (entry_ok Dict dict_id projectversion_to_dict st false).
Abbreviation objects :=
  (map (fun e : entry Dict => @Obj Dict (entry_id Dict dict_id e))).

Lemma objects_ids l : ids Dict dict_id (objects l) = ids Dict dict_id l.
Proof. unfold ids. rewrite map_map. reflexivity. Qed.

Lemma objects_are_obj l : Forall is_obj (objects l).
Proof. apply Forall_forall. intros e He. apply in_map_iff in He. now destruct He as (e' & <- & _). Qed.

(** The dict of a projectversion is in a list of dicts when the
    projectversion is in the list of the objects. *)
Lemma py_in_modes deps x pv d :
  Forall is_dict deps -> find_pv st x = Some pv -> projectversion_to_dict st pv = inr d ->
  py_in Dict dict_eqb (Obj x) (objects deps)
  = py_in Dict dict_eqb (AsDict d) deps.
Proof.
  intros Hdeps Hx Hd. pose proof (find_pv_id _ _ _ Hx) as Hid.
  pose proof (dict_records_id _ _ _ Hd) as Hrec.
  apply eq_iff_eq_true.
  rewrite (py_in_ids Dict dict_eqb dict_id projectversion_to_dict dict_eqb_eq st false
             (Obj x) (objects deps) (objects_are_obj deps) eq_refl).
  rewrite (py_in_ids Dict dict_eqb dict_id projectversion_to_dict dict_eqb_eq st true
             (AsDict d) deps Hdeps).
  - rewrite objects_ids. cbn [entry_id]. now rewrite Hrec, Hid.
  - exists pv, d. cbn [entry_id]. rewrite Hrec, Hid. auto.
Qed.

(** The [if] that opens [get_deps], in the two modes. *)
Lemma visit_modes deps x pv deps1 :
  Forall is_dict deps -> find_pv st x = Some pv ->
  (if negb (py_in Dict dict_eqb (Obj x) deps) && negb (root =? pv_id pv)
   then dep <- (d <- call (projectversion_to_dict st pv) ;; Ok (AsDict d)) ;;
        Ok (if negb (py_in Dict dict_eqb dep deps) then deps ++ [dep] else deps)
   else Ok deps) = Ok deps1 ->
  (if negb (py_in Dict dict_eqb (Obj x) (objects deps)) && negb (root =? pv_id pv)
   then dep <- Ok (Obj x) ;;
        Ok (if negb (py_in Dict dict_eqb dep (objects deps))
            then objects deps ++ [dep] else objects deps)
   else Ok (objects deps)) = Ok (objects deps1).
Proof.
  intros Hdeps Hx.
  rewrite (py_in_obj_dict Dict dict_eqb dict_id projectversion_to_dict st true x deps
             eq_refl Hdeps).
  cbn [negb andb]. destruct (root =? pv_id pv).
  - rewrite andb_false_r. now intros [= <-].
  - rewrite andb_true_r. cbn [negb].
    destruct (projectversion_to_dict st pv) as [e|d] eqn:Hd; [discriminate|].
    cbn [call bind]. rewrite (py_in_modes deps x pv d Hdeps Hx Hd).
    intros [= <-]. destruct (py_in Dict dict_eqb (AsDict d) deps); cbn [negb].
    + reflexivity.
    + rewrite map_app. cbn [map entry_id].
      now rewrite (dict_records_id _ _ _ Hd), (find_pv_id _ _ _ Hx).
Qed.

Lemma loop_modes n l :
  (forall deps x L, Forall is_dict deps -> walk_to true n deps x = Ok L ->
                    walk_to false n (objects deps) x = Ok (objects L)) ->
  forall deps L, Forall is_dict deps ->
    for_each (walk_to true n) l deps = Ok L ->
    for_each (walk_to false n) l (objects deps) = Ok (objects L).
Proof.
  intros Hbody. induction l as [|d l IH]; cbn [for_each]; intros deps L Hdeps H.
  - now injection H as <-.
  - apply bind_Ok in H. destruct H as (deps1 & H1 & H2).
    rewrite (Hbody _ _ _ Hdeps H1). cbn [bind]. apply IH; [|assumption].
    exact (proj1 (get_deps_grows Dict dict_eqb dict_id projectversion_to_dict
                    dict_eqb_eq dict_records_id st root true n deps d deps1 Hdeps H1)).
Qed.

Lemma get_deps_modes fuel : forall deps x L,
  Forall is_dict deps -> walk_to true fuel deps x = Ok L ->
  walk_to false fuel (objects deps) x = Ok (objects L).
Proof.
  induction fuel as [|n IH]; intros deps x L Hdeps H; [discriminate|].
  cbn [get_deps] in *. destruct (find_pv st x) as [pv|] eqn:Hx.
  - apply bind_Ok in H. destruct H as (deps1 & H1 & H2).
    match goal with
    | |- bind ?m _ = _ =>
        replace m with (Ok (objects deps1))
          by (symmetry; exact (visit_modes deps x pv deps1 Hdeps Hx H1))
    end.
    cbn [bind].
    apply (loop_modes n _ IH); [|assumption].
    exact (proj1 (visit_grows Dict dict_eqb dict_id projectversion_to_dict
                    dict_eqb_eq dict_records_id st root true deps x pv deps1 Hdeps Hx H1)).
  - now injection H as <-.
Qed.

End WalkModes.

(** X23.  The two modes of the walk agree: when the walk with [to_dict]
    returns its list of dicts, the walk without it returns the
    projectversions those dicts were made of, in the same order. *)
Theorem get_projectversion_deps_manually_modes
  (Dict : Type) (dict_eqb : Dict -> Dict -> bool) (dict_id : Dict -> Z)
  (projectversion_to_dict : Store -> ProjectVersion -> exn + Dict)
  (dict_eqb_eq : forall d d', dict_eqb d d' = true <-> d = d')
  (dict_records_id :
     forall st pv d, projectversion_to_dict st pv = inr d -> dict_id d = pv_id pv)
  (st : Store) (pv : Z) (fuel : nat) (L : list (entry Dict)) :
  get_projectversion_deps_manually Dict dict_eqb projectversion_to_dict st pv true fuel = Ok L ->
  get_projectversion_deps_manually Dict dict_eqb projectversion_to_dict st pv false fuel
  = Ok (map (fun e => Obj (entry_id Dict dict_id e)) L).
Proof.
  unfold get_projectversion_deps_manually. intros H.
  exact (get_deps_modes Dict dict_eqb dict_id projectversion_to_dict
           dict_eqb_eq dict_records_id st pv fuel [] pv L (Forall_nil _) H).
Qed.

Lemma get_projectversion_deps_manually_modes_witness :
  get_projectversion_deps_manually Z Z.eqb id_dict diamond 1 false 4
  = Ok [Obj 2; Obj 4; Obj 3].
Proof.
  exact (get_projectversion_deps_manually_modes Z Z.eqb (fun d => d) id_dict
           Z.eqb_eq (fun st pv d (H : id_dict st pv = inr d) => eq_sym (f_equal (fun r => match r with inr a => a | inl _ => d end) H))
           diamond 1 4 [AsDict 2; AsDict 4; AsDict 3] eq_refl).
Defined.
